(** * PiGuard: a shallow embedding of [piguard.py]

    The daemon supervises a UPS controller from a Raspberry Pi.  This file
    embeds the parts of [class PiGuard] that decide its behaviour:

    - the clamping of the configuration values in [load_config];
    - the interrupt service routine [isr] on the clock pin, which toggles the
      pulse pin and detects the shutdown request;
    - the bus reads [read_voltage] and [read_ups_mode];
    - the body of the [while True] loop of [main] and its [try/except/finally]
      wrapper.

    Python values are modelled as the interpreter has them: integers are
    unbounded ([Z]); a float is a rational or one of the three special values;
    an exception is a class in the built-in hierarchy and [except K] catches
    the instances of [K].  The outside world (levels on the pin, bus replies,
    file system, clock readings) is an explicit input of each operation, and
    every call that reaches the outside world is recorded in a trace. *)

From Stdlib Require Import ZArith QArith Lqa Lia List String Ascii Bool.
From Stdlib Require Import DecimalString.
Import ListNotations.

Local Open Scope string_scope.
Local Open Scope Z_scope.

(** ** Python numbers *)

(** A Python [float]: every finite double is a rational number; [inf],
    [-inf] and [nan] are what [float("inf")], [float("-inf")] and
    [float("nan")] parse to. *)
Inductive pyfloat : Type :=
| Fin (q : Q)
| PInf
| NInf
| NaN.

(** A number as [max]/[min] see it: an [int] or a [float]. *)
Inductive num : Type :=
| PyInt (z : Z)
| PyFloat (f : pyfloat).

Definition float_of_num (n : num) : pyfloat :=
  match n with
  | PyInt z => Fin (inject_Z z)
  | PyFloat f => f
  end.

Definition Qlt_bool (p q : Q) : bool := negb (Qle_bool q p).

(** [a < b] on floats; every comparison with [nan] is [False]. *)
Definition float_lt (a b : pyfloat) : bool :=
  match a, b with
  | NaN, _ | _, NaN => false
  | NInf, NInf => false
  | NInf, _ => true
  | _, NInf => false
  | PInf, _ => false
  | Fin _, PInf => true
  | Fin p, Fin q => Qlt_bool p q
  end.

(** [a <= b] on floats. *)
Definition float_le (a b : pyfloat) : bool :=
  match a, b with
  | NaN, _ | _, NaN => false
  | NInf, _ => true
  | _, PInf => true
  | PInf, _ => false
  | Fin _, NInf => false
  | Fin p, Fin q => Qle_bool p q
  end.

(** Python compares an [int] with a [float] by exact value. *)
Definition num_lt (a b : num) : bool :=
  match a, b with
  | PyInt x, PyInt y => x <? y
  | _, _ => float_lt (float_of_num a) (float_of_num b)
  end.

Definition num_le (a b : num) : bool :=
  match a, b with
  | PyInt x, PyInt y => x <=? y
  | _, _ => float_le (float_of_num a) (float_of_num b)
  end.

Definition num_gt (a b : num) : bool := num_lt b a.
Definition num_ge (a b : num) : bool := num_le b a.

(** [a == b]. *)
Definition num_eqb (a b : num) : bool := num_le a b && num_le b a.

(** The built-ins [min(a, b)] and [max(a, b)]: the first argument is kept
    unless the second one is strictly smaller (strictly greater). *)
Definition py_min (a b : num) : num := if num_lt b a then b else a.
Definition py_max (a b : num) : num := if num_gt b a then b else a.

(** [int]-only instances, as used for the four integer settings. *)
Definition int_min (a b : Z) : Z := if b <? a then b else a.
Definition int_max (a b : Z) : Z := if a <? b then b else a.

(** ** Constants of [class PiGuard] *)

Definition MAX_SHUTDOWN_DELAY : Z := 235.
Definition MIN_SHUTDOWN_DELAY : Z := 1.
Definition MAX_WATCHDOG_RPI : Z := 10.
Definition MIN_WATCHDOG_RPI : Z := 3.
Definition MAX_LOOP_RUN_UPS : Z := 20.
Definition MIN_LOOP_RUN_UPS : Z := 1.
Definition MAX_POST_SHUTDOWN : Z := 254.
Definition MIN_POST_SHUTDOWN : Z := 10.
Definition MAX_FREC_HISTORY : Z := 3600.
Definition MIN_FREC_HISTORY : Z := 20.

Definition READ_VOLTAGE_CMD : Z := 0x01.
Definition READ_MODE_CMD : Z := 0x02.
Definition SET_SHUTDOWN_TIME_CMD : Z := 0x03.
Definition WATCHDOG_RPI_CMD : Z := 0x04.
Definition POST_SHUTDOWN_CMD : Z := 0x05.
Definition DIR_I2C : Z := 0x20.

Definition BOUNCE_TIME : Z := 30.
Definition CLOCK_PIN : Z := 27.
Definition PULSE_PIN : Z := 22.

(** ** The attributes of [self] *)

Record PiGuard : Type := mkPiGuard {
  SHUTDOWN_DELAY : Z;
  WATCHDOG_RPI : Z;
  LOOP_RUN_UPS : Z;
  POST_SHUTDOWN : Z;
  FREC_HISTORY : num;
  I2C_SEND_ENABLED : bool;
  history_write : Q;
  sqwave : bool
}.

(** ** [load_config] *)

(** What [load_config] finds in [self.config_vars] once [int(...)] and
    [float(...)] have parsed the five numeric entries.  A text that is not a
    number makes [int]/[float] raise [ValueError] before any clamping; that
    path is not part of this model.  The last field is the value of
    [config_vars.get("I2C_SEND_ENABLED", "True").lower() == "true"]. *)
Record raw_config : Type := mkRaw {
  raw_SHUTDOWN_DELAY : Z;
  raw_WATCHDOG_RPI : Z;
  raw_LOOP_RUN_UPS : Z;
  raw_POST_SHUTDOWN : Z;
  raw_FREC_HISTORY : pyfloat;
  raw_I2C_SEND_ENABLED : bool
}.

Definition load_SHUTDOWN_DELAY (x : Z) : Z :=
  int_max MIN_SHUTDOWN_DELAY (int_min x MAX_SHUTDOWN_DELAY).
Definition load_WATCHDOG_RPI (x : Z) : Z :=
  int_max MIN_WATCHDOG_RPI (int_min x MAX_WATCHDOG_RPI).
Definition load_LOOP_RUN_UPS (x : Z) : Z :=
  int_max MIN_LOOP_RUN_UPS (int_min x MAX_LOOP_RUN_UPS).
Definition load_POST_SHUTDOWN (x : Z) : Z :=
  int_max MIN_POST_SHUTDOWN (int_min x MAX_POST_SHUTDOWN).
Definition load_FREC_HISTORY (x : pyfloat) : num :=
  py_max (PyInt MIN_FREC_HISTORY) (py_min (PyFloat x) (PyInt MAX_FREC_HISTORY)).

(** [__init__] followed by the clamping lines of [load_config]; [t0] is the
    reading of [time.time()] in [__init__], taken while [FREC_HISTORY] still
    has its default of 60. *)
Definition load_config (t0 : Q) (rc : raw_config) : PiGuard :=
  {| SHUTDOWN_DELAY := load_SHUTDOWN_DELAY (raw_SHUTDOWN_DELAY rc);
     WATCHDOG_RPI := load_WATCHDOG_RPI (raw_WATCHDOG_RPI rc);
     LOOP_RUN_UPS := load_LOOP_RUN_UPS (raw_LOOP_RUN_UPS rc);
     POST_SHUTDOWN := load_POST_SHUTDOWN (raw_POST_SHUTDOWN rc);
     FREC_HISTORY := load_FREC_HISTORY (raw_FREC_HISTORY rc);
     I2C_SEND_ENABLED := raw_I2C_SEND_ENABLED rc;
     history_write := (t0 - 60)%Q;
     sqwave := true |}.

(** ** Exceptions *)

(** The built-in exception classes that the program raises or names in an
    [except] clause.  In Python 3 [IOError] is another name of [OSError]. *)
Inductive exn : Type :=
| BaseException
| Exception
| OSError
| ValueError
| RuntimeError
| KeyboardInterrupt
| SystemExit.

Definition IOError : exn := OSError.

Definition exn_eqb (a b : exn) : bool :=
  match a, b with
  | BaseException, BaseException | Exception, Exception
  | OSError, OSError | ValueError, ValueError | RuntimeError, RuntimeError
  | KeyboardInterrupt, KeyboardInterrupt | SystemExit, SystemExit => true
  | _, _ => false
  end.

(** The direct base class. *)
Definition base (e : exn) : option exn :=
  match e with
  | BaseException => None
  | Exception | KeyboardInterrupt | SystemExit => Some BaseException
  | OSError | ValueError | RuntimeError => Some Exception
  end.

Fixpoint isinstance_upto (depth : nat) (e k : exn) : bool :=
  exn_eqb e k ||
  match depth, base e with
  | S d, Some b => isinstance_upto d b k
  | _, _ => false
  end.

(** [isinstance(e, K)]: the hierarchy above is two levels deep. *)
Definition isinstance (e k : exn) : bool := isinstance_upto 2 e k.

(** The result of running a piece of Python: a value, or a raised exception. *)
Inductive result (A : Type) : Type :=
| Ret (a : A)
| Exc (e : exn).
Arguments Ret {A} a.
Arguments Exc {A} e.

(** ** The outside world *)

Inductive level : Type := INFO | WARNING | ERROR | CRITICAL.

Inductive logfile : Type :=
| UPS_History_POWER     (* the power-event log, UPS_History_POWER.dbg *)
| UPS_History.          (* the periodic-sample log, UPS_History.dbg *)

(** One entry per call that leaves the interpreter, in program order.  A call
    is recorded when it is made, whether it then succeeds or raises. *)
Inductive event : Type :=
| Log (l : level) (msg : string)
| Acquire                              (* pulse_pin_mutex.__enter__ *)
| Release                              (* pulse_pin_mutex.__exit__ *)
| GpioInput (v : bool)                 (* GPIO.input(PULSE_PIN) gave v *)
| GpioOutput (v : bool)                (* GPIO.output(PULSE_PIN, v) *)
| GpioSetupIn                          (* GPIO.setup(PULSE_PIN, GPIO.IN, PUD_UP) *)
| GpioSetupOut (initial : bool)        (* GPIO.setup(PULSE_PIN, GPIO.OUT, initial) *)
| GpioCleanup
| FileOpen (f : logfile)               (* open(path, "a+") *)
| FileWrite (f : logfile) (line : string)
| FileClose (f : logfile)
| BusWrite (byte : Z)                  (* bus.write_byte(DIR_I2C, byte) *)
| BusRead                              (* bus.read_byte(DIR_I2C) *)
| Sleep (ms : Z)                       (* time.sleep *)
| Shutdown.                            (* subprocess.call(['/sbin/shutdown','-h','now']) *)

Inductive direction : Type := IN | OUT.

(** The pulse pin: its direction and the level last written to its output
    latch. *)
Record pin : Type := mkPin { dir : direction; latch : bool }.

(** Everything the two threads of the daemon can change. *)
Record world : Type := mkWorld {
  self : PiGuard;
  pulse_pin : pin;
  locked : bool;                 (* pulse_pin_mutex is held *)
  last_mode : option Z;          (* local variable of main *)
  trace : list event             (* calls made so far, oldest first *)
}.

Definition set_self (f : PiGuard -> PiGuard) (w : world) : world :=
  {| self := f (self w); pulse_pin := pulse_pin w; locked := locked w;
     last_mode := last_mode w; trace := trace w |}.
Definition set_pulse_pin (p : pin) (w : world) : world :=
  {| self := self w; pulse_pin := p; locked := locked w;
     last_mode := last_mode w; trace := trace w |}.
Definition set_locked (b : bool) (w : world) : world :=
  {| self := self w; pulse_pin := pulse_pin w; locked := b;
     last_mode := last_mode w; trace := trace w |}.
Definition set_last_mode (m : option Z) (w : world) : world :=
  {| self := self w; pulse_pin := pulse_pin w; locked := locked w;
     last_mode := m; trace := trace w |}.
Definition emit (ev : event) (w : world) : world :=
  {| self := self w; pulse_pin := pulse_pin w; locked := locked w;
     last_mode := last_mode w; trace := trace w ++ [ev] |}.

Definition with_sqwave (b : bool) (g : PiGuard) : PiGuard :=
  {| SHUTDOWN_DELAY := SHUTDOWN_DELAY g; WATCHDOG_RPI := WATCHDOG_RPI g;
     LOOP_RUN_UPS := LOOP_RUN_UPS g; POST_SHUTDOWN := POST_SHUTDOWN g;
     FREC_HISTORY := FREC_HISTORY g; I2C_SEND_ENABLED := I2C_SEND_ENABLED g;
     history_write := history_write g; sqwave := b |}.
Definition with_history_write (t : Q) (g : PiGuard) : PiGuard :=
  {| SHUTDOWN_DELAY := SHUTDOWN_DELAY g; WATCHDOG_RPI := WATCHDOG_RPI g;
     LOOP_RUN_UPS := LOOP_RUN_UPS g; POST_SHUTDOWN := POST_SHUTDOWN g;
     FREC_HISTORY := FREC_HISTORY g; I2C_SEND_ENABLED := I2C_SEND_ENABLED g;
     history_write := t; sqwave := sqwave g |}.

(** ** Statements: state, trace and exceptions *)

(** A statement runs in a world and ends with a value or an exception; the
    changes it made before raising stay. *)
Definition M (A : Type) : Type := world -> result A * world.

Definition ret {A} (a : A) : M A := fun w => (Ret a, w).
Definition raise {A} (e : exn) : M A := fun w => (Exc e, w).
Definition bind {A B} (m : M A) (k : A -> M B) : M B :=
  fun w => match m w with
           | (Ret a, w') => k a w'
           | (Exc e, w') => (Exc e, w')
           end.

Declare Scope py_scope.
Delimit Scope py_scope with py.
Notation "x <- m ;; k" := (bind m (fun x => k))
  (at level 61, m at next level, right associativity) : py_scope.
Notation "m ;; k" := (bind m (fun _ => k))
  (at level 61, right associativity) : py_scope.
Local Open Scope py_scope.

Definition get {A} (f : world -> A) : M A := fun w => (Ret (f w), w).
Definition modify (f : world -> world) : M unit := fun w => (Ret tt, f w).

(** A call to the outside: recorded, then it returns or raises as the
    outside decides. *)
Definition call {A} (ev : event) (r : result A) : M A :=
  fun w => (r, emit ev w).

(** [try: body  except K as e: handler e]. *)
Definition try_except {A} (body : M A) (K : exn) (handler : exn -> M A) : M A :=
  fun w => match body w with
           | (Exc e, w') => if isinstance e K then handler e w' else (Exc e, w')
           | r => r
           end.

(** [try: body  finally: final]: [final] always runs; an exception raised
    by [final] replaces the pending outcome. *)
Definition try_finally {A} (body : M A) (final : M unit) : M A :=
  fun w => match body w with
           | (r, w') => match final w' with
                        | (Ret _, w'') => (r, w'')
                        | (Exc e, w'') => (Exc e, w'')
                        end
           end.

Definition log (l : level) (msg : string) : M unit := call (Log l msg) (Ret tt).

(** [time.sleep(s)] with [s] given in milliseconds. *)
Definition sleep (ms : Z) : M unit := call (Sleep ms) (Ret tt).

(** ** Text *)

Definition TAB : string := String (ascii_of_nat 9) EmptyString.
Definition NL : string := String (ascii_of_nat 10) EmptyString.

(** [str(n)] for an [int]. *)
Definition str (n : Z) : string := NilZero.string_of_int (Z.to_int n).

(** [f"{volta:.1f}"] where [volta = float(voltage) * 0.02] and [voltage] is
    a byte read from the bus.  The exact value is [voltage/50]; its distance
    to the nearest rounding boundary of one decimal is at least [0.01], far
    above the error of the floating product, so the digits printed are those
    of [voltage/5] rounded to the nearest integer number of tenths. *)
Definition fmt_volta (voltage : Z) : string :=
  let tenths := (voltage + 2) / 5 in
  str (tenths / 10) ++ "." ++ str (tenths mod 10).

(** ** GPIO, files and the bus *)

(** [GPIO.input(PULSE_PIN)]: an output pin reads back the level it drives; an
    input pin reads the level [line] that the pull-up and the UPS controller
    leave on the wire. *)
Definition GPIO_input (line : bool) : M bool :=
  fun w => let v := match dir (pulse_pin w) with
                    | OUT => latch (pulse_pin w)
                    | IN => line
                    end in
           (Ret v, emit (GpioInput v) w).

(** [GPIO.output(PULSE_PIN, v)]: RPi.GPIO refuses a pin that is not set up as
    an output with a [RuntimeError]. *)
Definition GPIO_output (v : bool) : M unit :=
  fun w => match dir (pulse_pin w) with
           | OUT => (Ret tt, emit (GpioOutput v) (set_pulse_pin (mkPin OUT v) w))
           | IN => (Exc RuntimeError, emit (GpioOutput v) w)
           end.

(** [GPIO.setup(PULSE_PIN, GPIO.IN, pull_up_down=GPIO.PUD_UP)]. *)
Definition GPIO_setup_in : M unit :=
  fun w => (Ret tt, emit GpioSetupIn
                      (set_pulse_pin (mkPin IN (latch (pulse_pin w))) w)).

(** [GPIO.setup(PULSE_PIN, GPIO.OUT, initial=v)]. *)
Definition GPIO_setup_out (v : bool) : M unit :=
  fun w => (Ret tt, emit (GpioSetupOut v) (set_pulse_pin (mkPin OUT v) w)).

(** How the file system answers the three calls of one
    [with open(path, "a+") as f: ... f.write(line)]. *)
Record file_io : Type := mkFileIO {
  open_r : result unit;
  write_r : result unit;
  close_r : result unit      (* f.__exit__, which flushes the buffer *)
}.

(** [with open(path, "a+") as f: body].  [open] may raise; if it returns, the
    file is closed when [body] ends, normally or not, and a failing close
    raises in turn. *)
Definition with_open {A} (io : file_io) (f : logfile) (body : M A) : M A :=
  call (FileOpen f) (open_r io) ;;
  try_finally body (call (FileClose f) (close_r io)).

(** [f.write(line)] inside such a block. *)
Definition write (io : file_io) (f : logfile) (line : string) : M unit :=
  call (FileWrite f line) (write_r io).

(** [with self.pulse_pin_mutex: body], run from a world in which the mutex
    is free.  (A handler that finds the mutex taken waits; the waiting is
    modelled by the thread machine further down.) *)
Definition with_mutex {A} (body : M A) : M A :=
  call Acquire (Ret tt) ;;
  modify (set_locked true) ;;
  try_finally body (call Release (Ret tt) ;; modify (set_locked false)).

(** How the bus answers one write-then-read exchange. *)
Record bus_io : Type := mkBusIO {
  write_byte_r : result unit;
  read_byte_r : result Z
}.

(** ** The interrupt service routine *)

(** What the outside presents to one run of the handler. *)
Record edge : Type := mkEdge {
  line : bool;               (* level on the wire while the pin is an input *)
  stamp : string;            (* datetime.now().strftime(...)[:-3] *)
  power_log : file_io        (* answers for UPS_History_POWER.dbg *)
}.

Definition shutdown_record (now : string) : string :=
  now ++ NL ++ TAB ++
  "The Volta UPS commands the shutdown of the Raspberry Pi." ++ NL ++ NL.

(** [subprocess.call(['/sbin/shutdown', '-h', 'now'])]: it returns the exit
    status of the command, which the handler ignores.  The command is taken
    to start, so that the call returns; [isr_with_shutdown] further down
    leaves the outcome of the call open. *)
Definition shutdown_call : M unit := call Shutdown (Ret tt).

Definition isr (channel : Z) (e : edge) : M unit :=
  if negb (channel =? CLOCK_PIN) then ret tt
  else
    with_mutex (
      v <- GPIO_input (line e) ;;
      modify (set_self (with_sqwave (negb v))) ;;
      GPIO_output false ;;
      GPIO_setup_in ;;
      sampled <- GPIO_input (line e) ;;
      (if negb sampled then
         log WARNING "Se solicita el apagado de la Raspberry Pi desde la UPS" ;;
         try_except
           (with_open (power_log e) UPS_History_POWER
              (write (power_log e) UPS_History_POWER
                 (shutdown_record (stamp e))))
           Exception
           (fun _ => log ERROR "Error al escribir en el archivo de registro: %s") ;;
         sleep 2000 ;;
         shutdown_call
       else ret tt) ;;
      sq <- get (fun w => sqwave (self w)) ;;
      GPIO_setup_out sq).

(** The handler run on a series of accepted edges, one after the other (the
    library delivers them from a single callback thread). *)
Fixpoint isr_all (edges : list edge) : M unit :=
  match edges with
  | [] => ret tt
  | e :: rest => isr CLOCK_PIN e ;; isr_all rest
  end.

(** ** Reading the UPS over the bus *)

Definition read_voltage (io : bus_io) : M (option Z) :=
  try_except
    (call (BusWrite READ_VOLTAGE_CMD) (write_byte_r io) ;;
     sleep 200 ;;
     vol <- call BusRead (read_byte_r io) ;;
     ret (Some vol))
    IOError
    (fun _ => log ERROR "Error de I/O al leer el voltaje: %s" ;; ret None).

Definition read_ups_mode (io : bus_io) : M (option Z) :=
  try_except
    (call (BusWrite READ_MODE_CMD) (write_byte_r io) ;;
     sleep 200 ;;
     modo <- call BusRead (read_byte_r io) ;;
     ret (Some modo))
    IOError
    (fun _ => log ERROR "Error de I/O al leer el modo: %s" ;; ret None).

(** ** The start-up record of [main] *)

(** The text written to UPS_History_POWER.dbg once the three settings have
    been pushed to the controller. *)
Definition startup_line (now : string) (g : PiGuard) : string :=
  if SHUTDOWN_DELAY g <? 181 then
    now ++ NL ++ TAB ++ "Shutdown delay: " ++ TAB ++ str (SHUTDOWN_DELAY g)
        ++ TAB ++ "[min]" ++ NL
        ++ TAB ++ "Watchdog Rpi: " ++ TAB ++ TAB ++ str (WATCHDOG_RPI g)
        ++ TAB ++ "[min]" ++ NL
        ++ TAB ++ "Post Shutdown: " ++ TAB ++ TAB ++ str (POST_SHUTDOWN g)
        ++ TAB ++ "[s]" ++ NL
  else
    now ++ NL ++ TAB ++ "Shutdown delay: " ++ TAB ++ str (SHUTDOWN_DELAY g - 177)
        ++ TAB ++ "[hrs]" ++ NL
        ++ TAB ++ "Watchdog Rpi: " ++ TAB ++ TAB ++ str (WATCHDOG_RPI g)
        ++ TAB ++ "[min]" ++ NL
        ++ TAB ++ "Post Shutdown: " ++ TAB ++ TAB ++ str (POST_SHUTDOWN g)
        ++ TAB ++ "[s]" ++ NL.

(** ** The polling loop of [main] *)

(** What the outside presents to one iteration of [while True]. *)
Record tick : Type := mkTick {
  voltage_bus : bus_io;      (* answers to read_voltage *)
  mode_bus : bus_io;         (* answers to read_ups_mode *)
  now : Q;                   (* time.time() *)
  power_stamp : string;      (* datetime.now() text for the event line *)
  power_io : file_io;        (* answers for UPS_History_POWER.dbg *)
  history_stamp : string;    (* datetime.now() text for the sample line *)
  history_io : file_io;      (* answers for UPS_History.dbg *)
  sleep_r : result unit      (* time.sleep(LOOP_RUN_UPS): returns, or is
                                interrupted by KeyboardInterrupt *)
}.

(** [f"{now}\tVoltaje: {volta:.1f}[V]\t\tModo: {mode}\n"]. *)
Definition sample_line (now : string) (voltage mode : Z) : string :=
  now ++ TAB ++ "Voltaje: " ++ fmt_volta voltage ++ "[V]" ++ TAB ++ TAB
      ++ "Modo: " ++ str mode ++ NL.

(** [last_mode is None or last_mode != mode]. *)
Definition mode_changed (last : option Z) (mode : Z) : bool :=
  match last with
  | None => true
  | Some l => negb (l =? mode)
  end.

(** [now - self.history_write >= self.FREC_HISTORY]. *)
Definition history_due (now : Q) (g : PiGuard) : bool :=
  num_ge (PyFloat (Fin (now - history_write g))) (FREC_HISTORY g).

Definition loop_body (t : tick) : M unit :=
  enabled <- get (fun w => I2C_SEND_ENABLED (self w)) ;;
  (if enabled : bool then
     voltage <- read_voltage (voltage_bus t) ;;
     mode <- read_ups_mode (mode_bus t) ;;
     match voltage, mode with
     | Some v, Some m =>
         due <- get (fun w => history_due (now t) (self w)) ;;
         if due : bool then
           modify (set_self (with_history_write (now t))) ;;
           last <- get last_mode ;;
           (if mode_changed last m then
              try_except
                (with_open (power_io t) UPS_History_POWER
                   (write (power_io t) UPS_History_POWER
                      (sample_line (power_stamp t) v m) ;;
                    modify (set_last_mode (Some m))))
                Exception
                (fun _ => log ERROR "Error al escribir en UPS_History_POWER.dbg: %s")
            else ret tt) ;;
           with_open (history_io t) UPS_History
             (write (history_io t) UPS_History
                (sample_line (history_stamp t) v m))
         else ret tt
     | _, _ => ret tt
     end
   else ret tt) ;;
  secs <- get (fun w => LOOP_RUN_UPS (self w)) ;;
  call (Sleep (secs * 1000)) (sleep_r t).

(** The iterations of [while True] for the ticks given; the loop leaves only
    by an exception, so [Ret] means that it is still running. *)
Fixpoint while_true (ticks : list tick) : M unit :=
  match ticks with
  | [] => ret tt
  | t :: rest => loop_body t ;; while_true rest
  end.

(** [try: last_mode = None; while True: ...  except KeyboardInterrupt: ...
    finally: ...] of [main]: when the loop is left by an exception the
    handlers run; an exception other than [KeyboardInterrupt] goes on to the
    caller after the clean-up and ends the process.  [GPIO.cleanup()] is
    recorded as a call; it hands the channels back to the system, and what
    [pulse_pin] holds says nothing about the pin once this call is in the
    trace. *)
Definition steady_loop (ticks : list tick) : M unit :=
  fun w =>
    match (modify (set_last_mode None) ;; while_true ticks) w with
    | (Ret _, w') => (Ret tt, w')
    | (Exc e, w') =>
        try_finally
          (try_except (raise e) KeyboardInterrupt
             (fun _ => log INFO "Deteniendo el servicio Pi Guard..."))
          (log INFO "Limpiando los pines GPIO..." ;; call GpioCleanup (Ret tt))
          w'
    end.

(** * Closed forms and observations

    The definitions below say, for the answers of the outside, what a run
    returns, which calls it makes and which world it leaves; the lemmas that
    relate them to the program are in the second part of the file. *)

(** ** A block that appends to a file *)

(** The world after the calls [evs] have been recorded. *)
Definition emits (evs : list event) (w : world) : world :=
  {| self := self w; pulse_pin := pulse_pin w; locked := locked w;
     last_mode := last_mode w; trace := trace w ++ evs |}.

(** How one [with open(...) as f: f.write(line)] ends: a failing [open]
    raises at once; otherwise the file is closed whatever [write] did, and a
    failing close is the exception that leaves the block. *)
Definition append_outcome (io : file_io) : result unit :=
  match open_r io with
  | Exc x => Exc x
  | Ret _ => match close_r io with
             | Exc x => Exc x
             | Ret _ => write_r io
             end
  end.

(** The calls made by one such block. *)
Definition append_events (io : file_io) (f : logfile) (text : string) : list event :=
  FileOpen f ::
  match open_r io with
  | Exc _ => []
  | Ret _ => [FileWrite f text; FileClose f]
  end.

(** [r] is a normal return or an instance of class [K]. *)
Definition raises_only {A} (K : exn) (r : result A) : Prop :=
  match r with
  | Ret _ => True
  | Exc x => isinstance x K = true
  end.

(** ** The handler on one accepted edge *)

(** The calls of one run of the handler that starts with the pin driven at
    level [l]. *)
Definition isr_events (l : bool) (e : edge) : list event :=
  [Acquire; GpioInput l; GpioOutput false; GpioSetupIn; GpioInput (line e)]
  ++ (if line e then []
      else [Log WARNING "Se solicita el apagado de la Raspberry Pi desde la UPS"]
           ++ append_events (power_log e) UPS_History_POWER
                (shutdown_record (stamp e))
           ++ match append_outcome (power_log e) with
              | Ret _ => []
              | Exc _ => [Log ERROR "Error al escribir en el archivo de registro: %s"]
              end
           ++ [Sleep 2000; Shutdown])
  ++ [GpioSetupOut (negb l); Release].

(** The world a completed run leaves behind. *)
Definition after_isr (e : edge) (w : world) : world :=
  let l := latch (pulse_pin w) in
  {| self := with_sqwave (negb l) (self w);
     pulse_pin := mkPin OUT (negb l);
     locked := false;
     last_mode := last_mode w;
     trace := trace w ++ isr_events l e |}.

(** The state between two edges: the pin is an output that drives the level
    stored in [sqwave], as [main] leaves it after
    [GPIO.setup(PULSE_PIN, GPIO.OUT, initial=True)]. *)
Definition driving (w : world) : Prop :=
  dir (pulse_pin w) = OUT /\ latch (pulse_pin w) = sqwave (self w).

(** The world in which [main] arms the interrupt. *)
Definition armed (g : PiGuard) : world :=
  {| self := g; pulse_pin := mkPin OUT true; locked := false;
     last_mode := None; trace := [] |}.

(** ** The handler over a series of edges *)

Definition edge_ok (e : edge) : Prop :=
  raises_only Exception (append_outcome (power_log e)).

(** ** Shutdown calls over a process lifetime *)

Definition is_shutdown (ev : event) : bool :=
  match ev with
  | Shutdown => true
  | _ => false
  end.

(** The number of shutdown calls recorded in a trace. *)
Definition shutdown_calls (t : list event) : nat :=
  List.length (filter is_shutdown t).

(** The edges of a series whose sample was logical-low. *)
Definition sampled_low (edges : list edge) : list edge :=
  filter (fun e => negb (line e)) edges.

(** The claim as the specification words it: over a process lifetime in
    which some accepted edge samples logical-low, the shutdown action is
    invoked exactly once. *)
Definition shutdown_exactly_once : Prop :=
  forall (g : PiGuard) (edges : list edge),
    Forall edge_ok edges ->
    Exists (fun e => line e = false) edges ->
    shutdown_calls (trace (snd (isr_all edges (armed g)))) = 1%nat.

(** Two accepted edges that both sample low: the handler calls the shutdown
    command on each of them. *)
Definition two_low_edges : list edge :=
  [mkEdge false "04-11-2026 10:00:00.000" (mkFileIO (Ret tt) (Ret tt) (Ret tt));
   mkEdge false "04-11-2026 10:00:03.000" (mkFileIO (Ret tt) (Ret tt) (Ret tt))].

(** ** One exchange on the bus *)

(** The exchange failed with an I/O error, on the write or on the read. *)
Definition bus_fails (io : bus_io) : bool :=
  match write_byte_r io with
  | Exc x => isinstance x IOError
  | Ret _ => match read_byte_r io with
             | Exc x => isinstance x IOError
             | Ret _ => false
             end
  end.

(** What [read_voltage] and [read_ups_mode] give back for the answers of the
    bus: the byte read, [None] after an I/O error, and any other exception as
    it is. *)
Definition read_outcome (io : bus_io) : result (option Z) :=
  match write_byte_r io with
  | Exc x => if isinstance x IOError then Ret None else Exc x
  | Ret _ => match read_byte_r io with
             | Exc x => if isinstance x IOError then Ret None else Exc x
             | Ret v => Ret (Some v)
             end
  end.

(** The calls they make: the opcode [cmd] is written, and [msg] is logged
    after an I/O error. *)
Definition read_events (cmd : Z) (msg : string) (io : bus_io) : list event :=
  BusWrite cmd ::
  match write_byte_r io with
  | Exc x => if isinstance x IOError then [Log ERROR msg] else []
  | Ret _ => Sleep 200 :: BusRead ::
             match read_byte_r io with
             | Exc x => if isinstance x IOError then [Log ERROR msg] else []
             | Ret _ => []
             end
  end.

(** ** One iteration of the polling loop *)

(** The calls of the two reads at the start of an iteration. *)
Definition tick_reads (t : tick) : list event :=
  read_events READ_VOLTAGE_CMD "Error de I/O al leer el voltaje: %s" (voltage_bus t)
  ++ read_events READ_MODE_CMD "Error de I/O al leer el modo: %s" (mode_bus t).

(** [time.sleep(self.LOOP_RUN_UPS)] at the end of an iteration. *)
Definition tick_sleep (w : world) : event := Sleep (LOOP_RUN_UPS (self w) * 1000).

(** [f.write] returned: the statements that follow it inside the [with]
    block are reached. *)
Definition write_returned (io : file_io) : bool :=
  match open_r io, write_r io with
  | Ret _, Ret _ => true
  | _, _ => false
  end.

(** The calls of the mode-change block of an iteration that reads [v] and
    [m] when the history is due. *)
Definition power_events (t : tick) (v m : Z) (w : world) : list event :=
  if mode_changed (last_mode w) m then
    append_events (power_io t) UPS_History_POWER (sample_line (power_stamp t) v m)
    ++ match append_outcome (power_io t) with
       | Ret _ => []
       | Exc _ => [Log ERROR "Error al escribir en UPS_History_POWER.dbg: %s"]
       end
  else [].

(** The world after such an iteration. *)
Definition after_due_tick (t : tick) (v m : Z) (w : world) : world :=
  {| self := with_history_write (now t) (self w);
     pulse_pin := pulse_pin w;
     locked := locked w;
     last_mode := if mode_changed (last_mode w) m && write_returned (power_io t)
                  then Some m else last_mode w;
     trace := trace w ++ tick_reads t ++ power_events t v m w
                ++ append_events (history_io t) UPS_History
                     (sample_line (history_stamp t) v m)
                ++ match append_outcome (history_io t) with
                   | Ret _ => [tick_sleep w]
                   | Exc _ => []
                   end |}.

(** The bus raises nothing but I/O errors. *)
Definition bus_ok (io : bus_io) : Prop :=
  raises_only IOError (write_byte_r io) /\ raises_only IOError (read_byte_r io).

Definition is_file_event (ev : event) : bool :=
  match ev with
  | FileOpen _ | FileWrite _ _ | FileClose _ => true
  | _ => false
  end.


(** *** Over a run of the loop *)

(** The calls made between two worlds of one run. *)
Definition new_events (w w' : world) : list event :=
  skipn (List.length (trace w)) (trace w').






(** ** A failed append to the power-event log *)

(** The claim as worded: whenever the append of the event line ends with an
    error, [last_mode] keeps its value. *)
Definition event_failure_keeps_last_mode : Prop :=
  forall (t : tick) (w : world) (v m : Z) (x : exn),
    I2C_SEND_ENABLED (self w) = true ->
    read_outcome (voltage_bus t) = Ret (Some v) ->
    read_outcome (mode_bus t) = Ret (Some m) ->
    history_due (now t) (self w) = true ->
    mode_changed (last_mode w) m = true ->
    append_outcome (power_io t) = Exc x ->
    isinstance x Exception = true ->
    last_mode (snd (loop_body t w)) = last_mode w.

(** An iteration in which the event line is written into the buffer and the
    error comes when the file is closed (the flush fails). *)
Definition close_fails_tick : tick :=
  mkTick (mkBusIO (Ret tt) (Ret 200)) (mkBusIO (Ret tt) (Ret 1))
    0 "04-11-2026 10:00:00.000" (mkFileIO (Ret tt) (Ret tt) (Exc OSError))
    "04-11-2026 10:00:00.001" (mkFileIO (Ret tt) (Ret tt) (Ret tt))
    (Ret tt).

(** * The handler as a thread *)

(** The polling loop and the runs of the handler are threads that share the
    world.  Here the handler is cut into its atomic steps, one per call that
    leaves the interpreter, so that runs can be interleaved. *)

(** Where a run of the handler stands. *)
Inductive pc : Type :=
| AtAcquire                  (* with self.pulse_pin_mutex: not yet entered *)
| AtReadLevel                (* self.sqwave = not GPIO.input(PULSE_PIN) *)
| AtDriveLow                 (* GPIO.output(PULSE_PIN, False) *)
| AtSetupIn                  (* GPIO.setup(PULSE_PIN, GPIO.IN, ...) *)
| AtSample                   (* if not GPIO.input(PULSE_PIN): *)
| AtWarn                     (* self.log.warning(...) *)
| AtRecord                   (* try: with open(...) ... except Exception *)
| AtGrace                    (* time.sleep(2) *)
| AtShutdown                 (* subprocess.call([...]) *)
| AtSetupOut                 (* GPIO.setup(PULSE_PIN, GPIO.OUT, initial=...) *)
| AtRelease (r : result unit)  (* leaving the with block *)
| Finished (r : result unit).

(** The step taken from [p], if the thread can move: a thread at
    [AtAcquire] waits while the mutex is held. *)
Definition thread_step (e : edge) (p : pc) (w : world) : option (pc * world) :=
  match p with
  | AtAcquire =>
      if locked w then None
      else Some (AtReadLevel, set_locked true (emit Acquire w))
  | AtReadLevel =>
      match (v <- GPIO_input (line e) ;;
             modify (set_self (with_sqwave (negb v)))) w with
      | (Ret _, w') => Some (AtDriveLow, w')
      | (Exc x, w') => Some (AtRelease (Exc x), w')
      end
  | AtDriveLow =>
      match GPIO_output false w with
      | (Ret _, w') => Some (AtSetupIn, w')
      | (Exc x, w') => Some (AtRelease (Exc x), w')
      end
  | AtSetupIn =>
      match GPIO_setup_in w with
      | (Ret _, w') => Some (AtSample, w')
      | (Exc x, w') => Some (AtRelease (Exc x), w')
      end
  | AtSample =>
      match GPIO_input (line e) w with
      | (Ret sampled, w') => Some (if negb sampled then AtWarn else AtSetupOut, w')
      | (Exc x, w') => Some (AtRelease (Exc x), w')
      end
  | AtWarn =>
      match log WARNING "Se solicita el apagado de la Raspberry Pi desde la UPS" w with
      | (Ret _, w') => Some (AtRecord, w')
      | (Exc x, w') => Some (AtRelease (Exc x), w')
      end
  | AtRecord =>
      match try_except
              (with_open (power_log e) UPS_History_POWER
                 (write (power_log e) UPS_History_POWER
                    (shutdown_record (stamp e))))
              Exception
              (fun _ => log ERROR "Error al escribir en el archivo de registro: %s")
              w with
      | (Ret _, w') => Some (AtGrace, w')
      | (Exc x, w') => Some (AtRelease (Exc x), w')
      end
  | AtGrace =>
      match sleep 2000 w with
      | (Ret _, w') => Some (AtShutdown, w')
      | (Exc x, w') => Some (AtRelease (Exc x), w')
      end
  | AtShutdown =>
      match shutdown_call w with
      | (Ret _, w') => Some (AtSetupOut, w')
      | (Exc x, w') => Some (AtRelease (Exc x), w')
      end
  | AtSetupOut =>
      match (sq <- get (fun w => sqwave (self w)) ;; GPIO_setup_out sq) w with
      | (r, w') => Some (AtRelease r, w')
      end
  | AtRelease r => Some (Finished r, set_locked false (emit Release w))
  | Finished _ => None
  end.

(** A thread run on its own for at most [fuel] steps. *)
Fixpoint thread_run (fuel : nat) (e : edge) (p : pc) (w : world) : pc * world :=
  match fuel with
  | O => (p, w)
  | S n => match thread_step e p w with
           | Some (p', w') => thread_run n e p' w'
           | None => (p, w)
           end
  end.

(** ** Statements that leave the pin alone *)

(** [m] changes neither the pulse pin, nor the mutex, nor [sqwave]. *)
Definition keeps_pin {A} (m : M A) : Prop :=
  forall w, pulse_pin (snd (m w)) = pulse_pin w /\
            locked (snd (m w)) = locked w /\
            sqwave (self (snd (m w))) = sqwave (self w).

(** ** Interleaved runs *)

(** One run of the handler: the edge that started it and where it stands. *)
Record thread : Type := mkThread { th_edge : edge; th_pc : pc }.

(** The runs of the handler, started or still to come, and the world they
    share with the polling loop. *)
Record system : Type := mkSystem { threads : list thread; shared : world }.

Fixpoint set_thread (i : nat) (th : thread) (l : list thread) : list thread :=
  match l, i with
  | [], _ => []
  | _ :: rest, O => th :: rest
  | x :: rest, S n => x :: set_thread n th rest
  end.

(** Who moves: the run number [i] of the handler, or the polling loop with
    one iteration. *)
Inductive actor : Type :=
| Handler (i : nat)
| Loop (t : tick).

Inductive sys_step : system -> actor -> system -> Prop :=
| step_handler (s : system) (i : nat) (th : thread) (p' : pc) (w' : world) :
    nth_error (threads s) i = Some th ->
    thread_step (th_edge th) (th_pc th) (shared s) = Some (p', w') ->
    sys_step s (Handler i)
      (mkSystem (set_thread i (mkThread (th_edge th) p') (threads s)) w')
| step_loop (s : system) (t : tick) :
    sys_step s (Loop t)
      (mkSystem (threads s) (snd (loop_body t (shared s)))).

(** All the states an interleaving can reach from [s0]. *)
Inductive reachable (s0 : system) : system -> Prop :=
| reach_start : reachable s0 s0
| reach_step (s s' : system) (a : actor) :
    reachable s0 s -> sys_step s a s' -> reachable s0 s'.

(** The state in which [main] enters its loop: the pin armed, the mutex
    free, and every run of the handler still before its [with]. *)
Definition initial (g : PiGuard) (edges : list edge) : system :=
  mkSystem (map (fun e => mkThread e AtAcquire) edges) (armed g).

(** The run is inside [with self.pulse_pin_mutex]. *)
Definition holds_mutex (p : pc) : bool :=
  match p with
  | AtAcquire | Finished _ => false
  | _ => true
  end.

(** The run has seen the shutdown request and the power-off is not yet
    behind it. *)
Definition shutdown_pending (p : pc) : bool :=
  match p with
  | AtWarn | AtRecord | AtGrace | AtShutdown => true
  | _ => false
  end.

Definition holders (l : list thread) : nat :=
  List.length (filter (fun th => holds_mutex (th_pc th)) l).

(** The mutex is held exactly when one run is inside the [with], and never
    by two. *)
Definition mutex_inv (s : system) : Prop :=
  holders (threads s) = if locked (shared s) then 1%nat else 0%nat.

(** The state after run [i] of the handler has taken its next step, if it
    can take one. *)
Definition advance (i : nat) (s : system) : system :=
  match nth_error (threads s) i with
  | Some th =>
      match thread_step (th_edge th) (th_pc th) (shared s) with
      | Some (p', w') =>
          mkSystem (set_thread i (mkThread (th_edge th) p') (threads s)) w'
      | None => s
      end
  | None => s
  end.

(** * The rest of [main] *)

(** ** Pushing the settings to the UPS *)

(** How the bus answers the two writes of one setting: the opcode, then the
    value. *)
Record push_io : Type := mkPushIO {
  opcode_r : result unit;
  value_r : result unit
}.

(** [set_shutdown_time].  [self.SHUTDOWN_DELAY] is the result of [max] and
    [min] over [int]s, so the [isinstance] test of the source never raises. *)
Definition set_shutdown_time (io : push_io) : M unit :=
  try_except
    (call (BusWrite SET_SHUTDOWN_TIME_CMD) (opcode_r io) ;;
     sleep 200 ;;
     value <- get (fun w => SHUTDOWN_DELAY (self w)) ;;
     call (BusWrite value) (value_r io))
    IOError
    (fun _ => log ERROR "Error de I/O al escribir el shutdown time: %s").

Definition set_watchdog_time (io : push_io) : M unit :=
  try_except
    (call (BusWrite WATCHDOG_RPI_CMD) (opcode_r io) ;;
     sleep 200 ;;
     value <- get (fun w => WATCHDOG_RPI (self w)) ;;
     call (BusWrite value) (value_r io))
    IOError
    (fun _ => log ERROR "Error de I/O al escribir el watchdog time: %s").

Definition set_post_shutdown (io : push_io) : M unit :=
  try_except
    (call (BusWrite POST_SHUTDOWN_CMD) (opcode_r io) ;;
     sleep 200 ;;
     value <- get (fun w => POST_SHUTDOWN (self w)) ;;
     call (BusWrite value) (value_r io))
    IOError
    (fun _ => log ERROR "Error de I/O al escribir el post shutdown time: %s").

(** ** Start-up *)

(** A call of the start-up whose only trace in this model is whether it
    returns or raises: opening the bus, [GPIO.setmode], the set-up of the
    clock pin and [GPIO.add_event_detect]. *)
Definition outside {A} (r : result A) : M A := fun w => (r, w).

(** What the outside presents to the start-up of [main]. *)
Record boot : Type := mkBoot {
  smbus_r : result unit;          (* smbus.SMBus(1) *)
  setmode_r : result unit;        (* GPIO.setmode(GPIO.BCM) *)
  setup_clock_r : result unit;    (* GPIO.setup(CLOCK_PIN, GPIO.IN, ...) *)
  setup_pulse_r : result unit;    (* GPIO.setup(PULSE_PIN, GPIO.OUT, initial=True) *)
  add_event_r : result unit;      (* GPIO.add_event_detect(CLOCK_PIN, ...) *)
  shutdown_io : push_io;          (* answers to set_shutdown_time *)
  watchdog_io : push_io;          (* answers to set_watchdog_time *)
  post_io : push_io;              (* answers to set_post_shutdown *)
  startup_stamp : string;         (* datetime.now() text of the start-up record *)
  startup_io : file_io            (* answers for UPS_History_POWER.dbg *)
}.

(** [try: self.bus = smbus.SMBus(1)  except Exception: log; return]: the
    value tells whether [main] goes on. *)
Definition open_bus (b : boot) : M bool :=
  try_except
    (outside (smbus_r b) ;; ret true)
    Exception
    (fun _ => log ERROR "Error al inicializar el bus I2C: %s" ;; ret false).

(** The [try] block that configures the pins; [sys.exit(1)] raises
    [SystemExit]. *)
Definition setup_pins (b : boot) : M unit :=
  try_except
    (outside (setmode_r b) ;;
     outside (setup_clock_r b) ;;
     (match setup_pulse_r b with
      | Ret _ => GPIO_setup_out true
      | Exc x => raise x
      end) ;;
     outside (add_event_r b))
    Exception
    (fun _ => log CRITICAL "Error al configurar los pines GPIO: {e}" ;;
              raise SystemExit).

(** [if self.I2C_SEND_ENABLED:] the three pushes and the start-up record. *)
Definition push_settings (b : boot) : M unit :=
  enabled <- get (fun w => I2C_SEND_ENABLED (self w)) ;;
  if enabled : bool then
    set_shutdown_time (shutdown_io b) ;;
    set_watchdog_time (watchdog_io b) ;;
    set_post_shutdown (post_io b) ;;
    g <- get self ;;
    with_open (startup_io b) UPS_History_POWER
      (write (startup_io b) UPS_History_POWER (startup_line (startup_stamp b) g))
  else ret tt.

(** [main], from the opening of the bus on (the parsing of the command line
    and the set-up of the logger come before). *)
Definition main (b : boot) (ticks : list tick) : M unit :=
  go_on <- open_bus b ;;
  if go_on : bool then
    setup_pins b ;;
    push_settings b ;;
    sleep 15000 ;;
    steady_loop ticks
  else ret tt.

(** The world in which [main] starts: [g] as [__init__] left it, the mutex
    free, nothing called.  The pulse pin has not been set up yet: the library
    refuses to read or to drive it in this state, and [main] does neither
    before [GPIO.setup(PULSE_PIN, GPIO.OUT, initial=True)], so that the
    record given for it here is never read by [main]. *)
Definition power_on (g : PiGuard) : world :=
  {| self := g; pulse_pin := mkPin IN false; locked := false;
     last_mode := None; trace := [] |}.

(** ** The handler when the shutdown command cannot be started *)

(** [isr] with the outcome of
    [subprocess.call(['/sbin/shutdown', '-h', 'now'])] left to the outside:
    the call returns the exit status of the command, or raises (an [OSError]
    when the command cannot be started).  The call stands outside any [try],
    so that what it raises leaves the [with] block.  [isr] is the case in
    which the call returns. *)
Definition isr_with_shutdown (shutdown_r : result unit) (channel : Z) (e : edge)
    : M unit :=
  if negb (channel =? CLOCK_PIN) then ret tt
  else
    with_mutex (
      v <- GPIO_input (line e) ;;
      modify (set_self (with_sqwave (negb v))) ;;
      GPIO_output false ;;
      GPIO_setup_in ;;
      sampled <- GPIO_input (line e) ;;
      (if negb sampled then
         log WARNING "Se solicita el apagado de la Raspberry Pi desde la UPS" ;;
         try_except
           (with_open (power_log e) UPS_History_POWER
              (write (power_log e) UPS_History_POWER
                 (shutdown_record (stamp e))))
           Exception
           (fun _ => log ERROR "Error al escribir en el archivo de registro: %s") ;;
         sleep 2000 ;;
         call Shutdown shutdown_r
       else ret tt) ;;
      sq <- get (fun w => sqwave (self w)) ;;
      GPIO_setup_out sq).

(** * More closed forms and observations *)

(** ** One push *)

(** What a push gives back for the answers of the bus: an I/O error is
    logged and the push returns; anything else raised goes on. *)
Definition push_outcome (io : push_io) : result unit :=
  match opcode_r io with
  | Exc x => if isinstance x IOError then Ret tt else Exc x
  | Ret _ => match value_r io with
             | Exc x => if isinstance x IOError then Ret tt else Exc x
             | Ret _ => Ret tt
             end
  end.

(** The calls of a push of [value] under opcode [cmd]. *)
Definition push_events (cmd value : Z) (msg : string) (io : push_io) : list event :=
  BusWrite cmd ::
  match opcode_r io with
  | Exc x => if isinstance x IOError then [Log ERROR msg] else []
  | Ret _ => Sleep 200 :: BusWrite value ::
             match value_r io with
             | Exc x => if isinstance x IOError then [Log ERROR msg] else []
             | Ret _ => []
             end
  end.

(** The bus raises nothing but I/O errors during a push. *)
Definition push_ok (io : push_io) : Prop :=
  raises_only IOError (opcode_r io) /\ raises_only IOError (value_r io).

(** ** What a statement keeps and which calls it makes *)

(** From a world that satisfies [I], the statement [m] ends in a world that
    satisfies [I], and every call it makes satisfies [P]. *)
Definition maintains (I : world -> Prop) (P : event -> bool) {A} (m : M A) : Prop :=
  forall w, I w ->
    I (snd (m w)) /\
    exists evs, trace (snd (m w)) = (trace w ++ evs)%list /\ forallb P evs = true.

(** The settings of [w] are those of [g]. *)
Definition same_settings (g : PiGuard) (w : world) : Prop :=
  SHUTDOWN_DELAY (self w) = SHUTDOWN_DELAY g /\
  WATCHDOG_RPI (self w) = WATCHDOG_RPI g /\
  LOOP_RUN_UPS (self w) = LOOP_RUN_UPS g /\
  POST_SHUTDOWN (self w) = POST_SHUTDOWN g /\
  FREC_HISTORY (self w) = FREC_HISTORY g /\
  I2C_SEND_ENABLED (self w) = I2C_SEND_ENABLED g.

(** What the handler leaves alone: the settings, the cursor of the history
    and the mode recorded by the loop. *)
Definition loop_state_of (w0 : world) (w : world) : Prop :=
  same_settings (self w0) w /\
  history_write (self w) = history_write (self w0) /\
  last_mode w = last_mode w0.

(** The calls [main] can make: logging, the two history files, the bus with
    bytes that fit in an unsigned byte, sleeping, the arming of the pulse pin
    at level high and the final clean-up. *)
Definition main_call (ev : event) : bool :=
  match ev with
  | Log _ _ | FileOpen _ | FileWrite _ _ | FileClose _ | BusRead | Sleep _
  | GpioCleanup => true
  | BusWrite b => (0 <=? b) && (b <=? 255)
  | GpioSetupOut v => v
  | Acquire | Release | GpioInput _ | GpioOutput _ | GpioSetupIn | Shutdown => false
  end.

(** The calls the handler can make: the mutex, the pulse pin, logging, the
    power-event log, sleeping and the shutdown command. *)
Definition isr_call (ev : event) : bool :=
  match ev with
  | Acquire | Release | GpioInput _ | GpioOutput _ | GpioSetupIn
  | GpioSetupOut _ | Log _ _ | Sleep _ | Shutdown => true
  | FileOpen f | FileWrite f _ | FileClose f =>
      match f with UPS_History_POWER => true | UPS_History => false end
  | BusWrite _ | BusRead | GpioCleanup => false
  end.

(** The calls the polling loop can make: logging, the two history files,
    the two read opcodes on the bus, sleeping and the final clean-up. *)
Definition loop_call (ev : event) : bool :=
  match ev with
  | Log _ _ | FileOpen _ | FileWrite _ _ | FileClose _ | BusRead | Sleep _
  | GpioCleanup => true
  | BusWrite b => (b =? READ_VOLTAGE_CMD) || (b =? READ_MODE_CMD)
  | _ => false
  end.

(** The calls of the iterations of the loop: those of [loop_call] without
    the clean-up, which is made once the loop has been left. *)
Definition tick_call (ev : event) : bool :=
  match ev with
  | GpioCleanup => false
  | _ => loop_call ev
  end.

(** ** The start-up in closed form *)

(** The calls of the three pushes in a world with the settings of [g]. *)
Definition pushes_events (b : boot) (g : PiGuard) : list event :=
  push_events SET_SHUTDOWN_TIME_CMD (SHUTDOWN_DELAY g)
    "Error de I/O al escribir el shutdown time: %s" (shutdown_io b)
  ++ push_events WATCHDOG_RPI_CMD (WATCHDOG_RPI g)
       "Error de I/O al escribir el watchdog time: %s" (watchdog_io b)
  ++ push_events POST_SHUTDOWN_CMD (POST_SHUTDOWN g)
       "Error de I/O al escribir el post shutdown time: %s" (post_io b).

(** How the block that configures the pins ends, before its [except]: the
    first of the four calls that raises decides. *)
Definition pins_outcome (b : boot) : result unit :=
  match setmode_r b with
  | Exc x => Exc x
  | Ret _ =>
      match setup_clock_r b with
      | Exc x => Exc x
      | Ret _ =>
          match setup_pulse_r b with
          | Exc x => Exc x
          | Ret _ => add_event_r b
          end
      end
  end.

(** The pulse pin was set up as an output before the block ended. *)
Definition pulse_set_up (b : boot) : bool :=
  match setmode_r b, setup_clock_r b, setup_pulse_r b with
  | Ret _, Ret _, Ret _ => true
  | _, _, _ => false
  end.

(** The world once the pulse pin is armed. *)
Definition arm (w : world) : world :=
  emit (GpioSetupOut true) (set_pulse_pin (mkPin OUT true) w).

(** The calls of the start-up between the arming of the pin and the wait of
    fifteen seconds. *)
Definition startup_events (b : boot) (g : PiGuard) : list event :=
  if I2C_SEND_ENABLED g then
    pushes_events b g
    ++ append_events (startup_io b) UPS_History_POWER
         (startup_line (startup_stamp b) g)
  else [].

(** The start-up meets no failure that ends it: the bus opens, the pins are
    configured and, when the serial push is enabled, the bus raises nothing
    but I/O errors and the start-up record is appended. *)
Definition startup_ok (b : boot) (g : PiGuard) : Prop :=
  smbus_r b = Ret tt /\
  pins_outcome b = Ret tt /\
  (I2C_SEND_ENABLED g = true ->
   push_ok (shutdown_io b) /\ push_ok (watchdog_io b) /\ push_ok (post_io b) /\
   append_outcome (startup_io b) = Ret tt).

(** * Reading the configuration file *)

(** A Python [str] whose characters have a code below 256, as the list of
    its characters. *)
Definition pystr : Type := list ascii.

Definition txt (s : string) : pystr := list_ascii_of_string s.

(** [c.isspace()] for a character below 256: tab, line feed, vertical tab,
    form feed, carriage return, the four separators 0x1c to 0x1f, space, the
    next-line control 0x85 and the no-break space 0xa0. *)
Definition is_space (c : ascii) : bool :=
  let n := nat_of_ascii c in
  ((9 <=? n) && (n <=? 13) || (28 <=? n) && (n <=? 32)
   || (n =? 133) || (n =? 160))%nat.

(** [s.lstrip()], [s.rstrip()] and [s.strip()]. *)
Fixpoint lstrip (s : pystr) : pystr :=
  match s with
  | [] => []
  | c :: rest => if is_space c then lstrip rest else s
  end.

Definition rstrip (s : pystr) : pystr := rev (lstrip (rev s)).

Definition strip (s : pystr) : pystr := rstrip (lstrip s).

(** [s.startswith(prefix)]. *)
Fixpoint startswith (prefix s : pystr) : bool :=
  match prefix, s with
  | [], _ => true
  | _ :: _, [] => false
  | a :: prefix', b :: s' => Ascii.eqb a b && startswith prefix' s'
  end.

(** [s.split(sep)] for a separator of one character: never empty, one piece
    more than there are separators. *)
Fixpoint py_split (sep : ascii) (s : pystr) : list pystr :=
  match s with
  | [] => [[]]
  | c :: rest =>
      if Ascii.eqb c sep then [] :: py_split sep rest
      else match py_split sep rest with
           | piece :: pieces => (c :: piece) :: pieces
           | [] => [[c]]
           end
  end.

(** [s.lower()] on characters below 256: the letters A to Z, and the
    capital letters 0xc0 to 0xde (all but the multiplication sign 0xd7), have
    their small letter 32 places further. *)
Definition lower_char (c : ascii) : ascii :=
  let n := nat_of_ascii c in
  if ((65 <=? n) && (n <=? 90)
      || (192 <=? n) && (n <=? 222) && negb (n =? 215))%nat
  then ascii_of_nat (n + 32) else c.

Definition lower (s : pystr) : pystr := map lower_char s.

Fixpoint pystr_eqb (a b : pystr) : bool :=
  match a, b with
  | [], [] => true
  | x :: a', y :: b' => Ascii.eqb x y && pystr_eqb a' b'
  | _, _ => false
  end.

(** [self.config_vars]: the assignments made so far, the latest first; a
    lookup finds the latest assignment to the key, as in a [dict]. *)
Definition dict : Type := list (pystr * pystr).

Fixpoint dict_get (k : pystr) (d : dict) : option pystr :=
  match d with
  | [] => None
  | (k', v) :: rest => if pystr_eqb k k' then Some v else dict_get k rest
  end.

(** [d.get(k, default)]. *)
Definition dict_get_default (k default : pystr) (d : dict) : pystr :=
  match dict_get k d with
  | Some v => v
  | None => default
  end.

Definition EQUALS : ascii := "="%char.
Definition HASH : pystr := txt "#".

(** What the two loops of [load_config] make of one line of the file. *)
Inductive line_kind : Type :=
| Skipped                          (* a comment or a blank line *)
| Assign (key value : pystr)       (* key, value = line.strip().split("=") *)
| Malformed.                       (* the unpacking raises ValueError *)

Definition classify (line : pystr) : line_kind :=
  if startswith HASH line || match strip line with [] => true | _ => false end
  then Skipped
  else match py_split EQUALS (strip line) with
       | [key; value] => Assign (strip key) (strip value)
       | _ => Malformed
       end.

(** The first loop: [None] when a line makes the unpacking raise
    [ValueError]. *)
Fixpoint parse_config (lines : list pystr) (vars : dict) : option dict :=
  match lines with
  | [] => Some vars
  | line :: rest =>
      match classify line with
      | Skipped => parse_config rest vars
      | Assign key value => parse_config rest ((key, value) :: vars)
      | Malformed => None
      end
  end.

(** The second loop: the line written back for each line read. *)
Definition rewrite_line (vars : dict) (line : pystr) : option pystr :=
  match classify line with
  | Skipped => Some line
  | Assign key value =>
      Some (key ++ txt " = " ++ dict_get_default key value vars ++ txt NL)%list
  | Malformed => None
  end.

Fixpoint rewrite_config (vars : dict) (lines : list pystr) : option (list pystr) :=
  match lines with
  | [] => Some []
  | line :: rest =>
      match rewrite_line vars line, rewrite_config vars rest with
      | Some line', Some rest' => Some (line' :: rest')
      | _, _ => None
      end
  end.

(** [self.config_vars.get("I2C_SEND_ENABLED", "True").lower() == "true"]. *)
Definition load_I2C_SEND_ENABLED (vars : dict) : bool :=
  pystr_eqb (lower (dict_get_default (txt "I2C_SEND_ENABLED") (txt "True") vars))
            (txt "true").

(** How the numeric part of [load_config] can fail. *)
Inductive load_error : Type :=
| MissingKey (key : pystr)        (* KeyError: self.config_vars[key] *)
| BadNumber (key : pystr).        (* ValueError from int() or float() *)

Section LoadValues.

(** The built-ins [int] and [float] on a text: [None] when they raise
    [ValueError]. *)
Variable py_int : pystr -> option Z.
Variable py_float : pystr -> option pyfloat.

Definition read_int (vars : dict) (key : pystr) : load_error + Z :=
  match dict_get key vars with
  | None => inl (MissingKey key)
  | Some text => match py_int text with
                 | None => inl (BadNumber key)
                 | Some z => inr z
                 end
  end.

Definition read_float (vars : dict) (key : pystr) : load_error + pyfloat :=
  match dict_get key vars with
  | None => inl (MissingKey key)
  | Some text => match py_float text with
                 | None => inl (BadNumber key)
                 | Some f => inr f
                 end
  end.

(** Lines 133 to 140: the five readings in the order of the source, then
    the flag. *)
Definition read_values (vars : dict) : load_error + raw_config :=
  match read_int vars (txt "SHUTDOWN_DELAY") with
  | inl e => inl e
  | inr sd =>
  match read_int vars (txt "WATCHDOG_RPI") with
  | inl e => inl e
  | inr wd =>
  match read_int vars (txt "LOOP_RUN_UPS") with
  | inl e => inl e
  | inr lr =>
  match read_int vars (txt "POST_SHUTDOWN") with
  | inl e => inl e
  | inr ps =>
  match read_float vars (txt "FREC_HISTORY") with
  | inl e => inl e
  | inr fh => inr (mkRaw sd wd lr ps fh (load_I2C_SEND_ENABLED vars))
  end end end end end.

End LoadValues.

(** ** Observations on lines *)

(** The number of ["="] in a text. *)
Definition count_equals (s : pystr) : nat := count_occ ascii_dec s EQUALS.

(** The assignments of a file, in the order of its lines. *)
Fixpoint assignments (lines : list pystr) : list (pystr * pystr) :=
  match lines with
  | [] => []
  | line :: rest =>
      match classify line with
      | Assign key value => (key, value) :: assignments rest
      | _ => assignments rest
      end
  end.

(** No line of the file makes the unpacking raise. *)
Definition well_formed (lines : list pystr) : Prop :=
  Forall (fun line => classify line <> Malformed) lines.

(** A text as [strip] leaves it, and without ["="]. *)
Definition clean (s : pystr) : Prop :=
  lstrip s = s /\ rstrip s = s /\ ~ In EQUALS s.

(** The line written back for an assignment:
    [f"{key.strip()} = {new_value}\n"]. *)
Definition written (key value : pystr) : pystr :=
  (key ++ txt " = " ++ value ++ txt NL)%list.

(** The file as the second loop writes it, when no line is refused. *)
Definition rewritten (vars : dict) (lines : list pystr) : list pystr :=
  map (fun line =>
         match classify line with
         | Assign key value => written key (dict_get_default key value vars)
         | _ => line
         end) lines.

(** ** The default configuration file *)

(** The lines of the file that [load_config] creates when none exists, each
    with its line feed. *)
Definition default_config_lines : list pystr :=
  map (fun s => txt (s ++ NL)%string)
    ["# Configuration for the Pi Guard script";
     "# Shutdown delay time before power-off (from 1-180 in minutes, from 181 to 235 in hours, e.g., 181=4hrs, 182=5hrs ... 235=58hrs)";
     "SHUTDOWN_DELAY = 60";
     "";
     "# WATCHDOG. The Raspberry Pi has frozen (in minutes) before power-off warning (3-10) It cannot be set to less than 3 minutes because, if the UPS is connected, it will cause rapid reboots, making it impossible to fix any installation issues remotely.";
     "WATCHDOG_RPI = 5";
     "";
     "# Waiting time (in seconds) within the main loop (1-20) Be careful not to overload the system.";
     "LOOP_RUN_UPS = 5";
     "";
     "# Time after shutdown signal (in seconds) for RPi to finish its processes before disconnecting power (10-254)";
     "POST_SHUTDOWN = 30";
     "";
     "# Data read frequency for writing the log, in seconds (20-3600)";
     "FREC_HISTORY = 60";
     "";
     "# Enable/disable sending I2C commands (True/False). Only disable if you want to take control of the UPS using I2C commands from another program.";
     "I2C_SEND_ENABLED = True";
     ""].

(** The five keys that [load_config] reads with [int] or [float]. *)
Definition numeric_keys : list pystr :=
  [txt "SHUTDOWN_DELAY"; txt "WATCHDOG_RPI"; txt "LOOP_RUN_UPS";
   txt "POST_SHUTDOWN"; txt "FREC_HISTORY"].

(** ** The path of the configuration file *)

(** How the search of [path_config.txt] for the path can fail. *)
Inductive path_error : Type :=
| NoSecondPiece      (* IndexError: line.split("=")[1] *)
| NoPathLine.        (* AttributeError: self.config_file was never set *)

Definition DEFAULT_CONFIG_FILE : pystr := txt "DEFAULT_CONFIG_FILE".

(** Lines 87 to 94: the loop over the lines of [path_config.txt] with its
    [break], and the first use of [self.config_file] after it. *)
Fixpoint find_config_file (lines : list pystr) : path_error + pystr :=
  match lines with
  | [] => inl NoPathLine
  | line :: rest =>
      if startswith DEFAULT_CONFIG_FILE line then
        match py_split EQUALS line with
        | _ :: second :: _ => inr (strip second)
        | _ => inl NoSecondPiece
        end
      else find_config_file rest
  end.

(** * Properties *)

(** ** Clamping of the configuration *)

Section Clamp.

Lemma int_clamp_spec (lo hi x : Z) :
  lo <= hi ->
  let y := int_max lo (int_min x hi) in
  lo <= y <= hi /\
  (lo <= x <= hi -> y = x) /\
  (x < lo -> y = lo) /\
  (hi < x -> y = hi).
Proof.
  intros Hlh y. subst y. unfold int_max, int_min.
  destruct (hi <? x) eqn:E1;
    [apply Z.ltb_lt in E1 | apply Z.ltb_ge in E1].
  - destruct (lo <? hi) eqn:E2;
      [apply Z.ltb_lt in E2 | apply Z.ltb_ge in E2]; lia.
  - destruct (lo <? x) eqn:E2;
      [apply Z.ltb_lt in E2 | apply Z.ltb_ge in E2]; lia.
Qed.

Lemma Qlt_bool_true (p q : Q) : Qlt_bool p q = true <-> (p < q)%Q.
Proof.
  unfold Qlt_bool. rewrite negb_true_iff. split.
  - intros H. apply Qnot_le_lt. intros Hle.
    apply Qle_bool_iff in Hle. congruence.
  - intros H. destruct (Qle_bool q p) eqn:E; [|reflexivity].
    apply Qle_bool_iff in E. lra.
Qed.

Lemma Qlt_bool_false (p q : Q) : Qlt_bool p q = false <-> (q <= p)%Q.
Proof.
  unfold Qlt_bool. rewrite negb_false_iff. apply Qle_bool_iff.
Qed.

(** The frequency loaded from a finite reading. *)
Lemma load_FREC_HISTORY_Fin (q : Q) :
  load_FREC_HISTORY (Fin q) =
    if Qlt_bool 3600 q then PyInt 3600
    else if Qlt_bool 20 q then PyFloat (Fin q)
    else PyInt 20.
Proof.
  unfold load_FREC_HISTORY, py_max, py_min, num_gt, num_lt. cbn.
  change (inject_Z MAX_FREC_HISTORY) with 3600%Q.
  change (inject_Z MIN_FREC_HISTORY) with 20%Q.
  destruct (Qlt_bool 3600 q); [reflexivity|]. cbn.
  change (inject_Z MIN_FREC_HISTORY) with 20%Q.
  destruct (Qlt_bool 20 q); reflexivity.
Qed.

(** Whatever [float(...)] produced, the loaded frequency is a finite
    number between the two bounds. *)
Lemma load_FREC_HISTORY_bounds (x : pyfloat) :
  num_le (PyInt MIN_FREC_HISTORY) (load_FREC_HISTORY x) = true /\
  num_le (load_FREC_HISTORY x) (PyInt MAX_FREC_HISTORY) = true.
Proof.
  destruct x as [q| | |]; try (split; reflexivity).
  rewrite load_FREC_HISTORY_Fin.
  destruct (Qlt_bool 3600 q) eqn:E1; [split; reflexivity|].
  destruct (Qlt_bool 20 q) eqn:E2; [|split; reflexivity].
  apply Qlt_bool_false in E1. apply Qlt_bool_true in E2.
  split; cbn; apply Qle_bool_iff.
  - change (inject_Z MIN_FREC_HISTORY) with 20%Q. lra.
  - change (inject_Z MAX_FREC_HISTORY) with 3600%Q. lra.
Qed.

Lemma load_FREC_HISTORY_in_range (q : Q) :
  (20 <= q <= 3600)%Q ->
  num_eqb (load_FREC_HISTORY (Fin q)) (PyFloat (Fin q)) = true.
Proof.
  intros [Hlo Hhi]. rewrite load_FREC_HISTORY_Fin.
  destruct (Qlt_bool 3600 q) eqn:E1.
  { apply Qlt_bool_true in E1. lra. }
  destruct (Qlt_bool 20 q) eqn:E2.
  - unfold num_eqb. cbn. rewrite andb_diag. apply Qle_bool_iff. lra.
  - apply Qlt_bool_false in E2. unfold num_eqb. cbn.
    change (inject_Z 20) with 20%Q.
    apply andb_true_intro; split; apply Qle_bool_iff; lra.
Qed.

Lemma load_FREC_HISTORY_out_of_range (x : pyfloat) :
  (float_lt x (Fin 20) = true -> load_FREC_HISTORY x = PyInt 20) /\
  (float_lt (Fin 3600) x = true -> load_FREC_HISTORY x = PyInt 3600).
Proof.
  destruct x as [q| | |]; cbn; split; intros H;
    try discriminate; try reflexivity.
  - rewrite load_FREC_HISTORY_Fin. apply Qlt_bool_true in H.
    destruct (Qlt_bool 3600 q) eqn:E1.
    { apply Qlt_bool_true in E1. lra. }
    destruct (Qlt_bool 20 q) eqn:E2; [|reflexivity].
    apply Qlt_bool_true in E2. lra.
  - rewrite load_FREC_HISTORY_Fin. rewrite H. reflexivity.
Qed.

End Clamp.

(** C6.  For every parsed configuration, the five loaded settings lie in
    [1,235], [3,10], [1,20], [10,254] and [20,3600]; a reading that already
    lies in its range is loaded as it is; a reading below (above) its range
    is loaded as the lower (upper) bound.  [load_config] is a total function:
    no reading is rejected. *)
Theorem load_config_clamps (t0 : Q) (rc : raw_config) :
  let g := load_config t0 rc in
  (1 <= SHUTDOWN_DELAY g <= 235 /\
   3 <= WATCHDOG_RPI g <= 10 /\
   1 <= LOOP_RUN_UPS g <= 20 /\
   10 <= POST_SHUTDOWN g <= 254 /\
   num_le (PyInt 20) (FREC_HISTORY g) = true /\
   num_le (FREC_HISTORY g) (PyInt 3600) = true) /\
  ((1 <= raw_SHUTDOWN_DELAY rc <= 235 -> SHUTDOWN_DELAY g = raw_SHUTDOWN_DELAY rc) /\
   (3 <= raw_WATCHDOG_RPI rc <= 10 -> WATCHDOG_RPI g = raw_WATCHDOG_RPI rc) /\
   (1 <= raw_LOOP_RUN_UPS rc <= 20 -> LOOP_RUN_UPS g = raw_LOOP_RUN_UPS rc) /\
   (10 <= raw_POST_SHUTDOWN rc <= 254 -> POST_SHUTDOWN g = raw_POST_SHUTDOWN rc) /\
   (forall q, raw_FREC_HISTORY rc = Fin q -> (20 <= q <= 3600)%Q ->
              num_eqb (FREC_HISTORY g) (PyFloat (Fin q)) = true)) /\
  ((raw_SHUTDOWN_DELAY rc < 1 -> SHUTDOWN_DELAY g = 1) /\
   (235 < raw_SHUTDOWN_DELAY rc -> SHUTDOWN_DELAY g = 235) /\
   (raw_WATCHDOG_RPI rc < 3 -> WATCHDOG_RPI g = 3) /\
   (10 < raw_WATCHDOG_RPI rc -> WATCHDOG_RPI g = 10) /\
   (raw_LOOP_RUN_UPS rc < 1 -> LOOP_RUN_UPS g = 1) /\
   (20 < raw_LOOP_RUN_UPS rc -> LOOP_RUN_UPS g = 20) /\
   (raw_POST_SHUTDOWN rc < 10 -> POST_SHUTDOWN g = 10) /\
   (254 < raw_POST_SHUTDOWN rc -> POST_SHUTDOWN g = 254) /\
   (float_lt (raw_FREC_HISTORY rc) (Fin 20) = true -> FREC_HISTORY g = PyInt 20) /\
   (float_lt (Fin 3600) (raw_FREC_HISTORY rc) = true -> FREC_HISTORY g = PyInt 3600)).
Proof.
  destruct rc as [sd wd lr ps fh en]. cbn.
  assert (Hsd := int_clamp_spec MIN_SHUTDOWN_DELAY MAX_SHUTDOWN_DELAY sd).
  assert (Hwd := int_clamp_spec MIN_WATCHDOG_RPI MAX_WATCHDOG_RPI wd).
  assert (Hlr := int_clamp_spec MIN_LOOP_RUN_UPS MAX_LOOP_RUN_UPS lr).
  assert (Hps := int_clamp_spec MIN_POST_SHUTDOWN MAX_POST_SHUTDOWN ps).
  unfold MIN_SHUTDOWN_DELAY, MAX_SHUTDOWN_DELAY, MIN_WATCHDOG_RPI,
    MAX_WATCHDOG_RPI, MIN_LOOP_RUN_UPS, MAX_LOOP_RUN_UPS, MIN_POST_SHUTDOWN,
    MAX_POST_SHUTDOWN in *.
  destruct Hsd as (Hsd1 & Hsd2 & Hsd3 & Hsd4); [lia|].
  destruct Hwd as (Hwd1 & Hwd2 & Hwd3 & Hwd4); [lia|].
  destruct Hlr as (Hlr1 & Hlr2 & Hlr3 & Hlr4); [lia|].
  destruct Hps as (Hps1 & Hps2 & Hps3 & Hps4); [lia|].
  destruct (load_FREC_HISTORY_bounds fh) as [Hf1 Hf2].
  destruct (load_FREC_HISTORY_out_of_range fh) as [Hf3 Hf4].
  repeat split; try assumption; try (apply Hsd1 || apply Hwd1 || apply Hlr1 || apply Hps1).
  intros q -> Hq. apply load_FREC_HISTORY_in_range. exact Hq.
Qed.

Lemma load_config_clamps_witness :
  let rc := mkRaw 500 0 5 30 (Fin 60) true in
  let g := load_config 1000 rc in
  SHUTDOWN_DELAY g = 235 /\ WATCHDOG_RPI g = 3 /\
  LOOP_RUN_UPS g = raw_LOOP_RUN_UPS rc /\
  POST_SHUTDOWN g = raw_POST_SHUTDOWN rc /\
  num_eqb (FREC_HISTORY g) (PyFloat (Fin 60)) = true.
Proof.
  intros rc g.
  destruct (load_config_clamps 1000 rc)
    as (_ & (_ & _ & Hlr & Hps & Hfh) & (_ & Hsd & Hwd & _)).
  split; [apply Hsd; cbn; lia|].
  split; [apply Hwd; cbn; lia|].
  split; [apply Hlr; cbn; lia|].
  split; [apply Hps; cbn; lia|].
  apply Hfh; [reflexivity|]. split; discriminate.
Defined.

(** ** The start-up record *)



(** ** Running statements *)

(** Unfolding of the statement combinators and of the record accessors,
    leaving texts, numbers and list concatenation alone. *)
Ltac run_py :=
  cbv beta iota zeta delta
    [with_mutex with_open write try_except try_finally bind ret raise get
     modify call log sleep shutdown_call GPIO_input GPIO_output GPIO_setup_in
     GPIO_setup_out emits emit set_self set_pulse_pin set_locked set_last_mode
     self pulse_pin locked last_mode trace dir latch
     with_sqwave with_history_write
     SHUTDOWN_DELAY WATCHDOG_RPI LOOP_RUN_UPS POST_SHUTDOWN FREC_HISTORY
     I2C_SEND_ENABLED history_write sqwave
     line stamp power_log open_r write_r close_r write_byte_r read_byte_r
     negb].

Ltac norm_trace := rewrite <- ?app_assoc; cbn [app].

Lemma with_open_write_run (io : file_io) (f : logfile) (text : string) (w : world) :
  with_open io f (write io f text) w =
    (append_outcome io, emits (append_events io f text) w).
Proof.
  destruct io as [[[]|xo] [[]|xw] [[]|xc]]; unfold append_outcome, append_events;
    run_py; norm_trace; reflexivity.
Qed.

(** ** The handler on one accepted edge *)

Lemma isr_run (e : edge) (w : world) :
  dir (pulse_pin w) = OUT ->
  raises_only Exception (append_outcome (power_log e)) ->
  isr CLOCK_PIN e w = (Ret tt, after_isr e w).
Proof.
  destruct w as [g [d l] lk lm tr]. cbn [dir pulse_pin]. intros ->.
  destruct e as [ln st io]. unfold isr, after_isr, isr_events.
  rewrite Z.eqb_refl. cbn [negb power_log line stamp].
  destruct ln.
  - intros _. run_py. norm_trace. reflexivity.
  - destruct io as [[[]|xo] [[]|xw] [[]|xc]];
      unfold append_outcome, append_events, raises_only;
      cbn [open_r write_r close_r]; intros Hexc;
      run_py; rewrite ?Hexc; run_py; norm_trace; reflexivity.
Qed.

(** An edge on another channel is ignored. *)
Lemma isr_other_channel (channel : Z) (e : edge) (w : world) :
  channel <> CLOCK_PIN -> isr channel e w = (Ret tt, w).
Proof.
  intros H. unfold isr. apply Z.eqb_neq in H. rewrite H. reflexivity.
Qed.

Lemma armed_driving (t0 : Q) (rc : raw_config) : driving (armed (load_config t0 rc)).
Proof. split; reflexivity. Qed.

Lemma after_isr_driving (e : edge) (w : world) : driving (after_isr e w).
Proof. split; reflexivity. Qed.

(** C3.  On an accepted edge (the handler is called for the clock pin, the
    pulse pin being an output, and the file system raising nothing but
    instances of [Exception]), the handler first reads the pin, still an
    output, and stores the negation of the level it drives in [sqwave]; only
    then is the pin driven low and turned into an input; the last call before
    the mutex is released sets the pin up as an output at the new level.  When
    the pin drove the stored level, [sqwave] is therefore negated exactly
    once, and the pin drives the stored level again afterwards. *)
Theorem isr_toggles_pulse_level (e : edge) (w : world) :
  dir (pulse_pin w) = OUT ->
  raises_only Exception (append_outcome (power_log e)) ->
  let l := latch (pulse_pin w) in
  let w' := snd (isr CLOCK_PIN e w) in
  fst (isr CLOCK_PIN e w) = Ret tt /\
  sqwave (self w') = negb l /\
  pulse_pin w' = mkPin OUT (negb l) /\
  (exists middle,
      trace w' =
        (trace w ++ [Acquire; GpioInput l; GpioOutput false; GpioSetupIn]
                 ++ middle ++ [GpioSetupOut (negb l); Release])%list) /\
  (l = sqwave (self w) -> sqwave (self w') = negb (sqwave (self w))) /\
  driving w'.
Proof.
  intros Hdir Hexc l w'. subst w'. rewrite (isr_run e w Hdir Hexc).
  cbn [fst snd]. split; [reflexivity|]. split; [reflexivity|].
  split; [reflexivity|]. split; [|split].
  - unfold after_isr, isr_events. cbn [trace]. fold l.
    eexists (_ :: _). cbn [app]. reflexivity.
  - intros <-. reflexivity.
  - apply after_isr_driving.
Qed.

Lemma isr_toggles_pulse_level_witness :
  let w := armed (load_config 0 (mkRaw 60 5 5 30 (Fin 60) true)) in
  let e := mkEdge true "04-11-2026 10:00:00.000"
             (mkFileIO (Ret tt) (Ret tt) (Ret tt)) in
  sqwave (self w) = true /\
  sqwave (self (snd (isr CLOCK_PIN e w))) = false /\
  pulse_pin (snd (isr CLOCK_PIN e w)) = mkPin OUT false.
Proof.
  intros w e.
  destruct (isr_toggles_pulse_level e w eq_refl I) as (_ & Hsq & Hpin & _).
  split; [reflexivity|]. split; [exact Hsq | exact Hpin].
Defined.

(** ** The handler over a series of edges *)

Lemma isr_all_run (edges : list edge) (w : world) :
  dir (pulse_pin w) = OUT ->
  Forall edge_ok edges ->
  isr_all edges w = (Ret tt, fold_left (fun w e => after_isr e w) edges w).
Proof.
  revert w. induction edges as [|e rest IH]; intros w Hdir Hok.
  - reflexivity.
  - inversion Hok as [|? ? He Hrest]; subst.
    cbn [isr_all fold_left]. unfold bind. rewrite (isr_run e w Hdir He).
    apply IH; [reflexivity | exact Hrest].
Qed.

(** After [n] accepted edges the stored level has been negated [n] times. *)
Lemma isr_all_toggles (edges : list edge) (w : world) :
  driving w ->
  Forall edge_ok edges ->
  sqwave (self (snd (isr_all edges w))) =
    Nat.iter (List.length edges) negb (sqwave (self w)).
Proof.
  intros [Hdir Hlatch] Hok. rewrite (isr_all_run edges w Hdir Hok). cbn [snd].
  clear Hok. revert w Hdir Hlatch.
  induction edges as [|e rest IH]; intros w Hdir Hlatch; [reflexivity|].
  cbn [fold_left List.length]. rewrite IH; try reflexivity.
  rewrite Nat.iter_succ_r. unfold after_isr at 1.
  cbn [self sqwave with_sqwave]. rewrite Hlatch. reflexivity.
Qed.

(** ** Shutdown calls over a process lifetime *)

Lemma shutdown_calls_app (a b : list event) :
  shutdown_calls (a ++ b) = (shutdown_calls a + shutdown_calls b)%nat.
Proof. unfold shutdown_calls. rewrite filter_app, length_app. reflexivity. Qed.

Lemma shutdown_calls_isr_events (l : bool) (e : edge) :
  shutdown_calls (isr_events l e) = if line e then 0%nat else 1%nat.
Proof.
  destruct e as [ln st [[[]|xo] [[]|xw] [[]|xc]]]; destruct ln; reflexivity.
Qed.

Lemma shutdown_calls_fold (edges : list edge) (w : world) :
  shutdown_calls (trace (fold_left (fun w e => after_isr e w) edges w)) =
    (shutdown_calls (trace w) + List.length (sampled_low edges))%nat.
Proof.
  revert w. induction edges as [|e rest IH]; intros w.
  - cbn. lia.
  - cbn [fold_left]. rewrite IH. cbn [after_isr trace].
    rewrite shutdown_calls_app, shutdown_calls_isr_events.
    unfold sampled_low. cbn [filter]. destruct (line e); cbn [negb List.length]; lia.
Qed.

(** On [two_low_edges] the shutdown command is called twice, so the claim
    that it is called exactly once per process lifetime does not hold. *)
Lemma shutdown_twice_on_two_low_edges :
  shutdown_calls
    (trace (snd (isr_all two_low_edges
                   (armed (load_config 0 (mkRaw 60 5 5 30 (Fin 60) true))))))
  = 2%nat /\
  ~ shutdown_exactly_once.
Proof.
  assert (H2 : shutdown_calls
                 (trace (snd (isr_all two_low_edges
                   (armed (load_config 0 (mkRaw 60 5 5 30 (Fin 60) true))))))
               = 2%nat) by (vm_compute; reflexivity).
  split; [exact H2|].
  intros Honce.
  specialize (Honce (load_config 0 (mkRaw 60 5 5 30 (Fin 60) true)) two_low_edges).
  rewrite H2 in Honce.
  assert (Hne : 2%nat = 1%nat -> False) by discriminate.
  apply Hne, Honce.
  - repeat constructor.
  - constructor. reflexivity.
Qed.

(** C1 (amended).  The handler has no once-only latch: every accepted edge
    whose sample is logical-low calls the shutdown command exactly once in
    that run, and an edge whose sample is high calls it not at all.  Over a
    series of accepted edges (the pin being an output at the start, and the
    file system raising nothing but instances of [Exception]) the number of
    shutdown calls is the number of edges that sampled low; it is at least
    one as soon as one edge samples low. *)
Theorem shutdown_once_per_low_edge (edges : list edge) (w : world) :
  dir (pulse_pin w) = OUT ->
  Forall edge_ok edges ->
  let w' := snd (isr_all edges w) in
  fst (isr_all edges w) = Ret tt /\
  shutdown_calls (trace w') =
    (shutdown_calls (trace w) + List.length (sampled_low edges))%nat /\
  (Exists (fun e => line e = false) edges ->
   (shutdown_calls (trace w) < shutdown_calls (trace w'))%nat).
Proof.
  intros Hdir Hok w'. subst w'. rewrite (isr_all_run edges w Hdir Hok).
  cbn [fst snd]. split; [reflexivity|]. rewrite shutdown_calls_fold.
  split; [reflexivity|].
  intros Hex. apply Exists_exists in Hex. destruct Hex as (e & Hin & Hlow).
  assert (Hin' : In e (sampled_low edges)).
  { unfold sampled_low. apply filter_In. split; [exact Hin|].
    rewrite Hlow. reflexivity. }
  destruct (sampled_low edges); [contradiction | cbn [List.length]; lia].
Qed.

Lemma shutdown_once_per_low_edge_witness :
  let w := armed (load_config 0 (mkRaw 60 5 5 30 (Fin 60) true)) in
  let low := mkEdge false "04-11-2026 10:00:00.000"
               (mkFileIO (Ret tt) (Ret tt) (Ret tt)) in
  let high := mkEdge true "04-11-2026 10:00:01.000"
                (mkFileIO (Ret tt) (Ret tt) (Ret tt)) in
  shutdown_calls (trace (snd (isr_all [high; low; high] w))) = 1%nat /\
  (shutdown_calls (trace w)
   < shutdown_calls (trace (snd (isr_all [high; low; high] w))))%nat /\
  shutdown_calls (trace (snd (isr_all [high; high] w))) = 0%nat.
Proof.
  intros w low high.
  split; [|split].
  - destruct (shutdown_once_per_low_edge [high; low; high] w eq_refl)
      as (_ & Hn & _).
    + repeat constructor.
    + exact Hn.
  - destruct (shutdown_once_per_low_edge [high; low; high] w eq_refl)
      as (_ & _ & Hpos).
    + repeat constructor.
    + apply Hpos. apply Exists_cons_tl, Exists_cons_hd. reflexivity.
  - destruct (shutdown_once_per_low_edge [high; high] w eq_refl)
      as (_ & Hn & _).
    + repeat constructor.
    + exact Hn.
Defined.

(** ** The shutdown branch when the event record cannot be written *)

(** C7.  When the sample is logical-low and appending the shutdown record
    fails with an error (an instance of [Exception], raised by [open], by
    [write] or on closing the file), the error is logged and goes no further:
    the handler returns normally, and after the error message it still waits
    two seconds, calls the shutdown command, sets the pin up as an output
    again and releases the mutex, in this order. *)
Theorem shutdown_survives_record_failure (e : edge) (w : world) (x : exn) :
  dir (pulse_pin w) = OUT ->
  line e = false ->
  append_outcome (power_log e) = Exc x ->
  isinstance x Exception = true ->
  let l := latch (pulse_pin w) in
  let w' := snd (isr CLOCK_PIN e w) in
  fst (isr CLOCK_PIN e w) = Ret tt /\
  trace w' =
    (trace w
       ++ [Acquire; GpioInput l; GpioOutput false; GpioSetupIn; GpioInput false;
           Log WARNING "Se solicita el apagado de la Raspberry Pi desde la UPS"]
       ++ append_events (power_log e) UPS_History_POWER (shutdown_record (stamp e))
       ++ [Log ERROR "Error al escribir en el archivo de registro: %s";
           Sleep 2000; Shutdown; GpioSetupOut (negb l); Release])%list /\
  pulse_pin w' = mkPin OUT (negb l) /\
  locked w' = false.
Proof.
  intros Hdir Hlow Hout Hexc l w'. subst w'.
  assert (Hok : raises_only Exception (append_outcome (power_log e))).
  { rewrite Hout. exact Hexc. }
  rewrite (isr_run e w Hdir Hok). cbn [fst snd].
  split; [reflexivity|]. split; [|split; reflexivity].
  unfold after_isr, isr_events. cbn [trace]. rewrite Hlow, Hout. fold l.
  cbn [app]. rewrite <- !app_assoc. reflexivity.
Qed.

Lemma shutdown_survives_record_failure_witness :
  let w := armed (load_config 0 (mkRaw 60 5 5 30 (Fin 60) true)) in
  let e := mkEdge false "04-11-2026 10:00:00.000"
             (mkFileIO (Ret tt) (Ret tt) (Exc OSError)) in
  fst (isr CLOCK_PIN e w) = Ret tt /\
  trace (snd (isr CLOCK_PIN e w)) =
    [Acquire; GpioInput true; GpioOutput false; GpioSetupIn; GpioInput false;
     Log WARNING "Se solicita el apagado de la Raspberry Pi desde la UPS";
     FileOpen UPS_History_POWER;
     FileWrite UPS_History_POWER (shutdown_record "04-11-2026 10:00:00.000");
     FileClose UPS_History_POWER;
     Log ERROR "Error al escribir en el archivo de registro: %s";
     Sleep 2000; Shutdown; GpioSetupOut false; Release].
Proof.
  intros w e.
  destruct (shutdown_survives_record_failure e w OSError eq_refl eq_refl eq_refl eq_refl)
    as (Hret & Htrace & _).
  split; [exact Hret | exact Htrace].
Defined.

(** ** One exchange on the bus *)

Lemma read_voltage_run (io : bus_io) (w : world) :
  read_voltage io w =
    (read_outcome io,
     emits (read_events READ_VOLTAGE_CMD "Error de I/O al leer el voltaje: %s" io) w).
Proof.
  unfold read_voltage, read_outcome, read_events.
  destruct io as [[[]|xw] [v|xr]]; run_py;
    try destruct (isinstance xw IOError); try destruct (isinstance xr IOError);
    run_py; norm_trace; reflexivity.
Qed.

Lemma read_ups_mode_run (io : bus_io) (w : world) :
  read_ups_mode io w =
    (read_outcome io,
     emits (read_events READ_MODE_CMD "Error de I/O al leer el modo: %s" io) w).
Proof.
  unfold read_ups_mode, read_outcome, read_events.
  destruct io as [[[]|xw] [v|xr]]; run_py;
    try destruct (isinstance xw IOError); try destruct (isinstance xr IOError);
    run_py; norm_trace; reflexivity.
Qed.

Lemma bus_fails_read_outcome (io : bus_io) :
  bus_fails io = true -> read_outcome io = Ret None.
Proof.
  unfold bus_fails, read_outcome.
  destruct (write_byte_r io) as [[]|xw].
  - destruct (read_byte_r io) as [v|xr]; [discriminate|]. intros ->. reflexivity.
  - intros ->. reflexivity.
Qed.

(** ** One iteration of the polling loop *)

Ltac step_py :=
  cbv beta iota zeta delta
    [bind ret get modify emits emit set_self set_last_mode
     self pulse_pin locked last_mode trace].

(** An iteration that records nothing: a value is missing, or the history is
    not due yet. *)
Lemma loop_body_skip (t : tick) (w : world) (vo mo : option Z) :
  I2C_SEND_ENABLED (self w) = true ->
  read_outcome (voltage_bus t) = Ret vo ->
  read_outcome (mode_bus t) = Ret mo ->
  vo = None \/ mo = None \/ history_due (now t) (self w) = false ->
  loop_body t w = (sleep_r t, emits (tick_reads t ++ [tick_sleep w]) w).
Proof.
  destruct w as [g p lk lm tr]. cbn [self]. intros Hen Hv Hm Hskip.
  unfold loop_body, tick_reads, tick_sleep.
  step_py. rewrite Hen, read_voltage_run, Hv.
  step_py. rewrite read_ups_mode_run, Hm.
  step_py.
  destruct vo as [v|]; [destruct mo as [m|]|].
  - destruct Hskip as [H|[H|H]]; try discriminate. rewrite H.
    unfold call. step_py. norm_trace. reflexivity.
  - unfold call. step_py. norm_trace. reflexivity.
  - destruct mo; unfold call; step_py; norm_trace; reflexivity.
Qed.

Lemma loop_body_due (t : tick) (w : world) (v m : Z) :
  I2C_SEND_ENABLED (self w) = true ->
  read_outcome (voltage_bus t) = Ret (Some v) ->
  read_outcome (mode_bus t) = Ret (Some m) ->
  history_due (now t) (self w) = true ->
  raises_only Exception (append_outcome (power_io t)) ->
  loop_body t w =
    (match append_outcome (history_io t) with
     | Ret _ => sleep_r t
     | Exc x => Exc x
     end,
     after_due_tick t v m w).
Proof.
  destruct w as [g p lk lm tr]. cbn [self]. intros Hen Hv Hm Hdue Hexc.
  unfold loop_body, after_due_tick, power_events, tick_reads, tick_sleep.
  step_py. rewrite Hen, read_voltage_run, Hv.
  step_py. rewrite read_ups_mode_run, Hm.
  step_py. rewrite Hdue.
  destruct (mode_changed lm m);
    destruct (power_io t) as [[[]|xo] [[]|xw] [[]|xc]];
    destruct (history_io t) as [[[]|yo] [[]|yw] [[]|yc]];
    unfold append_outcome, append_events, write_returned, raises_only in *;
    cbn [open_r write_r close_r andb] in *;
    run_py; rewrite ?Hexc; run_py; norm_trace; reflexivity.
Qed.

Lemma bus_ok_read_outcome (io : bus_io) :
  bus_ok io -> exists vo, read_outcome io = Ret vo.
Proof.
  unfold bus_ok, read_outcome, raises_only. intros [Hw Hr].
  destruct (write_byte_r io) as [[]|xw].
  - destruct (read_byte_r io) as [v|xr].
    + eexists; reflexivity.
    + rewrite Hr. eexists; reflexivity.
  - rewrite Hw. eexists; reflexivity.
Qed.

Lemma read_events_no_file (cmd : Z) (msg : string) (io : bus_io) :
  forallb (fun ev => negb (is_file_event ev)) (read_events cmd msg io) = true.
Proof.
  unfold read_events.
  destruct (write_byte_r io) as [[]|xw]; [destruct (read_byte_r io) as [v|xr]|];
    try destruct (isinstance xw IOError); try destruct (isinstance xr IOError);
    reflexivity.
Qed.

Lemma tick_reads_no_file (t : tick) :
  forallb (fun ev => negb (is_file_event ev)) (tick_reads t) = true.
Proof.
  unfold tick_reads. rewrite forallb_app, !read_events_no_file. reflexivity.
Qed.

(** ** A bus failure skips the recording of that tick *)

(** The calls of a failed exchange: the opcode, then either nothing more (the
    write failed) or the pause and the read (the read failed), then the
    message. *)
Lemma bus_fails_read_events (cmd : Z) (msg : string) (io : bus_io) :
  bus_fails io = true ->
  exists calls,
    read_events cmd msg io = BusWrite cmd :: (calls ++ [Log ERROR msg])%list /\
    (calls = [] \/ calls = [Sleep 200; BusRead]).
Proof.
  unfold bus_fails, read_events.
  destruct (write_byte_r io) as [[]|xw].
  - destruct (read_byte_r io) as [v|xr]; [discriminate|]. intros ->.
    exists [Sleep 200; BusRead]. split; [reflexivity | right; reflexivity].
  - intros ->. exists []. split; [reflexivity | left; reflexivity].
Qed.

Lemma read_events_opcode (cmd : Z) (msg : string) (io : bus_io) :
  In (BusWrite cmd) (read_events cmd msg io).
Proof. left. reflexivity. Qed.

Lemma bus_fails_logged (cmd : Z) (msg : string) (io : bus_io) :
  bus_fails io = true -> In (Log ERROR msg) (read_events cmd msg io).
Proof.
  intros Hf. destruct (bus_fails_read_events cmd msg io Hf) as (calls & -> & _).
  right. apply in_or_app. right. left. reflexivity.
Qed.

(** C5.  When an exchange with the bus fails with an I/O error, the failing
    read ([read_voltage] or [read_ups_mode]) has written its opcode to the
    bus, catches the error, logs its message as the last thing it does and
    returns [None]; it changes nothing else and nothing is raised to the
    loop.  The iteration makes both reads, logs the failure, touches no
    history file, leaves the cursor and [last_mode] as they were, goes to
    its sleep, and the loop goes on with the next iteration. *)
Theorem bus_failure_skips_tick (t : tick) (rest : list tick) (w : world) :
  I2C_SEND_ENABLED (self w) = true ->
  bus_ok (voltage_bus t) ->
  bus_ok (mode_bus t) ->
  bus_fails (voltage_bus t) = true \/ bus_fails (mode_bus t) = true ->
  let w' := snd (loop_body t w) in
  (bus_fails (voltage_bus t) = true ->
   forall w0, exists calls,
     read_voltage (voltage_bus t) w0 =
       (Ret None,
        emits (BusWrite READ_VOLTAGE_CMD
                 :: calls ++ [Log ERROR "Error de I/O al leer el voltaje: %s"]) w0) /\
     (calls = [] \/ calls = [Sleep 200; BusRead])) /\
  (bus_fails (mode_bus t) = true ->
   forall w0, exists calls,
     read_ups_mode (mode_bus t) w0 =
       (Ret None,
        emits (BusWrite READ_MODE_CMD
                 :: calls ++ [Log ERROR "Error de I/O al leer el modo: %s"]) w0) /\
     (calls = [] \/ calls = [Sleep 200; BusRead])) /\
  fst (loop_body t w) = sleep_r t /\
  self w' = self w /\
  last_mode w' = last_mode w /\
  (exists evs, trace w' = (trace w ++ evs ++ [tick_sleep w])%list /\
               forallb (fun ev => negb (is_file_event ev)) evs = true /\
               In (BusWrite READ_VOLTAGE_CMD) evs /\
               In (BusWrite READ_MODE_CMD) evs /\
               (bus_fails (voltage_bus t) = true ->
                In (Log ERROR "Error de I/O al leer el voltaje: %s") evs) /\
               (bus_fails (mode_bus t) = true ->
                In (Log ERROR "Error de I/O al leer el modo: %s") evs)) /\
  (sleep_r t = Ret tt -> while_true (t :: rest) w = while_true rest w').
Proof.
  intros Hen Hbv Hbm Hfail w'.
  split.
  { intros Hf w0.
    destruct (bus_fails_read_events READ_VOLTAGE_CMD
                "Error de I/O al leer el voltaje: %s" _ Hf) as (calls & Hev & Hc).
    exists calls. split; [|exact Hc].
    rewrite read_voltage_run, (bus_fails_read_outcome _ Hf), Hev. reflexivity. }
  split.
  { intros Hf w0.
    destruct (bus_fails_read_events READ_MODE_CMD
                "Error de I/O al leer el modo: %s" _ Hf) as (calls & Hev & Hc).
    exists calls. split; [|exact Hc].
    rewrite read_ups_mode_run, (bus_fails_read_outcome _ Hf), Hev. reflexivity. }
  destruct (bus_ok_read_outcome _ Hbv) as [vo Hv].
  destruct (bus_ok_read_outcome _ Hbm) as [mo Hm].
  assert (Hnone : vo = None \/ mo = None \/ history_due (now t) (self w) = false).
  { destruct Hfail as [Hf|Hf]; apply bus_fails_read_outcome in Hf.
    - left. congruence.
    - right; left. congruence. }
  assert (Hrun := loop_body_skip t w vo mo Hen Hv Hm Hnone).
  subst w'. cbn [while_true]. unfold bind. rewrite Hrun. cbn [fst snd].
  split; [reflexivity|]. split; [reflexivity|]. split; [reflexivity|].
  split.
  - exists (tick_reads t). split; [reflexivity|].
    split; [apply tick_reads_no_file|]. unfold tick_reads.
    split; [apply in_or_app; left; apply read_events_opcode|].
    split; [apply in_or_app; right; apply read_events_opcode|].
    split; intros Hf; apply in_or_app;
      [left | right]; apply bus_fails_logged, Hf.
  - intros ->. reflexivity.
Qed.

Lemma bus_failure_skips_tick_witness :
  let w := armed (load_config 0 (mkRaw 60 5 5 30 (Fin 60) true)) in
  let ok := mkFileIO (Ret tt) (Ret tt) (Ret tt) in
  let t := mkTick (mkBusIO (Ret tt) (Exc OSError)) (mkBusIO (Exc OSError) (Ret 1))
             100 "04-11-2026 10:00:00.000" ok "04-11-2026 10:00:00.001" ok
             (Ret tt) in
  fst (read_voltage (voltage_bus t) w) = Ret None /\
  fst (read_ups_mode (mode_bus t) w) = Ret None /\
  trace (snd (read_voltage (voltage_bus t) w)) =
    [BusWrite 1; Sleep 200; BusRead; Log ERROR "Error de I/O al leer el voltaje: %s"] /\
  trace (snd (read_ups_mode (mode_bus t) w)) =
    [BusWrite 2; Log ERROR "Error de I/O al leer el modo: %s"] /\
  fst (loop_body t w) = Ret tt /\
  last_mode (snd (loop_body t w)) = None /\
  while_true [t; t] w = while_true [t] (snd (loop_body t w)).
Proof.
  intros w ok t.
  assert (Hbv : bus_ok (voltage_bus t)) by (split; [exact I | reflexivity]).
  assert (Hbm : bus_ok (mode_bus t)) by (split; [reflexivity | exact I]).
  destruct (bus_failure_skips_tick t [t] w eq_refl Hbv Hbm (or_introl eq_refl))
    as (Hv & Hm & Hret & _ & Hlast & _ & Hnext).
  destruct (Hv eq_refl w) as (cv & Hrv & _).
  destruct (Hm eq_refl w) as (cm & Hrm & _).
  split; [rewrite Hrv; reflexivity|].
  split; [rewrite Hrm; reflexivity|].
  split; [reflexivity|].
  split; [reflexivity|].
  split; [exact Hret|].
  split; [exact Hlast|].
  apply Hnext. reflexivity.
Defined.

(** ** The history is written behind two gates *)


Lemma no_file_event_In (evs : list event) (ev : event) :
  forallb (fun ev => negb (is_file_event ev)) evs = true ->
  In ev evs -> is_file_event ev = false.
Proof.
  intros H Hin. rewrite forallb_forall in H. apply negb_true_iff, H, Hin.
Qed.



Lemma new_events_emits (evs : list event) (w : world) (g : PiGuard) (lm : option Z) :
  new_events w {| self := g; pulse_pin := pulse_pin w; locked := locked w;
                  last_mode := lm; trace := trace w ++ evs |} = evs.
Proof.
  unfold new_events. cbn [trace]. rewrite skipn_app, skipn_all, Nat.sub_diag.
  reflexivity.
Qed.





(** ** A failed append to the periodic-sample log *)

Lemma Exception_not_KeyboardInterrupt (x : exn) :
  isinstance x Exception = true -> isinstance x KeyboardInterrupt = false.
Proof. destruct x; intros H; try reflexivity; discriminate H. Qed.

(** C2 (what the code does).  The append to UPS_History.dbg is not inside
    any [try]: when it fails with an error, the error leaves the iteration,
    the [while True] loop and, not being a [KeyboardInterrupt], the function
    [main] itself; only the [finally] clause runs, and the iterations that
    would have followed never run. *)
Theorem sample_log_failure_ends_loop
    (t : tick) (rest : list tick) (w : world) (v m : Z) (x : exn) :
  I2C_SEND_ENABLED (self w) = true ->
  read_outcome (voltage_bus t) = Ret (Some v) ->
  read_outcome (mode_bus t) = Ret (Some m) ->
  history_due (now t) (self w) = true ->
  raises_only Exception (append_outcome (power_io t)) ->
  append_outcome (history_io t) = Exc x ->
  isinstance x Exception = true ->
  fst (loop_body t w) = Exc x /\
  while_true (t :: rest) w = (Exc x, after_due_tick t v m w) /\
  steady_loop (t :: rest) w =
    (Exc x,
     emits [Log INFO "Limpiando los pines GPIO..."; GpioCleanup]
       (after_due_tick t v m (set_last_mode None w))).
Proof.
  intros Hen Hv Hm Hdue Hexc Hout Hx.
  assert (Hrun := loop_body_due t w v m Hen Hv Hm Hdue Hexc).
  rewrite Hout in Hrun.
  split; [rewrite Hrun; reflexivity|].
  split.
  - cbn [while_true]. unfold bind. rewrite Hrun. reflexivity.
  - unfold steady_loop. cbn [while_true]. unfold bind at 1 2, modify.
    assert (Hrun' := loop_body_due t (set_last_mode None w) v m Hen Hv Hm Hdue Hexc).
    rewrite Hout in Hrun'. rewrite Hrun'.
    unfold try_finally, try_except, raise.
    rewrite (Exception_not_KeyboardInterrupt x Hx).
    run_py. norm_trace. reflexivity.
Qed.

Lemma sample_log_failure_ends_loop_witness :
  let w := armed (load_config 0 (mkRaw 60 5 5 30 (Fin 60) true)) in
  let ok := mkFileIO (Ret tt) (Ret tt) (Ret tt) in
  let full := mkFileIO (Ret tt) (Ret tt) (Exc OSError) in
  let good := mkTick (mkBusIO (Ret tt) (Ret 200)) (mkBusIO (Ret tt) (Ret 1))
                100 "04-11-2026 10:01:40.000" ok "04-11-2026 10:01:40.001" ok
                (Ret tt) in
  let bad := mkTick (mkBusIO (Ret tt) (Ret 200)) (mkBusIO (Ret tt) (Ret 1))
               0 "04-11-2026 10:00:00.000" ok "04-11-2026 10:00:00.001" full
               (Ret tt) in
  fst (steady_loop [bad; good] w) = Exc OSError /\
  trace (snd (steady_loop [bad; good] w)) =
    [BusWrite 1; Sleep 200; BusRead; BusWrite 2; Sleep 200; BusRead;
     FileOpen UPS_History_POWER;
     FileWrite UPS_History_POWER (sample_line "04-11-2026 10:00:00.000" 200 1);
     FileClose UPS_History_POWER;
     FileOpen UPS_History;
     FileWrite UPS_History (sample_line "04-11-2026 10:00:00.001" 200 1);
     FileClose UPS_History;
     Log INFO "Limpiando los pines GPIO..."; GpioCleanup].
Proof.
  intros w ok full good bad.
  destruct (sample_log_failure_ends_loop bad [good] w 200 1 OSError
              eq_refl eq_refl eq_refl eq_refl I eq_refl eq_refl)
    as (_ & _ & Hloop).
  rewrite Hloop. split; reflexivity.
Defined.

(** ** A failed append to the power-event log *)

(** On [close_fails_tick] the append ends with an error and [last_mode]
    has nevertheless been set to the mode read. *)
Lemma last_mode_set_when_close_fails :
  let w := armed (load_config 0 (mkRaw 60 5 5 30 (Fin 60) true)) in
  append_outcome (power_io close_fails_tick) = Exc OSError /\
  last_mode w = None /\
  last_mode (snd (loop_body close_fails_tick w)) = Some 1 /\
  ~ event_failure_keeps_last_mode.
Proof.
  intros w.
  assert (Hset : last_mode (snd (loop_body close_fails_tick w)) = Some 1)
    by (vm_compute; reflexivity).
  split; [reflexivity|]. split; [reflexivity|]. split; [exact Hset|].
  intros Hkeep.
  specialize (Hkeep close_fails_tick w 200 1 OSError
                eq_refl eq_refl eq_refl eq_refl eq_refl eq_refl eq_refl).
  rewrite Hset in Hkeep. discriminate Hkeep.
Qed.

(** C10 (amended).  The assignment [last_mode = mode] stands after
    [fb.write] inside the [with] block.  When [open] or [write] raises, it
    is not reached: [last_mode] keeps its value, so at the next iteration
    that is due and reads the same mode the change is seen again and the
    power-event log is opened again.  When the error comes only on closing
    the file, [last_mode] already holds the new mode. *)
Theorem event_failure_before_assignment
    (t : tick) (w : world) (v m : Z) (x : exn) :
  I2C_SEND_ENABLED (self w) = true ->
  read_outcome (voltage_bus t) = Ret (Some v) ->
  read_outcome (mode_bus t) = Ret (Some m) ->
  history_due (now t) (self w) = true ->
  mode_changed (last_mode w) m = true ->
  append_outcome (power_io t) = Exc x ->
  isinstance x Exception = true ->
  let w' := snd (loop_body t w) in
  (write_returned (power_io t) = false ->
   last_mode w' = last_mode w /\
   forall (t2 : tick) (w2 : world) (v2 : Z),
     I2C_SEND_ENABLED (self w2) = true ->
     read_outcome (voltage_bus t2) = Ret (Some v2) ->
     read_outcome (mode_bus t2) = Ret (Some m) ->
     history_due (now t2) (self w2) = true ->
     raises_only Exception (append_outcome (power_io t2)) ->
     last_mode w2 = last_mode w' ->
     In (FileOpen UPS_History_POWER) (new_events w2 (snd (loop_body t2 w2)))) /\
  (write_returned (power_io t) = true -> last_mode w' = Some m).
Proof.
  intros Hen Hv Hm Hdue Hch Hout Hx w'. subst w'.
  assert (Hexc : raises_only Exception (append_outcome (power_io t))).
  { rewrite Hout. exact Hx. }
  rewrite (loop_body_due t w v m Hen Hv Hm Hdue Hexc). cbn [snd].
  assert (Hlm : last_mode (after_due_tick t v m w) =
                if write_returned (power_io t) then Some m else last_mode w).
  { unfold after_due_tick. cbn [last_mode]. rewrite Hch. reflexivity. }
  rewrite Hlm. split.
  - intros Hwr. rewrite Hwr. split; [reflexivity|].
    intros t2 w2 v2 Hen2 Hv2 Hm2 Hdue2 Hexc2 Hlast.
    rewrite (loop_body_due t2 w2 v2 m Hen2 Hv2 Hm2 Hdue2 Hexc2). cbn [snd].
    unfold after_due_tick. rewrite new_events_emits.
    apply in_or_app. right. apply in_or_app. left.
    unfold power_events. rewrite Hlast, Hch.
    unfold append_events. left. reflexivity.
  - intros Hwr. rewrite Hwr. reflexivity.
Qed.

Lemma event_failure_before_assignment_witness :
  let w := armed (load_config 0 (mkRaw 60 5 5 30 (Fin 60) true)) in
  let ok := mkFileIO (Ret tt) (Ret tt) (Ret tt) in
  let denied := mkFileIO (Exc OSError) (Ret tt) (Ret tt) in
  let t := mkTick (mkBusIO (Ret tt) (Ret 200)) (mkBusIO (Ret tt) (Ret 1))
             0 "04-11-2026 10:00:00.000" denied "04-11-2026 10:00:00.001" ok
             (Ret tt) in
  let t2 := mkTick (mkBusIO (Ret tt) (Ret 201)) (mkBusIO (Ret tt) (Ret 1))
              60 "04-11-2026 10:01:00.000" ok "04-11-2026 10:01:00.001" ok
              (Ret tt) in
  last_mode (snd (loop_body t w)) = None /\
  In (FileOpen UPS_History_POWER)
     (new_events (snd (loop_body t w)) (snd (loop_body t2 (snd (loop_body t w))))) /\
  last_mode (snd (loop_body close_fails_tick w)) = Some 1.
Proof.
  intros w ok denied t t2.
  destruct (event_failure_before_assignment t w 200 1 OSError
              eq_refl eq_refl eq_refl eq_refl eq_refl eq_refl eq_refl)
    as [Hbefore _].
  destruct (Hbefore eq_refl) as [Hlast Hagain].
  destruct (event_failure_before_assignment close_fails_tick w 200 1 OSError
              eq_refl eq_refl eq_refl eq_refl eq_refl eq_refl eq_refl)
    as [_ Hafter].
  split; [exact Hlast|]. split.
  - apply (Hagain t2 (snd (loop_body t w)) 201);
      try reflexivity; exact I.
  - apply Hafter. reflexivity.
Defined.

(** ** The handler as a thread *)

(** Run alone from a world where the mutex is free, the thread does what
    [isr] does, in at most eleven steps. *)
Lemma thread_run_isr (e : edge) (w : world) :
  locked w = false ->
  thread_run 11 e AtAcquire w =
    (Finished (fst (isr CLOCK_PIN e w)), snd (isr CLOCK_PIN e w)).
Proof.
  destruct w as [g [d l] lk lm tr]. cbn [locked]. intros ->.
  destruct e as [ln st io]. unfold isr. rewrite Z.eqb_refl. cbn [negb].
  destruct d, ln;
    destruct io as [[[]|xo] [[]|xw] [[]|xc]];
    try destruct (isinstance xo Exception) eqn:Eo;
    try destruct (isinstance xw Exception) eqn:Ew;
    try destruct (isinstance xc Exception) eqn:Ec;
    repeat (cbn [thread_run thread_step fst snd]; run_py;
            rewrite ?Eo, ?Ew, ?Ec);
    reflexivity.
Qed.

(** ** Statements that leave the pin alone *)

Section KeepsPin.

Context {A B : Type}.

Lemma keeps_ret (a : A) : keeps_pin (ret a).
Proof. intros w. repeat split. Qed.

Lemma keeps_get (f : world -> A) : keeps_pin (get f).
Proof. intros w. repeat split. Qed.

Lemma keeps_call (ev : event) (r : result A) : keeps_pin (call ev r).
Proof. intros w. repeat split. Qed.

Lemma keeps_bind (m : M A) (k : A -> M B) :
  keeps_pin m -> (forall a, keeps_pin (k a)) -> keeps_pin (bind m k).
Proof.
  intros Hm Hk w. unfold bind. specialize (Hm w).
  destruct (m w) as [[a|x] w1]; cbn [snd] in *; [|exact Hm].
  destruct (Hk a w1) as (H1 & H2 & H3). destruct Hm as (G1 & G2 & G3).
  repeat split; congruence.
Qed.

Lemma keeps_try_except (body : M A) (K : exn) (handler : exn -> M A) :
  keeps_pin body -> (forall x, keeps_pin (handler x)) ->
  keeps_pin (try_except body K handler).
Proof.
  intros Hb Hh w. unfold try_except. specialize (Hb w).
  destruct (body w) as [[a|x] w1]; cbn [snd] in *; [exact Hb|].
  destruct (isinstance x K); [|exact Hb].
  destruct (Hh x w1) as (H1 & H2 & H3). destruct Hb as (G1 & G2 & G3).
  repeat split; congruence.
Qed.

Lemma keeps_try_finally (body : M A) (final : M unit) :
  keeps_pin body -> keeps_pin final -> keeps_pin (try_finally body final).
Proof.
  intros Hb Hf w. unfold try_finally. specialize (Hb w).
  destruct (body w) as [r w1]. cbn [snd] in *.
  destruct (Hf w1) as (H1 & H2 & H3). destruct Hb as (G1 & G2 & G3).
  destruct (final w1) as [[u|x] w2]; cbn [snd] in *; repeat split; congruence.
Qed.

End KeepsPin.

Lemma keeps_with_open {A} (io : file_io) (f : logfile) (body : M A) :
  keeps_pin body -> keeps_pin (with_open io f body).
Proof.
  intros Hb. unfold with_open. apply keeps_bind; [apply keeps_call|].
  intros _. apply keeps_try_finally; [exact Hb | apply keeps_call].
Qed.

Lemma keeps_set_last_mode (m : option Z) : keeps_pin (modify (set_last_mode m)).
Proof. intros w. repeat split. Qed.

Lemma keeps_set_history_write (q : Q) :
  keeps_pin (modify (set_self (with_history_write q))).
Proof. intros w. repeat split. Qed.

Lemma keeps_read_voltage (io : bus_io) : keeps_pin (read_voltage io).
Proof.
  intros w. rewrite read_voltage_run. repeat split.
Qed.

Lemma keeps_read_ups_mode (io : bus_io) : keeps_pin (read_ups_mode io).
Proof.
  intros w. rewrite read_ups_mode_run. repeat split.
Qed.

(** An iteration of the polling loop never touches the pulse pin, the mutex
    or [sqwave], whatever the outside answers. *)
Lemma keeps_loop_body (t : tick) : keeps_pin (loop_body t).
Proof.
  unfold loop_body.
  apply keeps_bind; [apply keeps_get|]. intros enabled.
  apply keeps_bind.
  - destruct enabled; [|apply keeps_ret].
    apply keeps_bind; [apply keeps_read_voltage|]. intros vo.
    apply keeps_bind; [apply keeps_read_ups_mode|]. intros mo.
    destruct vo as [v|]; [|apply keeps_ret].
    destruct mo as [m|]; [|apply keeps_ret].
    apply keeps_bind; [apply keeps_get|]. intros due.
    destruct due; [|apply keeps_ret].
    apply keeps_bind; [apply keeps_set_history_write|]. intros _.
    apply keeps_bind; [apply keeps_get|]. intros last.
    apply keeps_bind.
    + destruct (mode_changed last m); [|apply keeps_ret].
      apply keeps_try_except.
      * apply keeps_with_open. apply keeps_bind; [apply keeps_call|].
        intros _. apply keeps_set_last_mode.
      * intros x. apply keeps_call.
    + intros _. apply keeps_with_open. apply keeps_call.
  - intros _. apply keeps_bind; [apply keeps_get|]. intros secs. apply keeps_call.
Qed.

(** ** Interleaved runs *)

Lemma holders_set_thread (l : list thread) (i : nat) (th th' : thread) :
  nth_error l i = Some th ->
  (holders (set_thread i th' l) + (if holds_mutex (th_pc th) then 1 else 0)
   = holders l + (if holds_mutex (th_pc th') then 1 else 0))%nat.
Proof.
  revert i. induction l as [|x rest IH]; intros i H.
  - destruct i; discriminate H.
  - destruct i as [|n].
    + cbn in H. inversion H; subst x. unfold holders. cbn [set_thread filter].
      destruct (holds_mutex (th_pc th)), (holds_mutex (th_pc th'));
        cbn [List.length]; lia.
    + cbn in H. specialize (IH n H). unfold holders in *.
      cbn [set_thread filter].
      destruct (holds_mutex (th_pc x)); cbn [List.length]; lia.
Qed.

Lemma holders_unique (l : list thread) (i j : nat) (a b : thread) :
  holders l = 1%nat ->
  nth_error l i = Some a -> holds_mutex (th_pc a) = true ->
  nth_error l j = Some b -> holds_mutex (th_pc b) = true ->
  i = j.
Proof.
  revert i j. induction l as [|x rest IH]; intros i j H1 Hi Ha Hj Hb.
  - destruct i; discriminate Hi.
  - unfold holders in *. cbn [filter] in H1.
    assert (Hpos : forall k c, nth_error rest k = Some c ->
                     holds_mutex (th_pc c) = true ->
                     (0 < List.length
                            (filter (fun th => holds_mutex (th_pc th)) rest))%nat).
    { intros k c Hk Hc. apply nth_error_In in Hk.
      assert (Hin : In c (filter (fun th => holds_mutex (th_pc th)) rest))
        by (apply filter_In; split; assumption).
      destruct (filter _ rest); [contradiction | cbn; lia]. }
    destruct i as [|i], j as [|j]; cbn in Hi, Hj.
    + reflexivity.
    + inversion Hi; subst x. rewrite Ha in H1. cbn in H1.
      specialize (Hpos j b Hj Hb). lia.
    + inversion Hj; subst x. rewrite Hb in H1. cbn in H1.
      specialize (Hpos i a Hi Ha). lia.
    + f_equal. destruct (holds_mutex (th_pc x)).
      * cbn in H1. specialize (Hpos i a Hi Ha). lia.
      * apply IH; assumption.
Qed.

(** What one step of a run does to the mutex. *)
Lemma thread_step_mutex (e : edge) (p p' : pc) (w w' : world) :
  thread_step e p w = Some (p', w') ->
  match p with
  | AtAcquire => locked w = false /\ locked w' = true /\ holds_mutex p' = true
  | AtRelease _ => locked w' = false /\ holds_mutex p' = false
  | Finished _ => False
  | _ => locked w' = locked w /\ holds_mutex p' = true
  end.
Proof.
  assert (Hrec : keeps_pin
               (try_except
                  (with_open (power_log e) UPS_History_POWER
                     (write (power_log e) UPS_History_POWER
                        (shutdown_record (stamp e))))
                  Exception
                  (fun _ => log ERROR "Error al escribir en el archivo de registro: %s"))).
  { apply keeps_try_except; [apply keeps_with_open, keeps_call|].
    intros x. apply keeps_call. }
  destruct p; cbn [thread_step]; intros H.
  - destruct (locked w) eqn:E; [discriminate|]. inversion H; subst.
    repeat split.
  - destruct w as [g [d l] lk lm tr]. revert H. run_py.
    intros H. inversion H; subst. split; reflexivity.
  - destruct w as [g [[|] l] lk lm tr]; revert H; run_py;
      intros H; inversion H; subst; split; reflexivity.
  - inversion H; subst. split; reflexivity.
  - destruct w as [g [[|] [|]] lk lm tr], e as [[|] st io]; revert H; run_py;
      intros H; inversion H; subst; split; reflexivity.
  - inversion H; subst. split; reflexivity.
  - specialize (Hrec w). destruct Hrec as (_ & Hk & _).
    destruct (try_except _ _ _ w) as [[u|x] w1]; cbn [snd] in Hk;
      inversion H; subst; split; (exact Hk || reflexivity).
  - inversion H; subst. split; reflexivity.
  - inversion H; subst. split; reflexivity.
  - inversion H; subst. split; reflexivity.
  - inversion H; subst. split; reflexivity.
  - discriminate H.
Qed.

Lemma mutex_inv_initial (g : PiGuard) (edges : list edge) :
  mutex_inv (initial g edges).
Proof.
  unfold mutex_inv, initial, holders. cbn [threads shared armed locked].
  induction edges as [|e rest IH]; [reflexivity | exact IH].
Qed.

Lemma mutex_inv_step (s s' : system) (a : actor) :
  mutex_inv s -> sys_step s a s' -> mutex_inv s'.
Proof.
  unfold mutex_inv. intros Hinv Hstep.
  destruct Hstep as [s i th p' w' Hnth Hth | s t].
  - cbn [threads shared].
    assert (Hcount := holders_set_thread (threads s) i th
                        (mkThread (th_edge th) p') Hnth).
    cbn [th_pc] in Hcount.
    assert (Hmx := thread_step_mutex _ _ _ _ _ Hth).
    destruct (th_pc th) eqn:Epc; cbn [holds_mutex] in Hcount;
      try (destruct Hmx as [Hl Hh]; rewrite Hh in Hcount; rewrite Hl; lia).
    + destruct Hmx as (Hl & Hl' & Hh). rewrite Hh in Hcount.
      rewrite Hl in Hinv. rewrite Hl'. lia.
    + destruct Hmx as [Hl Hh]. rewrite Hh in Hcount. rewrite Hl.
      destruct (locked (shared s)); lia.
    + contradiction.
  - cbn [threads shared].
    destruct (keeps_loop_body t (shared s)) as (_ & Hl & _). rewrite Hl.
    exact Hinv.
Qed.

Lemma reachable_mutex_inv (g : PiGuard) (edges : list edge) (s : system) :
  reachable (initial g edges) s -> mutex_inv s.
Proof.
  induction 1 as [|s s' a Hreach IH Hstep].
  - apply mutex_inv_initial.
  - exact (mutex_inv_step s s' a IH Hstep).
Qed.

Lemma shutdown_pending_holds_mutex (p : pc) :
  shutdown_pending p = true -> holds_mutex p = true.
Proof. destruct p; intros H; try reflexivity; discriminate H. Qed.

(** Every step of the thread adds calls to the trace and takes none back. *)
Lemma thread_step_extends (e : edge) (p p' : pc) (w w' : world) :
  thread_step e p w = Some (p', w') ->
  exists evs, trace w' = (trace w ++ evs)%list.
Proof.
  destruct p; cbn [thread_step]; intros H.
  - destruct (locked w); [discriminate|]. inversion H; subst.
    exists [Acquire]. reflexivity.
  - destruct w as [g [d l] lk lm tr]. revert H. run_py.
    intros H. inversion H; subst. eexists. reflexivity.
  - destruct w as [g [[|] l] lk lm tr]; revert H; run_py;
      intros H; inversion H; subst; eexists; reflexivity.
  - inversion H; subst. eexists. reflexivity.
  - destruct w as [g [[|] [|]] lk lm tr], e as [[|] st io]; revert H; run_py;
      intros H; inversion H; subst; eexists; reflexivity.
  - inversion H; subst. eexists. reflexivity.
  - revert H. unfold try_except. rewrite with_open_write_run.
    destruct (append_outcome (power_log e)) as [[]|x];
      [|destruct (isinstance x Exception)];
      intros H; inversion H; subst; run_py; norm_trace; eexists; reflexivity.
  - inversion H; subst. eexists. reflexivity.
  - inversion H; subst. eexists. reflexivity.
  - inversion H; subst. eexists. reflexivity.
  - inversion H; subst. eexists. reflexivity.
  - discriminate H.
Qed.

Lemma thread_run_extends (k : nat) (e : edge) (p : pc) (w : world) :
  exists evs, trace (snd (thread_run k e p w)) = (trace w ++ evs)%list.
Proof.
  revert p w. induction k as [|k IH]; intros p w; cbn [thread_run].
  - exists []. rewrite app_nil_r. reflexivity.
  - destruct (thread_step e p w) as [[p' w']|] eqn:Hstep.
    + destruct (thread_step_extends e p p' w w' Hstep) as [evs1 H1].
      destruct (IH p' w') as [evs2 H2].
      exists (evs1 ++ evs2)%list. rewrite H2, H1, app_assoc. reflexivity.
    + exists []. rewrite app_nil_r. reflexivity.
Qed.

Lemma thread_run_stuck (k : nat) (e : edge) (p : pc) (w : world) :
  thread_step e p w = None -> thread_run k e p w = (p, w).
Proof. intros H. destruct k; cbn [thread_run]; [|rewrite H]; reflexivity. Qed.

Lemma thread_run_add (k j : nat) (e : edge) (p : pc) (w : world) :
  thread_run (k + j) e p w =
    thread_run j e (fst (thread_run k e p w)) (snd (thread_run k e p w)).
Proof.
  revert p w. induction k as [|k IH]; intros p w; cbn [Nat.add thread_run fst snd].
  - reflexivity.
  - destruct (thread_step e p w) as [[p' w']|] eqn:Hstep.
    + apply IH.
    + cbn [fst snd]. destruct j; cbn [thread_run]; [|rewrite Hstep]; reflexivity.
Qed.

Lemma thread_run_mutex (k : nat) (e : edge) (p : pc) (w : world) :
  locked w = holds_mutex p ->
  locked (snd (thread_run k e p w)) = holds_mutex (fst (thread_run k e p w)).
Proof.
  revert p w. induction k as [|k IH]; intros p w Hinv; cbn [thread_run].
  - exact Hinv.
  - destruct (thread_step e p w) as [[p' w']|] eqn:Hstep; [|exact Hinv].
    apply IH. assert (Hmx := thread_step_mutex e p p' w w' Hstep).
    destruct p; cbn [holds_mutex] in Hinv;
      try (destruct Hmx as [Hl Hh]; congruence).
    + destruct Hmx as (_ & Hl & Hh). congruence.
    + contradiction.
Qed.

(** Wherever a run of the thread stands, the calls made so far are an
    initial part of those of [isr], and the mutex is held exactly when the
    run is inside the [with] block. *)

Lemma thread_run_inside_isr (k : nat) (e : edge) (w : world) :
  locked w = false ->
  locked (snd (thread_run k e AtAcquire w))
    = holds_mutex (fst (thread_run k e AtAcquire w)) /\
  exists later,
    trace (snd (isr CLOCK_PIN e w))
      = (trace (snd (thread_run k e AtAcquire w)) ++ later)%list.
Proof.
  intros Hfree. split; [apply thread_run_mutex; exact Hfree|].
  assert (Hisr := thread_run_isr e w Hfree).
  destruct (Nat.le_gt_cases k 11) as [Hle|Hgt].
  - replace 11%nat with (k + (11 - k))%nat in Hisr by lia.
    rewrite thread_run_add in Hisr.
    destruct (thread_run_extends (11 - k) e (fst (thread_run k e AtAcquire w))
                (snd (thread_run k e AtAcquire w))) as [later Hl].
    exists later. rewrite Hisr in Hl. exact Hl.
  - exists []. rewrite app_nil_r.
    replace k with (11 + (k - 11))%nat by lia.
    rewrite thread_run_add, Hisr. cbn [fst snd].
    rewrite thread_run_stuck; reflexivity.
Qed.

(** A run of the handler on an edge that samples low, from the armed
    state: the acquisition comes first and the release last, with the wait
    of two seconds and the shutdown call between them. *)
Lemma isr_low_edge_calls (e : edge) (w : world) :
  dir (pulse_pin w) = OUT ->
  line e = false ->
  edge_ok e ->
  exists inside,
    fst (isr CLOCK_PIN e w) = Ret tt /\
    trace (snd (isr CLOCK_PIN e w)) =
      (trace w ++ Acquire :: inside
         ++ [Sleep 2000; Shutdown; GpioSetupOut (negb (latch (pulse_pin w))); Release])%list /\
    ~ In Acquire inside /\ ~ In Release inside.
Proof.
  intros Hdir Hlow Hok. rewrite (isr_run e w Hdir Hok). cbn [fst snd].
  unfold after_isr, isr_events. cbn [trace]. rewrite Hlow.
  set (rec := (append_events (power_log e) UPS_History_POWER
                 (shutdown_record (stamp e))
               ++ match append_outcome (power_log e) with
                  | Ret _ => []
                  | Exc _ => [Log ERROR "Error al escribir en el archivo de registro: %s"]
                  end)%list).
  exists ([GpioInput (latch (pulse_pin w)); GpioOutput false; GpioSetupIn;
           GpioInput false;
           Log WARNING "Se solicita el apagado de la Raspberry Pi desde la UPS"]
          ++ rec)%list.
  split; [reflexivity|]. split.
  - f_equal. cbn [app]. do 6 f_equal. subst rec.
    rewrite <- !app_assoc. reflexivity.
  - assert (Hrec : ~ In Acquire rec /\ ~ In Release rec).
    { subst rec. unfold append_events.
      destruct (open_r (power_log e)), (append_outcome (power_log e));
        cbn [app In]; split; intros H;
        repeat (destruct H as [H|H]; [discriminate H|]); exact H. }
    destruct Hrec as [Ha Hr].
    split; intros H; apply in_app_or in H; destruct H as [H|H];
      try (apply Ha, H); try (apply Hr, H);
      cbn [In] in H; repeat (destruct H as [H|H]; [discriminate H|]); exact H.
Qed.

(** C8.  The handler [isr] takes the mutex before anything else and gives
    it back as the last thing it does: on an edge that samples low its calls
    are the acquisition, the sampling and the record, the wait of two
    seconds, the shutdown call, the set-up of the pin as an output and then
    the release.  Cut into its atomic steps, the handler is the thread of the
    interleaving model: run alone the thread does what [isr] does, and
    wherever it stands the calls made so far are an initial part of those of
    [isr] and the mutex is held exactly when it is inside the [with] block.
    In every state that the interleaved runs of the handler and the polling
    loop can reach: while one run of the handler is inside
    [with self.pulse_pin_mutex] (in particular from the detection of the
    shutdown request, through the two-second wait, to the shutdown call) the
    mutex is held; no other run of the handler can take a step, so the only
    run that moves is this one; its steps up to the release keep the mutex
    held; and an iteration of the polling loop changes neither the pin nor
    [sqwave] nor the mutex. *)
Theorem mutex_held_until_power_off
    (g : PiGuard) (edges : list edge) (s : system) (i : nat) (th : thread) :
  reachable (initial g edges) s ->
  nth_error (threads s) i = Some th ->
  holds_mutex (th_pc th) = true ->
  (forall p, shutdown_pending p = true -> holds_mutex p = true) /\
  locked (shared s) = true /\
  (forall j s', sys_step s (Handler j) s' -> j = i) /\
  (forall p' w',
      thread_step (th_edge th) (th_pc th) (shared s) = Some (p', w') ->
      shutdown_pending (th_pc th) = true ->
      locked w' = true /\ holds_mutex p' = true) /\
  (forall t s',
      sys_step s (Loop t) s' ->
      pulse_pin (shared s') = pulse_pin (shared s) /\
      sqwave (self (shared s')) = sqwave (self (shared s)) /\
      locked (shared s') = true) /\
  (forall e w,
      locked w = false ->
      thread_run 11 e AtAcquire w =
        (Finished (fst (isr CLOCK_PIN e w)), snd (isr CLOCK_PIN e w))) /\
  (forall k e w,
      locked w = false ->
      locked (snd (thread_run k e AtAcquire w))
        = holds_mutex (fst (thread_run k e AtAcquire w)) /\
      exists later,
        trace (snd (isr CLOCK_PIN e w))
          = (trace (snd (thread_run k e AtAcquire w)) ++ later)%list) /\
  (forall e w,
      dir (pulse_pin w) = OUT ->
      line e = false ->
      edge_ok e ->
      exists inside,
        fst (isr CLOCK_PIN e w) = Ret tt /\
        trace (snd (isr CLOCK_PIN e w)) =
          (trace w ++ Acquire :: inside
             ++ [Sleep 2000; Shutdown;
                 GpioSetupOut (negb (latch (pulse_pin w))); Release])%list /\
        ~ In Acquire inside /\ ~ In Release inside).
Proof.
  intros Hreach Hnth Hholds.
  assert (Hinv := reachable_mutex_inv g edges s Hreach).
  unfold mutex_inv in Hinv.
  assert (Hlocked : locked (shared s) = true).
  { destruct (locked (shared s)); [reflexivity|]. exfalso.
    apply nth_error_In in Hnth.
    assert (Hin : In th (filter (fun th => holds_mutex (th_pc th)) (threads s)))
      by (apply filter_In; split; assumption).
    unfold holders in Hinv.
    destruct (filter _ (threads s)); [contradiction | discriminate Hinv]. }
  rewrite Hlocked in Hinv.
  split; [exact shutdown_pending_holds_mutex|].
  split; [exact Hlocked|].
  split; [|split; [|split; [|split; [|split]]]].
  - intros j s' Hstep. inversion Hstep as [s0 j0 thj p' w' Hj Hthj | ]; subst.
    assert (Hmx := thread_step_mutex _ _ _ _ _ Hthj).
    destruct (holds_mutex (th_pc thj)) eqn:Hhj.
    + symmetry. exact (holders_unique _ _ _ _ _ Hinv Hnth Hholds Hj Hhj).
    + exfalso. destruct (th_pc thj); try discriminate Hhj.
      * destruct Hmx as [Hfree _]. congruence.
      * exact Hmx.
  - intros p' w' Hstep Hpend.
    assert (Hmx := thread_step_mutex _ _ _ _ _ Hstep).
    destruct (th_pc th); try discriminate Hpend;
      destruct Hmx as [Hl Hh]; split; congruence.
  - intros t s' Hstep. inversion Hstep; subst. cbn [shared].
    destruct (keeps_loop_body t (shared s)) as (Hp & Hl & Hs).
    split; [exact Hp|]. split; [exact Hs | congruence].
  - exact thread_run_isr.
  - intros k e w Hfree. exact (thread_run_inside_isr k e w Hfree).
  - exact isr_low_edge_calls.
Qed.

Lemma advance_reachable (s0 s : system) (i : nat) :
  reachable s0 s -> reachable s0 (advance i s).
Proof.
  intros H. unfold advance.
  destruct (nth_error (threads s) i) as [th|] eqn:Hnth; [|exact H].
  destruct (thread_step (th_edge th) (th_pc th) (shared s)) as [[p' w']|] eqn:Hth;
    [|exact H].
  exact (reach_step s0 s _ (Handler i) H (step_handler s i th p' w' Hnth Hth)).
Qed.

Lemma mutex_held_until_power_off_witness :
  let g := load_config 0 (mkRaw 60 5 5 30 (Fin 60) true) in
  let low := mkEdge false "04-11-2026 10:00:00.000"
               (mkFileIO (Ret tt) (Ret tt) (Ret tt)) in
  let s := Nat.iter 7 (advance 0) (initial g [low; low]) in
  nth_error (threads s) 0 = Some (mkThread low AtGrace) /\
  nth_error (threads s) 1 = Some (mkThread low AtAcquire) /\
  locked (shared s) = true /\
  (forall j s', sys_step s (Handler j) s' -> j = 0%nat) /\
  thread_run 11 low AtAcquire (armed g) =
    (Finished (Ret tt), snd (isr CLOCK_PIN low (armed g))) /\
  trace (snd (isr CLOCK_PIN low (armed g))) =
    [Acquire; GpioInput true; GpioOutput false; GpioSetupIn; GpioInput false;
     Log WARNING "Se solicita el apagado de la Raspberry Pi desde la UPS";
     FileOpen UPS_History_POWER;
     FileWrite UPS_History_POWER (shutdown_record "04-11-2026 10:00:00.000");
     FileClose UPS_History_POWER;
     Sleep 2000; Shutdown; GpioSetupOut false; Release].
Proof.
  intros g low s.
  assert (Hreach : reachable (initial g [low; low]) s).
  { unfold s. cbn [Nat.iter]. repeat apply advance_reachable. apply reach_start. }
  assert (Hnth : nth_error (threads s) 0 = Some (mkThread low AtGrace))
    by (vm_compute; reflexivity).
  destruct (mutex_held_until_power_off g [low; low] s 0 (mkThread low AtGrace)
              Hreach Hnth eq_refl)
    as (_ & Hlocked & Honly & _ & _ & Hrun & _ & Hcalls).
  split; [exact Hnth|]. split; [vm_compute; reflexivity|].
  split; [exact Hlocked|]. split; [exact Honly|].
  split; [exact (Hrun low (armed g) eq_refl)|].
  destruct (Hcalls low (armed g) eq_refl eq_refl I) as (inside & _ & Htrace & _).
  reflexivity.
Defined.

(** * Further properties *)

(** ** The handler, whatever happens inside *)

Lemma isr_with_shutdown_returns (channel : Z) (e : edge) :
  isr_with_shutdown (Ret tt) channel e = isr channel e.
Proof. reflexivity. Qed.

(** X1.  Called for the clock pin, the handler always leaves the mutex free,
    and its calls begin with the acquisition and end with the release,
    whatever is raised in between and whatever the shutdown command does.
    It raises only in three cases: the pin was not an output when it started
    ([GPIO.output] refuses it with a [RuntimeError]); the append of the
    shutdown record raised something that is not an instance of
    [Exception]; or the shutdown call itself raised, which it does past the
    handler whenever it is reached.  Whenever the handler raises, the final
    set-up of the pin as an output is not reached and the pin is left an
    input.  With a shutdown call that returns the handler is [isr]. *)
Theorem isr_always_releases (r : result unit) (e : edge) (w : world) :
  let out := isr_with_shutdown r CLOCK_PIN e w in
  let w' := snd out in
  isr_with_shutdown (Ret tt) CLOCK_PIN e w = isr CLOCK_PIN e w /\
  locked w' = false /\
  (exists evs, trace w' = (trace w ++ evs)%list /\
               hd_error evs = Some Acquire /\
               last evs Acquire = Release) /\
  (forall x, fst out = Exc x ->
     dir (pulse_pin w') = IN /\
     ((dir (pulse_pin w) = IN /\ x = RuntimeError) \/
      (dir (pulse_pin w) = OUT /\ line e = false /\
       append_outcome (power_log e) = Exc x /\
       isinstance x Exception = false) \/
      (dir (pulse_pin w) = OUT /\ line e = false /\
       raises_only Exception (append_outcome (power_log e)) /\
       r = Exc x))) /\
  (dir (pulse_pin w) = OUT -> line e = false ->
   raises_only Exception (append_outcome (power_log e)) ->
   fst out = r).
Proof.
  split; [reflexivity|].
  destruct w as [g [d l] lk lm tr], e as [ln st io].
  unfold isr_with_shutdown. rewrite Z.eqb_refl. cbn [negb].
  destruct r as [[]|xs], d, ln;
    destruct io as [[[]|xo] [[]|xw] [[]|xc]];
    try destruct (isinstance xo Exception) eqn:Eo;
    try destruct (isinstance xw Exception) eqn:Ew;
    try destruct (isinstance xc Exception) eqn:Ec;
    unfold append_outcome, raises_only;
    run_py; rewrite ?Eo, ?Ew, ?Ec; run_py; norm_trace;
    (split; [reflexivity|]);
    (split; [eexists; split; [reflexivity|]; split; reflexivity|]);
    (split;
     [ intros x Hx; inversion Hx; subst; (split; [reflexivity|]);
       first [ left; split; reflexivity
             | right; left; repeat split; assumption
             | right; right; repeat split; assumption ]
     | intros Hd Hl Hok;
       first [ reflexivity | discriminate Hd | discriminate Hl | congruence ] ]).
Qed.

Lemma isr_always_releases_witness :
  let w := armed (load_config 0 (mkRaw 60 5 5 30 (Fin 60) true)) in
  let e := mkEdge false "04-11-2026 10:00:00.000"
             (mkFileIO (Ret tt) (Ret tt) (Ret tt)) in
  let w' := snd (isr_with_shutdown (Exc OSError) CLOCK_PIN e w) in
  fst (isr_with_shutdown (Exc OSError) CLOCK_PIN e w) = Exc OSError /\
  locked w' = false /\
  dir (pulse_pin w') = IN /\
  fst (isr CLOCK_PIN e w') = Exc RuntimeError.
Proof.
  intros w e w'.
  destruct (isr_always_releases (Exc OSError) e w)
    as (_ & Hfree & _ & Hraise & Hsh).
  assert (Hexc : fst (isr_with_shutdown (Exc OSError) CLOCK_PIN e w) = Exc OSError)
    by (apply Hsh; [reflexivity | reflexivity | exact I]).
  destruct (Hraise OSError Hexc) as [Hin _].
  split; [exact Hexc|]. split; [exact Hfree|]. split; [exact Hin|].
  destruct (isr_always_releases (Ret tt) e w') as (Hisr & _ & _ & Hnext & _).
  rewrite <- Hisr. reflexivity.
Defined.

(** X2.  When the sample is high (no shutdown request), a run of the handler
    makes exactly seven calls: it opens no file, logs nothing, does not sleep
    and does not call the shutdown command, whatever the file system would
    have answered. *)
Theorem isr_high_sample_is_quiet (e : edge) (w : world) :
  dir (pulse_pin w) = OUT ->
  line e = true ->
  let l := latch (pulse_pin w) in
  fst (isr CLOCK_PIN e w) = Ret tt /\
  trace (snd (isr CLOCK_PIN e w)) =
    (trace w ++ [Acquire; GpioInput l; GpioOutput false; GpioSetupIn;
                 GpioInput true; GpioSetupOut (negb l); Release])%list.
Proof.
  destruct w as [g [d l] lk lm tr], e as [ln st io]. cbn [dir pulse_pin line latch].
  intros -> ->. unfold isr. rewrite Z.eqb_refl. cbn [negb].
  run_py. norm_trace. split; reflexivity.
Qed.

Lemma isr_high_sample_is_quiet_witness :
  let w := armed (load_config 0 (mkRaw 60 5 5 30 (Fin 60) true)) in
  let e := mkEdge true "04-11-2026 10:00:00.000"
             (mkFileIO (Exc OSError) (Exc OSError) (Exc KeyboardInterrupt)) in
  trace (snd (isr CLOCK_PIN e w)) =
    [Acquire; GpioInput true; GpioOutput false; GpioSetupIn;
     GpioInput true; GpioSetupOut false; Release].
Proof.
  intros w e.
  destruct (isr_high_sample_is_quiet e w eq_refl eq_refl) as [_ Htrace].
  exact Htrace.
Defined.

(** X3.  The heartbeat is a square wave: from a state in which the pin
    drives the stored level, after any series of accepted edges the pin is
    again an output that drives the stored level, and this level is the
    initial one after an even number of edges and its negation after an odd
    number. *)
Theorem heartbeat_square_wave (edges : list edge) (w : world) :
  driving w ->
  Forall edge_ok edges ->
  let w' := snd (isr_all edges w) in
  fst (isr_all edges w) = Ret tt /\
  driving w' /\
  sqwave (self w') =
    if Nat.even (List.length edges) then sqwave (self w)
    else negb (sqwave (self w)).
Proof.
  intros [Hdir Hlatch] Hok w'. subst w'.
  rewrite (isr_all_run edges w Hdir Hok). cbn [fst snd].
  split; [reflexivity|].
  clear Hok. revert w Hdir Hlatch.
  induction edges as [|e rest IH]; intros w Hdir Hlatch.
  - split; [split; assumption | reflexivity].
  - cbn [fold_left].
    destruct (IH (after_isr e w) eq_refl eq_refl) as [Hdrv Hsq].
    split; [exact Hdrv|]. rewrite Hsq.
    cbn [List.length]. rewrite Nat.even_succ, <- Nat.negb_even.
    unfold after_isr at 1 2. cbn [self sqwave with_sqwave]. rewrite Hlatch.
    destruct (Nat.even (List.length rest)); cbn [negb];
      [reflexivity | apply negb_involutive].
Qed.

Lemma heartbeat_square_wave_witness :
  let w := armed (load_config 0 (mkRaw 60 5 5 30 (Fin 60) true)) in
  let e := mkEdge true "04-11-2026 10:00:00.000"
             (mkFileIO (Ret tt) (Ret tt) (Ret tt)) in
  sqwave (self (snd (isr_all [e; e; e] w))) = false /\
  sqwave (self (snd (isr_all [e; e] w))) = true.
Proof.
  intros w e.
  assert (Hdrv : driving w) by (split; reflexivity).
  split.
  - destruct (heartbeat_square_wave [e; e; e] w Hdrv) as (_ & _ & Hsq);
      [repeat constructor | exact Hsq].
  - destruct (heartbeat_square_wave [e; e] w Hdrv) as (_ & _ & Hsq);
      [repeat constructor | exact Hsq].
Defined.

(** ** Rules for [maintains] *)

Section Maintains.

Variable I : world -> Prop.
Variable P : event -> bool.
Hypothesis I_emit : forall ev w, I w -> I (emit ev w).

Lemma maintains_ret {A} (a : A) : maintains I P (ret a).
Proof.
  intros w Hw. split; [exact Hw|]. exists []. cbn [snd ret].
  rewrite app_nil_r. split; reflexivity.
Qed.

Lemma maintains_raise {A} (x : exn) : maintains I P (@raise A x).
Proof.
  intros w Hw. split; [exact Hw|]. exists []. cbn [snd raise].
  rewrite app_nil_r. split; reflexivity.
Qed.

Lemma maintains_get {A} (f : world -> A) : maintains I P (get f).
Proof.
  intros w Hw. split; [exact Hw|]. exists []. cbn [snd get].
  rewrite app_nil_r. split; reflexivity.
Qed.

Lemma maintains_outside {A} (r : result A) : maintains I P (outside r).
Proof.
  intros w Hw. split; [exact Hw|]. exists []. cbn [snd outside].
  rewrite app_nil_r. split; reflexivity.
Qed.

Lemma maintains_call {A} (ev : event) (r : result A) :
  P ev = true -> maintains I P (call ev r).
Proof.
  intros Hev w Hw. split; [apply I_emit, Hw|]. exists [ev]. cbn [snd call].
  split; [reflexivity|]. cbn [forallb]. rewrite Hev. reflexivity.
Qed.

Lemma maintains_modify (f : world -> world) :
  (forall w, I w -> I (f w)) -> (forall w, trace (f w) = trace w) ->
  maintains I P (modify f).
Proof.
  intros Hf Htr w Hw. split; [apply Hf, Hw|]. exists []. cbn [snd modify].
  rewrite app_nil_r, Htr. split; reflexivity.
Qed.

Lemma maintains_bind {A B} (m : M A) (k : A -> M B) :
  maintains I P m -> (forall a, maintains I P (k a)) -> maintains I P (bind m k).
Proof.
  intros Hm Hk w Hw. unfold bind. destruct (Hm w Hw) as (H1 & evs1 & Ht1 & Hp1).
  destruct (m w) as [[a|x] w1]; cbn [snd] in *.
  - destruct (Hk a w1 H1) as (H2 & evs2 & Ht2 & Hp2).
    split; [exact H2|]. exists (evs1 ++ evs2)%list.
    rewrite Ht2, Ht1, app_assoc, forallb_app, Hp1, Hp2. split; reflexivity.
  - split; [exact H1|]. exists evs1. split; assumption.
Qed.

Lemma maintains_try_except {A} (body : M A) (K : exn) (handler : exn -> M A) :
  maintains I P body -> (forall x, maintains I P (handler x)) ->
  maintains I P (try_except body K handler).
Proof.
  intros Hb Hh w Hw. unfold try_except.
  destruct (Hb w Hw) as (H1 & evs1 & Ht1 & Hp1).
  destruct (body w) as [[a|x] w1]; cbn [snd] in *.
  - split; [exact H1|]. exists evs1. split; assumption.
  - destruct (isinstance x K).
    + destruct (Hh x w1 H1) as (H2 & evs2 & Ht2 & Hp2).
      split; [exact H2|]. exists (evs1 ++ evs2)%list.
      rewrite Ht2, Ht1, app_assoc, forallb_app, Hp1, Hp2. split; reflexivity.
    + split; [exact H1|]. exists evs1. split; assumption.
Qed.

Lemma maintains_try_finally {A} (body : M A) (final : M unit) :
  maintains I P body -> maintains I P final ->
  maintains I P (try_finally body final).
Proof.
  intros Hb Hf w Hw. unfold try_finally.
  destruct (Hb w Hw) as (H1 & evs1 & Ht1 & Hp1).
  destruct (body w) as [r w1]; cbn [snd] in *.
  destruct (Hf w1 H1) as (H2 & evs2 & Ht2 & Hp2).
  destruct (final w1) as [[u|x] w2]; cbn [snd] in *;
    (split; [exact H2|]); exists (evs1 ++ evs2)%list;
    rewrite Ht2, Ht1, app_assoc, forallb_app, Hp1, Hp2; split; reflexivity.
Qed.

Lemma maintains_with_open {A} (io : file_io) (f : logfile) (body : M A) :
  P (FileOpen f) = true -> P (FileClose f) = true ->
  maintains I P body -> maintains I P (with_open io f body).
Proof.
  intros Ho Hc Hb. unfold with_open.
  apply maintains_bind; [apply maintains_call, Ho|]. intros _.
  apply maintains_try_finally; [exact Hb | apply maintains_call, Hc].
Qed.

End Maintains.

(** A statement that starts by reading the world may use what it read. *)
Lemma maintains_bind_get (I : world -> Prop) (P : event -> bool)
    {A B} (f : world -> A) (k : A -> M B) :
  (forall w0, I w0 -> maintains I P (k (f w0))) ->
  maintains I P (bind (get f) k).
Proof.
  intros H w Hw. unfold bind, get. exact (H w Hw w Hw).
Qed.

Lemma same_settings_emit (g : PiGuard) (ev : event) (w : world) :
  same_settings g w -> same_settings g (emit ev w).
Proof. intros H. exact H. Qed.

(** ** What the polling loop never does *)

Lemma maintains_weaken (I : world -> Prop) (P Q : event -> bool) {A} (m : M A) :
  (forall ev, P ev = true -> Q ev = true) ->
  maintains I P m -> maintains I Q m.
Proof.
  intros HPQ Hm w Hw. destruct (Hm w Hw) as (H1 & evs & Ht & Hp).
  split; [exact H1|]. exists evs. split; [exact Ht|].
  rewrite forallb_forall in *. intros ev Hin. apply HPQ, Hp, Hin.
Qed.

Lemma tick_call_loop_call (ev : event) : tick_call ev = true -> loop_call ev = true.
Proof. destruct ev; cbn [tick_call]; intros H; (exact H || discriminate H). Qed.


Lemma loop_body_maintains (g : PiGuard) (t : tick) :
  maintains (same_settings g) tick_call (loop_body t).
Proof.
  assert (E := same_settings_emit g).
  unfold loop_body, read_voltage, read_ups_mode.
  apply maintains_bind; [apply maintains_get|]. intros enabled.
  apply maintains_bind.
  - destruct enabled; [|apply maintains_ret].
    apply maintains_bind.
    { apply maintains_try_except.
      - apply maintains_bind; [apply maintains_call; [exact E | reflexivity]|].
        intros _. apply maintains_bind; [apply maintains_call; [exact E | reflexivity]|].
        intros _. apply maintains_bind; [apply maintains_call; [exact E | reflexivity]|].
        intros vol. apply maintains_ret.
      - intros x. apply maintains_bind; [apply maintains_call; [exact E | reflexivity]|].
        intros _. apply maintains_ret. }
    intros vo. apply maintains_bind.
    { apply maintains_try_except.
      - apply maintains_bind; [apply maintains_call; [exact E | reflexivity]|].
        intros _. apply maintains_bind; [apply maintains_call; [exact E | reflexivity]|].
        intros _. apply maintains_bind; [apply maintains_call; [exact E | reflexivity]|].
        intros vol. apply maintains_ret.
      - intros x. apply maintains_bind; [apply maintains_call; [exact E | reflexivity]|].
        intros _. apply maintains_ret. }
    intros mo.
    destruct vo as [v|]; [|apply maintains_ret].
    destruct mo as [m|]; [|apply maintains_ret].
    apply maintains_bind; [apply maintains_get|]. intros due.
    destruct due; [|apply maintains_ret].
    apply maintains_bind.
    { apply maintains_modify; [|reflexivity]. intros w H. exact H. }
    intros _. apply maintains_bind; [apply maintains_get|]. intros last.
    apply maintains_bind.
    + destruct (mode_changed last m); [|apply maintains_ret].
      apply maintains_try_except.
      * apply maintains_with_open; [exact E | reflexivity | reflexivity|].
        apply maintains_bind; [apply maintains_call; [exact E | reflexivity]|].
        intros _. apply maintains_modify; [|reflexivity]. intros w H. exact H.
      * intros x. apply maintains_call; [exact E | reflexivity].
    + intros _. apply maintains_with_open; [exact E | reflexivity | reflexivity|].
      apply maintains_call; [exact E | reflexivity].
  - intros _. apply maintains_bind; [apply maintains_get|]. intros secs.
    apply maintains_call; [exact E | reflexivity].
Qed.

Lemma while_true_maintains (g : PiGuard) (ticks : list tick) :
  maintains (same_settings g) tick_call (while_true ticks).
Proof.
  induction ticks as [|t rest IH]; cbn [while_true].
  - apply maintains_ret.
  - apply maintains_bind; [apply loop_body_maintains|]. intros _. exact IH.
Qed.

Lemma steady_loop_maintains (g : PiGuard) (ticks : list tick) :
  maintains (same_settings g) loop_call (steady_loop ticks).
Proof.
  assert (E := same_settings_emit g).
  intros w0 Hw0. unfold steady_loop.
  assert (Hloop : maintains (same_settings g) loop_call
                    (modify (set_last_mode None) ;; while_true ticks)).
  { apply maintains_bind.
    - apply maintains_modify; [|reflexivity]. intros w1 H. exact H.
    - intros _. apply (maintains_weaken _ tick_call loop_call);
        [exact tick_call_loop_call | apply while_true_maintains]. }
  destruct (Hloop w0 Hw0) as (H1 & evs1 & Ht1 & Hp1).
  destruct ((modify (set_last_mode None) ;; while_true ticks) w0)
    as [[u|x] w1]; cbn [snd] in *.
  - split; [exact H1|]. exists evs1. split; assumption.
  - assert (Hexit : maintains (same_settings g) loop_call
               (try_finally
                  (try_except (raise x) KeyboardInterrupt
                     (fun _ => log INFO "Deteniendo el servicio Pi Guard..."))
                  (log INFO "Limpiando los pines GPIO..." ;;
                   call GpioCleanup (Ret tt)))).
    { apply maintains_try_finally.
      - apply maintains_try_except; [apply maintains_raise|].
        intros _. apply maintains_call; [exact E | reflexivity].
      - apply maintains_bind; [apply maintains_call; [exact E | reflexivity]|].
        intros _. apply maintains_call; [exact E | reflexivity]. }
    destruct (Hexit w1 H1) as (H2 & evs2 & Ht2 & Hp2).
    split; [exact H2|]. exists (evs1 ++ evs2)%list.
    rewrite Ht2, Ht1, app_assoc, forallb_app, Hp1, Hp2. split; reflexivity.
Qed.

Lemma keeps_while_true (ticks : list tick) : keeps_pin (while_true ticks).
Proof.
  induction ticks as [|t rest IH]; cbn [while_true]; [apply keeps_ret|].
  apply keeps_bind; [apply keeps_loop_body|]. intros _. exact IH.
Qed.

(** How the block around the loop ends once the loop has been left by the
    exception [x]. *)
Lemma steady_loop_exit (x : exn) (w : world) :
  try_finally
    (try_except (raise x) KeyboardInterrupt
       (fun _ => log INFO "Deteniendo el servicio Pi Guard..."))
    (log INFO "Limpiando los pines GPIO..." ;; call GpioCleanup (Ret tt)) w =
  ((if isinstance x KeyboardInterrupt then Ret tt else Exc x),
   emits ((if isinstance x KeyboardInterrupt
           then [Log INFO "Deteniendo el servicio Pi Guard..."] else [])
          ++ [Log INFO "Limpiando los pines GPIO..."; GpioCleanup]) w).
Proof.
  destruct w as [g p lk lm tr].
  destruct (isinstance x KeyboardInterrupt) eqn:E; run_py; rewrite E; run_py;
    norm_trace; reflexivity.
Qed.

(** Over a run of the loop the mutex and [sqwave] are left alone.  The calls
    are those of the iterations, followed, once the loop has been left, by
    the messages and the clean-up, which is then the last call; in a run
    without the clean-up the pulse pin is as it was. *)
Lemma steady_loop_until_cleanup (ticks : list tick) (w : world) :
  let w' := snd (steady_loop ticks w) in
  locked w' = locked w /\
  sqwave (self w') = sqwave (self w) /\
  exists body,
    forallb tick_call body = true /\
    ((trace w' = (trace w ++ body)%list /\ pulse_pin w' = pulse_pin w) \/
     trace w' = (trace w ++ body ++ [GpioCleanup])%list).
Proof.
  cbv zeta. unfold steady_loop.
  assert (Hkeep : keeps_pin (modify (set_last_mode None) ;; while_true ticks)).
  { apply keeps_bind; [apply keeps_set_last_mode|]. intros _.
    apply keeps_while_true. }
  assert (Hcalls : maintains (same_settings (self w)) tick_call
                     (modify (set_last_mode None) ;; while_true ticks)).
  { apply maintains_bind; [|intros _; apply while_true_maintains].
    apply maintains_modify; [|reflexivity]. intros w1 H. exact H. }
  destruct (Hkeep w) as (K1 & K2 & K3).
  destruct (Hcalls w) as (_ & evs & Ht & Hp); [repeat split|].
  destruct ((modify (set_last_mode None) ;; while_true ticks) w)
    as [[u|x] w1]; cbn [snd] in *.
  - split; [exact K2|]. split; [exact K3|].
    exists evs. split; [exact Hp|]. left. split; assumption.
  - rewrite steady_loop_exit. cbn [snd].
    destruct w1 as [g1 p1 lk1 lm1 tr1].
    cbn [emits self pulse_pin locked last_mode trace] in *.
    split; [exact K2|]. split; [exact K3|].
    exists (evs ++ (if isinstance x KeyboardInterrupt
                    then [Log INFO "Deteniendo el servicio Pi Guard..."] else [])
                ++ [Log INFO "Limpiando los pines GPIO..."])%list.
    split.
    + rewrite !forallb_app, Hp.
      destruct (isinstance x KeyboardInterrupt); reflexivity.
    + right. rewrite Ht, <- !app_assoc. reflexivity.
Qed.

(** X4.  The polling loop, over any run and whatever the outside answers,
    never changes the settings, the mutex or [sqwave], never calls the
    shutdown command and never reads or drives the pulse pin; on the bus it
    sends only the two read opcodes.  Its only GPIO call is the clean-up,
    made after the iterations and then the last call of the run; in a run
    without it (the loop has not been left) the pulse pin is as it was. *)
Theorem steady_loop_calls (g : PiGuard) (ticks : list tick) (w : world) :
  same_settings g w ->
  let w' := snd (steady_loop ticks w) in
  same_settings g w' /\
  locked w' = locked w /\
  sqwave (self w') = sqwave (self w) /\
  exists evs,
    trace w' = (trace w ++ evs)%list /\
    forallb loop_call evs = true /\
    exists body,
      forallb tick_call body = true /\
      ((evs = body /\ pulse_pin w' = pulse_pin w) \/
       evs = (body ++ [GpioCleanup])%list).
Proof.
  intros Hw w'. subst w'.
  destruct (steady_loop_maintains g ticks w Hw) as (Hs & evs & Ht & Hp).
  destruct (steady_loop_until_cleanup ticks w) as (K2 & K3 & body & Hb & Hcase).
  split; [exact Hs|]. split; [exact K2|]. split; [exact K3|].
  exists evs. split; [exact Ht|]. split; [exact Hp|].
  exists body. split; [exact Hb|].
  destruct Hcase as [[Hbody Hpin] | Hclean].
  - left. split; [|exact Hpin]. rewrite Ht in Hbody.
    exact (app_inv_head _ _ _ Hbody).
  - right. rewrite Ht in Hclean. exact (app_inv_head _ _ _ Hclean).
Qed.

Lemma steady_loop_calls_witness :
  let g := load_config 0 (mkRaw 60 5 5 30 (Fin 60) true) in
  let ok := mkFileIO (Ret tt) (Ret tt) (Ret tt) in
  let t := mkTick (mkBusIO (Ret tt) (Ret 200)) (mkBusIO (Ret tt) (Ret 1))
             0 "04-11-2026 10:00:00.000" ok "04-11-2026 10:00:00.001" ok
             (Ret tt) in
  let stop := mkTick (mkBusIO (Ret tt) (Ret 200)) (mkBusIO (Ret tt) (Ret 1))
             0 "04-11-2026 10:00:05.000" ok "04-11-2026 10:00:05.001" ok
             (Exc KeyboardInterrupt) in
  pulse_pin (snd (steady_loop [t; t] (armed g))) = mkPin OUT true /\
  forallb loop_call (trace (snd (steady_loop [t; t] (armed g)))) = true /\
  last (trace (snd (steady_loop [t; stop; t] (armed g)))) Acquire = GpioCleanup.
Proof.
  intros g ok t stop.
  assert (Hg : same_settings g (armed g)) by (repeat split).
  destruct (steady_loop_calls g [t; t] (armed g) Hg)
    as (_ & _ & _ & evs & Htr & Hp & body & Hb & Hcase).
  split; [|split].
  - destruct Hcase as [[_ Hpin] | Hclean]; [exact Hpin|].
    exfalso. rewrite Hclean in Htr.
    apply (f_equal (fun l => last l Acquire)) in Htr.
    change (trace (armed g)) with (@nil event) in Htr. cbn [app] in Htr.
    rewrite last_last in Htr. vm_compute in Htr. discriminate Htr.
  - rewrite Htr. exact Hp.
  - vm_compute. reflexivity.
Defined.

(** ** What the handler never does *)

Lemma isr_maintains (w0 : world) (channel : Z) (e : edge) :
  maintains (loop_state_of w0) isr_call (isr channel e).
Proof.
  assert (E : forall ev w, loop_state_of w0 w -> loop_state_of w0 (emit ev w))
    by (intros ev w H; exact H).
  unfold isr. destruct (negb (channel =? CLOCK_PIN)); [apply maintains_ret|].
  unfold with_mutex.
  apply maintains_bind; [apply maintains_call; [exact E | reflexivity]|]. intros _.
  apply maintains_bind.
  { apply maintains_modify; [|reflexivity]. intros w H. exact H. }
  intros _. apply maintains_try_finally.
  - apply maintains_bind.
    { intros w Hw. split; [exact Hw|]. eexists [_]. split; reflexivity. }
    intros v. apply maintains_bind.
    { apply maintains_modify; [|reflexivity]. intros w H. exact H. }
    intros _. apply maintains_bind.
    { intros w Hw. unfold GPIO_output. destruct (dir (pulse_pin w)); cbn [snd];
        (split; [exact Hw|]); exists [GpioOutput false]; split; reflexivity. }
    intros _. apply maintains_bind.
    { intros w Hw. split; [exact Hw|]. exists [GpioSetupIn]. split; reflexivity. }
    intros _. apply maintains_bind.
    { intros w Hw. split; [exact Hw|]. eexists [_]. split; reflexivity. }
    intros sampled. apply maintains_bind.
    + destruct (negb sampled); [|apply maintains_ret].
      apply maintains_bind; [apply maintains_call; [exact E | reflexivity]|].
      intros _. apply maintains_bind.
      { apply maintains_try_except.
        - apply maintains_with_open; [exact E | reflexivity | reflexivity|].
          apply maintains_call; [exact E | reflexivity].
        - intros x. apply maintains_call; [exact E | reflexivity]. }
      intros _. apply maintains_bind; [apply maintains_call; [exact E | reflexivity]|].
      intros _. apply maintains_call; [exact E | reflexivity].
    + intros _. apply maintains_bind; [apply maintains_get|]. intros sq.
      intros w Hw. split; [exact Hw|]. exists [GpioSetupOut sq]. split; reflexivity.
  - apply maintains_bind; [apply maintains_call; [exact E | reflexivity]|].
    intros _. apply maintains_modify; [|reflexivity]. intros w H. exact H.
Qed.

(** X5.  A run of the handler, for any channel and whatever the outside
    answers, leaves the settings, the cursor of the history and the recorded
    mode as they were; it never uses the bus, never writes to the
    periodic-sample log and never calls [GPIO.cleanup]. *)
Theorem isr_leaves_loop_state (channel : Z) (e : edge) (w : world) :
  let w' := snd (isr channel e w) in
  same_settings (self w) w' /\
  history_write (self w') = history_write (self w) /\
  last_mode w' = last_mode w /\
  exists evs, trace w' = (trace w ++ evs)%list /\ forallb isr_call evs = true.
Proof.
  assert (Hw : loop_state_of w w) by (repeat split).
  destruct (isr_maintains w channel e w Hw) as ((Hs & Hh & Hl) & evs & Ht & Hp).
  cbn zeta. split; [exact Hs|]. split; [exact Hh|]. split; [exact Hl|].
  exists evs. split; assumption.
Qed.

(** ** Pushing the settings *)

Lemma set_shutdown_time_run (io : push_io) (w : world) :
  set_shutdown_time io w =
    (push_outcome io,
     emits (push_events SET_SHUTDOWN_TIME_CMD (SHUTDOWN_DELAY (self w))
              "Error de I/O al escribir el shutdown time: %s" io) w).
Proof.
  unfold set_shutdown_time, push_outcome, push_events.
  destruct w as [g p lk lm tr].
  destruct io as [[[]|xo] [[]|xv]]; cbn [opcode_r value_r]; run_py;
    try destruct (isinstance xo IOError); try destruct (isinstance xv IOError);
    run_py; norm_trace; reflexivity.
Qed.

Lemma set_watchdog_time_run (io : push_io) (w : world) :
  set_watchdog_time io w =
    (push_outcome io,
     emits (push_events WATCHDOG_RPI_CMD (WATCHDOG_RPI (self w))
              "Error de I/O al escribir el watchdog time: %s" io) w).
Proof.
  unfold set_watchdog_time, push_outcome, push_events.
  destruct w as [g p lk lm tr].
  destruct io as [[[]|xo] [[]|xv]]; cbn [opcode_r value_r]; run_py;
    try destruct (isinstance xo IOError); try destruct (isinstance xv IOError);
    run_py; norm_trace; reflexivity.
Qed.

Lemma set_post_shutdown_run (io : push_io) (w : world) :
  set_post_shutdown io w =
    (push_outcome io,
     emits (push_events POST_SHUTDOWN_CMD (POST_SHUTDOWN (self w))
              "Error de I/O al escribir el post shutdown time: %s" io) w).
Proof.
  unfold set_post_shutdown, push_outcome, push_events.
  destruct w as [g p lk lm tr].
  destruct io as [[[]|xo] [[]|xv]]; cbn [opcode_r value_r]; run_py;
    try destruct (isinstance xo IOError); try destruct (isinstance xv IOError);
    run_py; norm_trace; reflexivity.
Qed.

Lemma push_ok_outcome (io : push_io) : push_ok io -> push_outcome io = Ret tt.
Proof.
  unfold push_ok, push_outcome, raises_only. intros [Ho Hv].
  destruct (opcode_r io) as [[]|xo].
  - destruct (value_r io) as [[]|xv]; [reflexivity|]. rewrite Hv. reflexivity.
  - rewrite Ho. reflexivity.
Qed.

Lemma push_settings_run (b : boot) (w : world) :
  I2C_SEND_ENABLED (self w) = true ->
  push_ok (shutdown_io b) -> push_ok (watchdog_io b) -> push_ok (post_io b) ->
  push_settings b w =
    (append_outcome (startup_io b),
     emits (pushes_events b (self w)
            ++ append_events (startup_io b) UPS_History_POWER
                 (startup_line (startup_stamp b) (self w))) w).
Proof.
  intros Hen H1 H2 H3. unfold push_settings, pushes_events.
  destruct w as [g p lk lm tr]. cbn [self] in *.
  cbv beta iota zeta delta [bind get self]. rewrite Hen.
  rewrite set_shutdown_time_run, (push_ok_outcome _ H1).
  cbv beta iota zeta delta [emits self pulse_pin locked last_mode trace].
  rewrite set_watchdog_time_run, (push_ok_outcome _ H2).
  cbv beta iota zeta delta [emits self pulse_pin locked last_mode trace].
  rewrite set_post_shutdown_run, (push_ok_outcome _ H3).
  cbv beta iota zeta delta [emits self pulse_pin locked last_mode trace].
  rewrite with_open_write_run. unfold emits. cbn [self pulse_pin locked last_mode trace].
  rewrite <- !app_assoc. reflexivity.
Qed.

Lemma In_push_opcode (cmd value : Z) (msg : string) (io : push_io) :
  In (BusWrite cmd) (push_events cmd value msg io).
Proof. left. reflexivity. Qed.

(** X6.  With the serial push enabled and a bus that raises nothing but I/O
    errors, the three pushes never raise: each opcode is written whatever
    happened to the pushes before it, a value is written only after its
    opcode went through, and the start-up record is appended afterwards in
    any case; only a failure of that append leaves [push_settings] by an
    exception.  The settings themselves are not changed. *)
Theorem pushes_are_best_effort (b : boot) (w : world) :
  I2C_SEND_ENABLED (self w) = true ->
  push_ok (shutdown_io b) -> push_ok (watchdog_io b) -> push_ok (post_io b) ->
  let w' := snd (push_settings b w) in
  fst (push_settings b w) = append_outcome (startup_io b) /\
  self w' = self w /\
  trace w' =
    (trace w ++ pushes_events b (self w)
             ++ append_events (startup_io b) UPS_History_POWER
                  (startup_line (startup_stamp b) (self w)))%list /\
  In (BusWrite SET_SHUTDOWN_TIME_CMD) (pushes_events b (self w)) /\
  In (BusWrite WATCHDOG_RPI_CMD) (pushes_events b (self w)) /\
  In (BusWrite POST_SHUTDOWN_CMD) (pushes_events b (self w)) /\
  (forall x, opcode_r (shutdown_io b) = Exc x ->
     push_events SET_SHUTDOWN_TIME_CMD (SHUTDOWN_DELAY (self w))
       "Error de I/O al escribir el shutdown time: %s" (shutdown_io b)
     = [BusWrite SET_SHUTDOWN_TIME_CMD;
        Log ERROR "Error de I/O al escribir el shutdown time: %s"]).
Proof.
  intros Hen H1 H2 H3 w'. subst w'.
  rewrite (push_settings_run b w Hen H1 H2 H3). cbn [fst snd].
  split; [reflexivity|]. split; [reflexivity|]. split; [reflexivity|].
  unfold pushes_events. rewrite !in_app_iff.
  split; [left; apply In_push_opcode|].
  split; [right; left; apply In_push_opcode|].
  split; [right; right; apply In_push_opcode|].
  intros x Hx. unfold push_events. rewrite Hx.
  destruct H1 as [Ho _]. rewrite Hx in Ho. unfold raises_only in Ho.
  rewrite Ho. reflexivity.
Qed.

Lemma pushes_are_best_effort_witness :
  let g := load_config 0 (mkRaw 200 5 5 30 (Fin 60) true) in
  let down := mkPushIO (Exc OSError) (Ret tt) in
  let up := mkPushIO (Ret tt) (Ret tt) in
  let b := mkBoot (Ret tt) (Ret tt) (Ret tt) (Ret tt) (Ret tt) down up up
             "04-11-2026 10:00:00.000" (mkFileIO (Ret tt) (Ret tt) (Ret tt)) in
  fst (push_settings b (armed g)) = Ret tt /\
  trace (snd (push_settings b (armed g))) =
    [BusWrite 3; Log ERROR "Error de I/O al escribir el shutdown time: %s";
     BusWrite 4; Sleep 200; BusWrite 5;
     BusWrite 5; Sleep 200; BusWrite 30;
     FileOpen UPS_History_POWER;
     FileWrite UPS_History_POWER (startup_line "04-11-2026 10:00:00.000" g);
     FileClose UPS_History_POWER] /\
  push_events SET_SHUTDOWN_TIME_CMD 200
    "Error de I/O al escribir el shutdown time: %s" down
  = [BusWrite 3; Log ERROR "Error de I/O al escribir el shutdown time: %s"].
Proof.
  intros g down up b.
  assert (Hdown : push_ok down) by (split; [reflexivity | exact I]).
  assert (Hup : push_ok up) by (split; exact I).
  destruct (pushes_are_best_effort b (armed g) eq_refl Hdown Hup Hup)
    as (Hret & _ & Htrace & _ & _ & _ & Hfail).
  split; [exact Hret|]. split; [rewrite Htrace; reflexivity|].
  exact (Hfail OSError eq_refl).
Defined.

(** ** The start-up of [main] *)

Lemma setup_pins_run (b : boot) (w : world) :
  setup_pins b w =
    match pins_outcome b with
    | Ret _ => (Ret tt, arm w)
    | Exc x =>
        if isinstance x Exception then
          (Exc SystemExit,
           emit (Log CRITICAL "Error al configurar los pines GPIO: {e}")
             (if pulse_set_up b then arm w else w))
        else (Exc x, if pulse_set_up b then arm w else w)
    end.
Proof.
  unfold setup_pins, pins_outcome, pulse_set_up, arm.
  destruct w as [g p lk lm tr].
  destruct b as [sm [[]|x1] [[]|x2] [[]|x3] [[]|x4] io1 io2 io3 st fio];
    cbn [setmode_r setup_clock_r setup_pulse_r add_event_r];
    cbv beta iota zeta delta
      [try_except bind outside raise ret call log GPIO_setup_out];
    try destruct (isinstance x1 Exception);
    try destruct (isinstance x2 Exception);
    try destruct (isinstance x3 Exception);
    try destruct (isinstance x4 Exception);
    reflexivity.
Qed.

(** X7.  When the bus cannot be opened, [main] logs the error and returns
    normally: no pin is configured, no interrupt armed, nothing is pushed,
    the loop is never entered and [GPIO.cleanup] is not called. *)
Theorem main_without_bus (b : boot) (ticks : list tick) (w : world) (x : exn) :
  smbus_r b = Exc x ->
  isinstance x Exception = true ->
  main b ticks w =
    (Ret tt, emit (Log ERROR "Error al inicializar el bus I2C: %s") w).
Proof.
  intros Hbus Hx. unfold main, open_bus.
  cbv beta iota zeta delta [bind try_except outside ret log call].
  rewrite Hbus, Hx. reflexivity.
Qed.

Lemma main_without_bus_witness :
  let g := load_config 0 (mkRaw 60 5 5 30 (Fin 60) true) in
  let up := mkPushIO (Ret tt) (Ret tt) in
  let ok := mkFileIO (Ret tt) (Ret tt) (Ret tt) in
  let b := mkBoot (Exc OSError) (Ret tt) (Ret tt) (Ret tt) (Ret tt) up up up
             "04-11-2026 10:00:00.000" ok in
  let t := mkTick (mkBusIO (Ret tt) (Ret 200)) (mkBusIO (Ret tt) (Ret 1))
             0 "04-11-2026 10:00:00.000" ok "04-11-2026 10:00:00.001" ok
             (Ret tt) in
  main b [t; t] (power_on g) =
    (Ret tt, emit (Log ERROR "Error al inicializar el bus I2C: %s") (power_on g)).
Proof.
  intros g up ok b t.
  exact (main_without_bus b [t; t] (power_on g) OSError eq_refl eq_refl).
Defined.

(** X8.  When one of the four calls that configure the pins fails with an
    error, [main] logs it at the critical level and raises [SystemExit]:
    nothing is sent on the bus, no file is touched and the loop is never
    entered.  The pulse pin has been armed (output, high) exactly when the
    failure came after its set-up, that is from [GPIO.add_event_detect]. *)
Theorem main_pins_failure (b : boot) (ticks : list tick) (w : world) (x : exn) :
  smbus_r b = Ret tt ->
  pins_outcome b = Exc x ->
  isinstance x Exception = true ->
  main b ticks w =
    (Exc SystemExit,
     emit (Log CRITICAL "Error al configurar los pines GPIO: {e}")
       (if pulse_set_up b then arm w else w)) /\
  (pulse_set_up b = true <-> add_event_r b = Exc x /\ setup_pulse_r b = Ret tt
                             /\ setup_clock_r b = Ret tt /\ setmode_r b = Ret tt).
Proof.
  intros Hbus Hpins Hx. split.
  - unfold main, open_bus.
    cbv beta iota zeta delta [bind try_except outside ret].
    rewrite Hbus. cbv beta iota. rewrite setup_pins_run, Hpins, Hx. reflexivity.
  - unfold pins_outcome, pulse_set_up in *.
    destruct (setmode_r b) as [[]|x1]; [|split; [discriminate | intros (_ & _ & _ & H); discriminate H]].
    destruct (setup_clock_r b) as [[]|x2]; [|split; [discriminate | intros (_ & _ & H & _); discriminate H]].
    destruct (setup_pulse_r b) as [[]|x3]; [|split; [discriminate | intros (_ & H & _); discriminate H]].
    split; [intros _; repeat split; exact Hpins | reflexivity].
Qed.

Lemma main_pins_failure_witness :
  let g := load_config 0 (mkRaw 60 5 5 30 (Fin 60) true) in
  let up := mkPushIO (Ret tt) (Ret tt) in
  let ok := mkFileIO (Ret tt) (Ret tt) (Ret tt) in
  let b := mkBoot (Ret tt) (Ret tt) (Ret tt) (Ret tt) (Exc RuntimeError) up up up
             "04-11-2026 10:00:00.000" ok in
  fst (main b [] (power_on g)) = Exc SystemExit /\
  trace (snd (main b [] (power_on g))) =
    [GpioSetupOut true; Log CRITICAL "Error al configurar los pines GPIO: {e}"] /\
  pulse_pin (snd (main b [] (power_on g))) = mkPin OUT true.
Proof.
  intros g up ok b.
  destruct (main_pins_failure b [] (power_on g) RuntimeError eq_refl eq_refl eq_refl)
    as [Hmain _].
  rewrite Hmain. repeat split.
Defined.

Lemma main_after_pins (b : boot) (ticks : list tick) (w : world) :
  smbus_r b = Ret tt ->
  pins_outcome b = Ret tt ->
  main b ticks w =
    (push_settings b ;; sleep 15000 ;; steady_loop ticks) (arm w).
Proof.
  intros Hbus Hpins. unfold main, open_bus.
  cbv beta iota zeta delta [bind try_except outside ret].
  rewrite Hbus. cbv beta iota. rewrite setup_pins_run, Hpins. reflexivity.
Qed.

Lemma main_run (b : boot) (ticks : list tick) (w : world) :
  startup_ok b (self w) ->
  main b ticks w =
    steady_loop ticks
      (emit (Sleep 15000) (emits (startup_events b (self w)) (arm w))).
Proof.
  intros (Hbus & Hpins & Hpush). rewrite (main_after_pins b ticks w Hbus Hpins).
  unfold startup_events. destruct (I2C_SEND_ENABLED (self w)) eqn:Hen.
  - destruct (Hpush eq_refl) as (H1 & H2 & H3 & Hrec).
    unfold bind at 1. rewrite (push_settings_run b (arm w) Hen H1 H2 H3), Hrec.
    reflexivity.
  - unfold bind at 1. unfold push_settings.
    cbv beta iota zeta delta [bind get]. change (self (arm w)) with (self w).
    rewrite Hen. cbv beta iota zeta delta [ret sleep call bind emits].
    destruct w as [g p lk lm tr]. cbn [arm emit set_pulse_pin self pulse_pin locked last_mode trace].
    rewrite app_nil_r. reflexivity.
Qed.

(** X9.  When the start-up meets no failure, [main] arms the pulse pin as an
    output at level high before anything else, waits fifteen seconds after
    the pushes, and enters the loop; as [__init__] set [sqwave] to high, the
    pin drives the stored level when the loop is entered, and still does
    after any number of iterations, for as long as the loop has not been
    left (no clean-up among the calls): the state every run of the handler
    expects.  The mutex is not touched. *)
Theorem main_arms_the_heartbeat (b : boot) (ticks : list tick) (w : world) :
  startup_ok b (self w) ->
  sqwave (self w) = true ->
  let w1 := emit (Sleep 15000) (emits (startup_events b (self w)) (arm w)) in
  let w' := snd (main b ticks w) in
  main b ticks w = steady_loop ticks w1 /\
  pulse_pin w1 = mkPin OUT true /\
  driving w1 /\
  locked w' = locked w /\
  exists evs,
    trace w' = (trace w ++ evs)%list /\
    (~ In GpioCleanup evs -> pulse_pin w' = mkPin OUT true /\ driving w').
Proof.
  intros Hok Hsq w1 w'. subst w'. rewrite (main_run b ticks w Hok). fold w1.
  assert (Hpin1 : pulse_pin w1 = mkPin OUT true) by reflexivity.
  assert (Hsq1 : sqwave (self w1) = true) by exact Hsq.
  assert (Htr1 : trace w1 =
            (trace w ++ GpioSetupOut true :: startup_events b (self w)
               ++ [Sleep 15000])%list).
  { subst w1. destruct w as [g p lk lm tr].
    cbn [emit emits arm set_pulse_pin trace self].
    rewrite <- !app_assoc. reflexivity. }
  split; [reflexivity|]. split; [exact Hpin1|].
  split; [split; [reflexivity | rewrite Hsq1; reflexivity]|].
  destruct (steady_loop_until_cleanup ticks w1) as (K2 & K3 & body & Hb & Hcase).
  split; [exact K2|].
  destruct Hcase as [[Hbody Hpin] | Hclean].
  - exists (GpioSetupOut true :: startup_events b (self w)
              ++ [Sleep 15000] ++ body)%list.
    split.
    + rewrite Hbody, Htr1, <- !app_assoc. cbn [app]. rewrite <- !app_assoc.
      reflexivity.
    + intros _. rewrite Hpin, Hpin1. split; [reflexivity|].
      split; [rewrite Hpin, Hpin1; reflexivity|].
      rewrite Hpin, Hpin1, K3, Hsq1. reflexivity.
  - exists (GpioSetupOut true :: startup_events b (self w)
              ++ [Sleep 15000] ++ body ++ [GpioCleanup])%list.
    split.
    + rewrite Hclean, Htr1, <- !app_assoc. cbn [app]. rewrite <- !app_assoc.
      reflexivity.
    + intros Hno. exfalso. apply Hno. right.
      apply in_or_app. right. apply in_or_app. right.
      apply in_or_app. right. left. reflexivity.
Qed.

Lemma main_arms_the_heartbeat_witness :
  let g := load_config 0 (mkRaw 60 5 5 30 (Fin 60) true) in
  let up := mkPushIO (Ret tt) (Ret tt) in
  let ok := mkFileIO (Ret tt) (Ret tt) (Ret tt) in
  let b := mkBoot (Ret tt) (Ret tt) (Ret tt) (Ret tt) (Ret tt) up up up
             "04-11-2026 10:00:00.000" ok in
  let t := mkTick (mkBusIO (Ret tt) (Ret 200)) (mkBusIO (Ret tt) (Ret 1))
             100 "04-11-2026 10:00:15.000" ok "04-11-2026 10:00:15.001" ok
             (Ret tt) in
  driving (snd (main b [t; t] (power_on g))) /\
  pulse_pin (snd (main b [t; t] (power_on g))) = mkPin OUT true.
Proof.
  intros g up ok b t.
  assert (Hok : startup_ok b (self (power_on g))).
  { split; [reflexivity|]. split; [reflexivity|]. intros _.
    repeat split. }
  destruct (main_arms_the_heartbeat b [t; t] (power_on g) Hok eq_refl)
    as (_ & _ & _ & _ & evs & Htr & Hrun).
  assert (Hevs : evs = trace (snd (main b [t; t] (power_on g))))
    by (symmetry; exact Htr).
  assert (Hno : ~ In GpioCleanup evs).
  { rewrite Hevs. vm_compute. intuition discriminate. }
  destruct (Hrun Hno) as [Hpin Hdrv].
  split; [exact Hdrv | exact Hpin].
Defined.

(** X10.  With the serial push enabled, a failure to append the start-up
    record ends [main] with that exception right there: the fifteen seconds
    are not waited, the loop is never entered and [GPIO.cleanup] is not
    called, the pulse pin staying armed. *)
Theorem main_startup_record_failure
    (b : boot) (ticks : list tick) (w : world) (x : exn) :
  smbus_r b = Ret tt ->
  pins_outcome b = Ret tt ->
  I2C_SEND_ENABLED (self w) = true ->
  push_ok (shutdown_io b) -> push_ok (watchdog_io b) -> push_ok (post_io b) ->
  append_outcome (startup_io b) = Exc x ->
  main b ticks w =
    (Exc x,
     emits (pushes_events b (self w)
            ++ append_events (startup_io b) UPS_History_POWER
                 (startup_line (startup_stamp b) (self w)))
       (arm w)).
Proof.
  intros Hbus Hpins Hen H1 H2 H3 Hrec.
  rewrite (main_after_pins b ticks w Hbus Hpins).
  unfold bind at 1. rewrite (push_settings_run b (arm w) Hen H1 H2 H3), Hrec.
  reflexivity.
Qed.

Lemma main_startup_record_failure_witness :
  let g := load_config 0 (mkRaw 60 5 5 30 (Fin 60) true) in
  let up := mkPushIO (Ret tt) (Ret tt) in
  let ok := mkFileIO (Ret tt) (Ret tt) (Ret tt) in
  let b := mkBoot (Ret tt) (Ret tt) (Ret tt) (Ret tt) (Ret tt) up up up
             "04-11-2026 10:00:00.000" (mkFileIO (Exc OSError) (Ret tt) (Ret tt)) in
  let t := mkTick (mkBusIO (Ret tt) (Ret 200)) (mkBusIO (Ret tt) (Ret 1))
             100 "04-11-2026 10:00:15.000" ok "04-11-2026 10:00:15.001" ok
             (Ret tt) in
  fst (main b [t] (power_on g)) = Exc OSError /\
  trace (snd (main b [t] (power_on g))) =
    [GpioSetupOut true;
     BusWrite 3; Sleep 200; BusWrite 60;
     BusWrite 4; Sleep 200; BusWrite 5;
     BusWrite 5; Sleep 200; BusWrite 30;
     FileOpen UPS_History_POWER].
Proof.
  intros g up ok b t.
  assert (Hup : push_ok up) by (split; exact I).
  rewrite (main_startup_record_failure b [t] (power_on g) OSError
             eq_refl eq_refl eq_refl Hup Hup Hup eq_refl).
  split; reflexivity.
Defined.

(** ** Every call [main] makes *)

Lemma loop_call_main_call (ev : event) : loop_call ev = true -> main_call ev = true.
Proof.
  destruct ev; cbn; try (intros H; exact H); try discriminate.
  intros H. apply orb_true_iff in H.
  destruct H as [H|H]; apply Z.eqb_eq in H; subst; reflexivity.
Qed.

Lemma push_maintains (g : PiGuard) (cmd : Z) (field : PiGuard -> Z)
    (msg : string) (io : push_io) :
  0 <= cmd <= 255 ->
  0 <= field g <= 255 ->
  (forall w, same_settings g w -> field (self w) = field g) ->
  maintains (same_settings g) main_call
    (try_except
       (call (BusWrite cmd) (opcode_r io) ;;
        sleep 200 ;;
        value <- get (fun w => field (self w)) ;;
        call (BusWrite value) (value_r io))
       IOError
       (fun _ => log ERROR msg)).
Proof.
  intros Hcmd Hval Hfield.
  assert (E := same_settings_emit g).
  assert (Hbyte : forall z, 0 <= z <= 255 -> main_call (BusWrite z) = true).
  { intros z Hz. cbn. apply andb_true_iff. split; apply Z.leb_le; lia. }
  apply maintains_try_except.
  - apply maintains_bind; [apply maintains_call; [exact E | apply Hbyte, Hcmd]|].
    intros _. apply maintains_bind; [apply maintains_call; [exact E | reflexivity]|].
    intros _. apply maintains_bind_get. intros w0 Hw0.
    apply maintains_call; [exact E|]. apply Hbyte. rewrite (Hfield w0 Hw0). exact Hval.
  - intros x. apply maintains_call; [exact E | reflexivity].
Qed.

(** X11.  From a configuration loaded by [load_config], [main] never changes
    a setting, and every call it makes is one of: a log message, an access
    to a history file, a bus read, a bus write of a byte between 0 and 255,
    a sleep, the arming of the pulse pin at level high, the final clean-up.
    In particular it never calls the shutdown command, never takes the
    mutex and never reads or drives the pulse pin. *)
Theorem main_calls
    (t0 : Q) (rc : raw_config) (b : boot) (ticks : list tick) (w : world) :
  same_settings (load_config t0 rc) w ->
  let w' := snd (main b ticks w) in
  same_settings (load_config t0 rc) w' /\
  exists evs, trace w' = (trace w ++ evs)%list /\ forallb main_call evs = true.
Proof.
  set (g := load_config t0 rc). intros Hw. cbn zeta.
  assert (E := same_settings_emit g).
  assert (Hsd := int_clamp_spec MIN_SHUTDOWN_DELAY MAX_SHUTDOWN_DELAY
                   (raw_SHUTDOWN_DELAY rc)).
  assert (Hwd := int_clamp_spec MIN_WATCHDOG_RPI MAX_WATCHDOG_RPI
                   (raw_WATCHDOG_RPI rc)).
  assert (Hps := int_clamp_spec MIN_POST_SHUTDOWN MAX_POST_SHUTDOWN
                   (raw_POST_SHUTDOWN rc)).
  unfold MIN_SHUTDOWN_DELAY, MAX_SHUTDOWN_DELAY, MIN_WATCHDOG_RPI,
    MAX_WATCHDOG_RPI, MIN_POST_SHUTDOWN, MAX_POST_SHUTDOWN in *.
  destruct Hsd as (Hsd & _); [lia|].
  destruct Hwd as (Hwd & _); [lia|].
  destruct Hps as (Hps & _); [lia|].
  assert (Hm : maintains (same_settings g) main_call (main b ticks)).
  { unfold main. apply maintains_bind.
    - unfold open_bus. apply maintains_try_except.
      + apply maintains_bind; [apply maintains_outside|]. intros _. apply maintains_ret.
      + intros x. apply maintains_bind; [apply maintains_call; [exact E | reflexivity]|].
        intros _. apply maintains_ret.
    - intros go_on. destruct go_on; [|apply maintains_ret].
      apply maintains_bind.
      { unfold setup_pins. apply maintains_try_except.
        - apply maintains_bind; [apply maintains_outside|]. intros _.
          apply maintains_bind; [apply maintains_outside|]. intros _.
          apply maintains_bind.
          + destruct (setup_pulse_r b); [|apply maintains_raise].
            intros w0 Hw0. split; [exact Hw0|]. exists [GpioSetupOut true].
            split; reflexivity.
          + intros _. apply maintains_outside.
        - intros x. apply maintains_bind; [apply maintains_call; [exact E | reflexivity]|].
          intros _. apply maintains_raise. }
      intros _. apply maintains_bind.
      { unfold push_settings. apply maintains_bind; [apply maintains_get|].
        intros enabled. destruct enabled; [|apply maintains_ret].
        apply maintains_bind.
        { apply (push_maintains g SET_SHUTDOWN_TIME_CMD SHUTDOWN_DELAY);
            [unfold SET_SHUTDOWN_TIME_CMD; lia | cbn; unfold load_SHUTDOWN_DELAY,
               MIN_SHUTDOWN_DELAY, MAX_SHUTDOWN_DELAY; lia |].
          intros w0 H. apply H. }
        intros _. apply maintains_bind.
        { apply (push_maintains g WATCHDOG_RPI_CMD WATCHDOG_RPI);
            [unfold WATCHDOG_RPI_CMD; lia | cbn; unfold load_WATCHDOG_RPI,
               MIN_WATCHDOG_RPI, MAX_WATCHDOG_RPI; lia |].
          intros w0 H. apply H. }
        intros _. apply maintains_bind.
        { apply (push_maintains g POST_SHUTDOWN_CMD POST_SHUTDOWN);
            [unfold POST_SHUTDOWN_CMD; lia | cbn; unfold load_POST_SHUTDOWN,
               MIN_POST_SHUTDOWN, MAX_POST_SHUTDOWN; lia |].
          intros w0 H. apply H. }
        intros _. apply maintains_bind; [apply maintains_get|]. intros g0.
        apply maintains_with_open; [exact E | reflexivity | reflexivity|].
        apply maintains_call; [exact E | reflexivity]. }
      intros _. apply maintains_bind; [apply maintains_call; [exact E | reflexivity]|].
      intros _. apply (maintains_weaken _ loop_call main_call);
        [exact loop_call_main_call | apply steady_loop_maintains]. }
  exact (Hm w Hw).
Qed.

Lemma main_calls_witness :
  let g := load_config 0 (mkRaw 500 0 5 999 (Fin 60) true) in
  let up := mkPushIO (Ret tt) (Ret tt) in
  let ok := mkFileIO (Ret tt) (Ret tt) (Ret tt) in
  let b := mkBoot (Ret tt) (Ret tt) (Ret tt) (Ret tt) (Ret tt) up up up
             "04-11-2026 10:00:00.000" ok in
  let t := mkTick (mkBusIO (Ret tt) (Ret 200)) (mkBusIO (Ret tt) (Ret 1))
             100 "04-11-2026 10:00:15.000" ok "04-11-2026 10:00:15.001" ok
             (Exc KeyboardInterrupt) in
  forallb main_call (trace (snd (main b [t] (power_on g)))) = true /\
  In (BusWrite 235) (trace (snd (main b [t] (power_on g)))) /\
  In (BusWrite 254) (trace (snd (main b [t] (power_on g)))).
Proof.
  intros g up ok b t.
  assert (Hg : same_settings g (power_on g)) by (repeat split).
  destruct (main_calls 0 (mkRaw 500 0 5 999 (Fin 60) true) b [t] (power_on g) Hg)
    as (_ & evs & Htr & Hp).
  split; [rewrite Htr; exact Hp|].
  split; vm_compute; tauto.
Defined.

(** ** Leaving the loop *)

Lemma while_true_app (pre rest : list tick) (w : world) :
  while_true (pre ++ rest) w =
    match while_true pre w with
    | (Ret _, w') => while_true rest w'
    | (Exc x, w') => (Exc x, w')
    end.
Proof.
  revert w. induction pre as [|t pre IH]; intros w; [reflexivity|].
  cbn [app while_true]. unfold bind.
  destruct (loop_body t w) as [[u|x] w1]; [apply IH | reflexivity].
Qed.

(** X12.  When an iteration of the loop raises, the iterations after it are
    never run and the [finally] clause runs last: the clean-up message and
    [GPIO.cleanup].  A [KeyboardInterrupt] is logged and swallowed, so that
    [main] returns normally; any other exception goes on to the caller after
    the clean-up. *)
Theorem loop_exit_cleans_up
    (pre rest : list tick) (t : tick) (w : world) (x : exn) :
  let w1 := snd (while_true pre (set_last_mode None w)) in
  fst (while_true pre (set_last_mode None w)) = Ret tt ->
  fst (loop_body t w1) = Exc x ->
  steady_loop (pre ++ t :: rest) w =
    (if isinstance x KeyboardInterrupt then Ret tt else Exc x,
     emits ((if isinstance x KeyboardInterrupt
             then [Log INFO "Deteniendo el servicio Pi Guard..."] else [])
            ++ [Log INFO "Limpiando los pines GPIO..."; GpioCleanup])
       (snd (loop_body t w1))).
Proof.
  intros w1 Hpre Ht. subst w1. unfold steady_loop.
  unfold bind at 1, modify. rewrite while_true_app.
  destruct (while_true pre (set_last_mode None w)) as [[[]|y] w1];
    cbn [fst snd] in *; [|discriminate Hpre].
  cbn [while_true]. unfold bind at 1.
  destruct (loop_body t w1) as [[u|y] w2]; cbn [fst snd] in *; [discriminate Ht|].
  inversion Ht; subst y.
  unfold try_finally, try_except, raise.
  destruct (isinstance x KeyboardInterrupt); run_py; norm_trace; reflexivity.
Qed.

Lemma loop_exit_cleans_up_witness :
  let g := load_config 0 (mkRaw 60 5 5 30 (Fin 60) true) in
  let ok := mkFileIO (Ret tt) (Ret tt) (Ret tt) in
  let quiet := mkTick (mkBusIO (Exc OSError) (Ret 0)) (mkBusIO (Exc OSError) (Ret 0))
                 100 "04-11-2026 10:00:15.000" ok "04-11-2026 10:00:15.001" ok
                 (Ret tt) in
  let stop := mkTick (mkBusIO (Exc OSError) (Ret 0)) (mkBusIO (Exc OSError) (Ret 0))
                105 "04-11-2026 10:00:20.000" ok "04-11-2026 10:00:20.001" ok
                (Exc KeyboardInterrupt) in
  fst (steady_loop [quiet; stop; quiet] (armed g)) = Ret tt /\
  trace (snd (steady_loop [quiet; stop; quiet] (armed g))) =
    [BusWrite 1; Log ERROR "Error de I/O al leer el voltaje: %s";
     BusWrite 2; Log ERROR "Error de I/O al leer el modo: %s"; Sleep 5000;
     BusWrite 1; Log ERROR "Error de I/O al leer el voltaje: %s";
     BusWrite 2; Log ERROR "Error de I/O al leer el modo: %s"; Sleep 5000;
     Log INFO "Deteniendo el servicio Pi Guard...";
     Log INFO "Limpiando los pines GPIO..."; GpioCleanup].
Proof.
  intros g ok quiet stop.
  pose proof (loop_exit_cleans_up [quiet] [quiet] stop (armed g) KeyboardInterrupt
                eq_refl eq_refl) as Hexit.
  change ([quiet] ++ [stop; quiet])%list with [quiet; stop; quiet] in Hexit.
  rewrite Hexit. split; reflexivity.
Defined.

(** ** The loop without the serial push *)

Lemma loop_body_disabled (t : tick) (w : world) :
  I2C_SEND_ENABLED (self w) = false ->
  loop_body t w = (sleep_r t, emit (tick_sleep w) w).
Proof.
  intros Hen. unfold loop_body, tick_sleep. destruct w as [g p lk lm tr].
  cbn [self] in Hen. step_py. rewrite Hen. unfold call. step_py. reflexivity.
Qed.

(** X13.  With the serial push disabled, the loop does nothing but sleep:
    over any run it makes no bus call, touches no file, and leaves the
    settings, the cursor and the recorded mode as they are; and
    [push_settings] does nothing at all. *)
Theorem loop_without_serial_push (b : boot) (ticks : list tick) (w : world) :
  I2C_SEND_ENABLED (self w) = false ->
  let w' := snd (while_true ticks w) in
  push_settings b w = (Ret tt, w) /\
  self w' = self w /\
  last_mode w' = last_mode w /\
  exists n, (n <= List.length ticks)%nat /\
            trace w' = (trace w ++ repeat (tick_sleep w) n)%list.
Proof.
  intros Hen. cbn zeta. split.
  { unfold push_settings. cbv beta iota zeta delta [bind get]. rewrite Hen.
    reflexivity. }
  revert w Hen. induction ticks as [|t rest IH]; intros w Hen.
  - cbn [while_true ret snd]. repeat split. exists 0%nat.
    cbn [repeat]. rewrite app_nil_r. split; [apply Nat.le_refl | reflexivity].
  - cbn [while_true]. unfold bind. rewrite (loop_body_disabled t w Hen).
    destruct (sleep_r t) as [[]|x].
    + destruct (IH (emit (tick_sleep w) w) Hen) as (Hs & Hl & n & Hn & Htr).
      split; [exact Hs|]. split; [exact Hl|].
      exists (S n). split; [cbn [List.length]; lia|].
      rewrite Htr. cbn [emit trace repeat]. rewrite <- app_assoc. reflexivity.
    + cbn [snd]. repeat split. exists 1%nat.
      split; [cbn [List.length]; lia | reflexivity].
Qed.

Lemma loop_without_serial_push_witness :
  let g := load_config 0 (mkRaw 60 5 5 30 (Fin 60) false) in
  let ok := mkFileIO (Ret tt) (Ret tt) (Ret tt) in
  let t := mkTick (mkBusIO (Ret tt) (Ret 200)) (mkBusIO (Ret tt) (Ret 1))
             100 "04-11-2026 10:00:15.000" ok "04-11-2026 10:00:15.001" ok
             (Ret tt) in
  trace (snd (while_true [t; t; t] (armed g))) = [Sleep 5000; Sleep 5000; Sleep 5000] /\
  last_mode (snd (while_true [t; t; t] (armed g))) = None.
Proof.
  intros g ok t.
  destruct (loop_without_serial_push
              (mkBoot (Ret tt) (Ret tt) (Ret tt) (Ret tt) (Ret tt)
                 (mkPushIO (Ret tt) (Ret tt)) (mkPushIO (Ret tt) (Ret tt))
                 (mkPushIO (Ret tt) (Ret tt)) "04-11-2026 10:00:00.000" ok)
              [t; t; t] (armed g) eq_refl)
    as (_ & _ & Hlast & _).
  split; [reflexivity | exact Hlast].
Defined.

(** ** An iteration that is due *)

(** X14.  In an iteration that has both values and is due, the cursor is
    set to [now] and the periodic-sample log is opened in any case, and its
    line is written as soon as the file opens.  When the mode read differs
    from the recorded one (or none is recorded) the power-event log is opened
    as well, and the mode is recorded once [write] has returned; otherwise
    the power-event log is not touched and the recorded mode stays.  The
    iteration ends with its sleep, or with the error of the sample append. *)
Theorem due_tick_records (t : tick) (w : world) (v m : Z) :
  I2C_SEND_ENABLED (self w) = true ->
  read_outcome (voltage_bus t) = Ret (Some v) ->
  read_outcome (mode_bus t) = Ret (Some m) ->
  history_due (now t) (self w) = true ->
  raises_only Exception (append_outcome (power_io t)) ->
  let w' := snd (loop_body t w) in
  let evs := new_events w w' in
  history_write (self w') = now t /\
  In (FileOpen UPS_History) evs /\
  (open_r (history_io t) = Ret tt ->
   In (FileWrite UPS_History (sample_line (history_stamp t) v m)) evs) /\
  (mode_changed (last_mode w) m = true ->
   In (FileOpen UPS_History_POWER) evs /\
   (write_returned (power_io t) = true -> last_mode w' = Some m)) /\
  (mode_changed (last_mode w) m = false ->
   last_mode w' = last_mode w /\ ~ In (FileOpen UPS_History_POWER) evs) /\
  fst (loop_body t w) =
    match append_outcome (history_io t) with
    | Ret _ => sleep_r t
    | Exc x => Exc x
    end.
Proof.
  intros Hen Hv Hm Hdue Hexc w' evs. subst evs w'.
  rewrite (loop_body_due t w v m Hen Hv Hm Hdue Hexc). cbn [fst snd].
  assert (Hev : new_events w (after_due_tick t v m w) =
                (tick_reads t ++ power_events t v m w
                 ++ append_events (history_io t) UPS_History
                      (sample_line (history_stamp t) v m)
                 ++ match append_outcome (history_io t) with
                    | Ret _ => [tick_sleep w]
                    | Exc _ => []
                    end)%list).
  { unfold after_due_tick. apply new_events_emits. }
  rewrite Hev. clear Hev.
  assert (Hreads : forall f, ~ In (FileOpen f) (tick_reads t)).
  { intros f Hin.
    apply (no_file_event_In _ _ (tick_reads_no_file t)) in Hin. discriminate. }
  split; [reflexivity|]. split; [|split; [|split; [|split]]].
  - rewrite !in_app_iff. right; right; left. left. reflexivity.
  - intros Hopen. rewrite !in_app_iff. right; right; left.
    unfold append_events. rewrite Hopen. right; left. reflexivity.
  - intros Hch. split.
    + rewrite !in_app_iff. right; left. unfold power_events. rewrite Hch.
      apply in_or_app. left. left. reflexivity.
    + intros Hwr. unfold after_due_tick. cbn [last_mode]. rewrite Hch, Hwr.
      reflexivity.
  - intros Hch. split.
    + unfold after_due_tick. cbn [last_mode]. rewrite Hch. reflexivity.
    + unfold power_events. rewrite Hch. rewrite !in_app_iff.
      intros [H|[H|[H|H]]].
      * exact (Hreads _ H).
      * exact H.
      * unfold append_events in H. destruct H as [H|H]; [discriminate H|].
        destruct (open_r (history_io t)); cbn in H; intuition discriminate.
      * unfold tick_sleep in H.
        destruct (append_outcome (history_io t)); cbn in H; intuition discriminate.
  - reflexivity.
Qed.

Lemma due_tick_records_witness :
  let g := load_config 0 (mkRaw 60 5 5 30 (Fin 60) true) in
  let ok := mkFileIO (Ret tt) (Ret tt) (Ret tt) in
  let t := mkTick (mkBusIO (Ret tt) (Ret 200)) (mkBusIO (Ret tt) (Ret 1))
             100 "04-11-2026 10:00:15.000" ok "04-11-2026 10:00:15.001" ok
             (Ret tt) in
  let t' := mkTick (mkBusIO (Ret tt) (Ret 201)) (mkBusIO (Ret tt) (Ret 1))
              160 "04-11-2026 10:01:15.000" ok "04-11-2026 10:01:15.001" ok
              (Ret tt) in
  let w1 := snd (loop_body t (armed g)) in
  history_write (self w1) = 100%Q /\
  last_mode w1 = Some 1 /\
  last_mode (snd (loop_body t' w1)) = Some 1 /\
  ~ In (FileOpen UPS_History_POWER) (new_events w1 (snd (loop_body t' w1))).
Proof.
  intros g ok t t' w1.
  destruct (due_tick_records t (armed g) 200 1 eq_refl eq_refl eq_refl eq_refl I)
    as (Hcur & _ & _ & Hchanged & _).
  destruct (Hchanged eq_refl) as [_ Hrec].
  assert (Hlast : last_mode w1 = Some 1) by (apply Hrec; reflexivity).
  destruct (due_tick_records t' w1 201 1 eq_refl eq_refl eq_refl eq_refl I)
    as (_ & _ & _ & _ & Hsame & _).
  destruct (Hsame eq_refl) as [Hkeep Hnone].
  split; [exact Hcur|]. split; [exact Hlast|].
  split; [rewrite Hkeep; exact Hlast | exact Hnone].
Defined.

(** ** The first record *)

(** X15.  [__init__] sets the cursor to sixty seconds before its clock
    reading [t0], so an iteration at clock reading [now] is due exactly when
    the loaded frequency is at most [now - t0 + 60]: with a frequency of at
    most sixty seconds the very first iteration records, with a larger one
    the first record waits until [FREC_HISTORY - 60] seconds after [t0]. *)
Theorem first_record_due (t0 now q : Q) (rc : raw_config) :
  raw_FREC_HISTORY rc = Fin q ->
  (20 <= q <= 3600)%Q ->
  (history_due now (load_config t0 rc) = true <-> (q <= now - t0 + 60)%Q) /\
  ((q <= 60)%Q -> (t0 <= now)%Q -> history_due now (load_config t0 rc) = true).
Proof.
  intros Hraw [Hlo Hhi].
  assert (Hiff : history_due now (load_config t0 rc) = true
                 <-> (q <= now - t0 + 60)%Q).
  { unfold history_due. cbn [load_config history_write FREC_HISTORY].
    rewrite Hraw, load_FREC_HISTORY_Fin.
    destruct (Qlt_bool 3600 q) eqn:E1.
    { apply Qlt_bool_true in E1. lra. }
    destruct (Qlt_bool 20 q) eqn:E2.
    - unfold num_ge, num_le. cbn [float_of_num float_le].
      rewrite Qle_bool_iff. split; intros H; lra.
    - apply Qlt_bool_false in E2. unfold num_ge, num_le.
      cbn [float_of_num float_le]. rewrite Qle_bool_iff.
      change (inject_Z 20) with 20%Q. split; intros H; lra. }
  split; [exact Hiff|]. intros Hq Hnow. apply Hiff. lra.
Qed.

Lemma first_record_due_witness :
  history_due 15 (load_config 0 (mkRaw 60 5 5 30 (Fin 60) true)) = true /\
  history_due 15 (load_config 0 (mkRaw 60 5 5 30 (Fin 3600) true)) = false.
Proof.
  destruct (first_record_due 0 15 60 (mkRaw 60 5 5 30 (Fin 60) true) eq_refl)
    as [_ Hnow]; [split; discriminate|].
  destruct (first_record_due 0 15 3600 (mkRaw 60 5 5 30 (Fin 3600) true) eq_refl)
    as [Hiff _]; [split; discriminate|].
  split.
  - apply Hnow; discriminate.
  - destruct (history_due 15 (load_config 0 (mkRaw 60 5 5 30 (Fin 3600) true)))
      eqn:E; [|reflexivity].
    exfalso. destruct Hiff as [Hiff _]. specialize (Hiff eq_refl).
    revert Hiff. vm_compute. intros H. apply H. reflexivity.
Defined.

(** ** What the start-up record can show *)


(** * The configuration file *)

Local Open Scope list_scope.

(** ** Texts *)

Lemma pystr_eqb_eq (a b : pystr) : pystr_eqb a b = true <-> a = b.
Proof.
  revert b. induction a as [|x a IH]; intros [|y b]; cbn; try (split; congruence).
  rewrite andb_true_iff, Ascii.eqb_eq, IH. split.
  - intros [-> ->]. reflexivity.
  - intros H. inversion H. split; reflexivity.
Qed.

Lemma pystr_eqb_refl (a : pystr) : pystr_eqb a a = true.
Proof. apply pystr_eqb_eq. reflexivity. Qed.

Lemma pystr_eqb_neq (a b : pystr) : pystr_eqb a b = false <-> a <> b.
Proof.
  split.
  - intros H Heq. apply pystr_eqb_eq in Heq. congruence.
  - intros H. destruct (pystr_eqb a b) eqn:E; [|reflexivity].
    apply pystr_eqb_eq in E. contradiction.
Qed.

Lemma lstrip_idem (s : pystr) : lstrip (lstrip s) = lstrip s.
Proof.
  induction s as [|c s IH]; [reflexivity|]. cbn [lstrip].
  destruct (is_space c) eqn:E; [exact IH|]. cbn [lstrip]. rewrite E. reflexivity.
Qed.

Lemma lstrip_app_nonspace (x y : pystr) (c : ascii) :
  is_space c = false -> lstrip (x ++ c :: y) = (lstrip x ++ c :: y)%list.
Proof.
  intros Hc. induction x as [|d x IH]; cbn [app lstrip].
  - rewrite Hc. reflexivity.
  - destruct (is_space d); [exact IH | reflexivity].
Qed.

Lemma lstrip_app_keep (a b : pystr) :
  lstrip a <> [] -> lstrip (a ++ b) = (lstrip a ++ b)%list.
Proof.
  induction a as [|d a IH]; cbn [app lstrip]; [congruence|].
  destruct (is_space d); [exact IH | reflexivity].
Qed.

Lemma lstrip_app_gone (a b : pystr) :
  lstrip a = [] -> lstrip (a ++ b) = lstrip b.
Proof.
  induction a as [|d a IH]; cbn [app lstrip]; [reflexivity|].
  destruct (is_space d); [exact IH | discriminate].
Qed.

Lemma lstrip_incl (s : pystr) (c : ascii) : In c (lstrip s) -> In c s.
Proof.
  induction s as [|d s IH]; cbn [lstrip]; [tauto|].
  destruct (is_space d); [intros H; right; apply IH, H | tauto].
Qed.

Lemma rstrip_incl (s : pystr) (c : ascii) : In c (rstrip s) -> In c s.
Proof.
  unfold rstrip. intros H. apply in_rev in H. apply lstrip_incl in H.
  apply in_rev in H. exact H.
Qed.

Lemma strip_incl (s : pystr) (c : ascii) : In c (strip s) -> In c s.
Proof. unfold strip. intros H. apply lstrip_incl, rstrip_incl, H. Qed.

Lemma rstrip_idem (s : pystr) : rstrip (rstrip s) = rstrip s.
Proof. unfold rstrip. rewrite rev_involutive, lstrip_idem. reflexivity. Qed.

Lemma rstrip_app_nonspace (x y : pystr) (c : ascii) :
  is_space c = false -> rstrip (x ++ c :: y) = (x ++ c :: rstrip y)%list.
Proof.
  intros Hc. unfold rstrip. rewrite rev_app_distr. cbn [rev].
  rewrite <- app_assoc. cbn [app]. rewrite (lstrip_app_nonspace _ _ _ Hc).
  rewrite rev_app_distr. cbn [rev]. rewrite rev_involutive, <- app_assoc.
  reflexivity.
Qed.

Lemma rstrip_app_keep (a b : pystr) :
  rstrip b <> [] -> rstrip (a ++ b) = (a ++ rstrip b)%list.
Proof.
  intros Hb. unfold rstrip in *. rewrite rev_app_distr.
  rewrite lstrip_app_keep.
  - rewrite rev_app_distr, rev_involutive. reflexivity.
  - intros H. apply Hb. rewrite H. reflexivity.
Qed.

Lemma rstrip_app_gone (a b : pystr) :
  rstrip b = [] -> rstrip (a ++ b) = rstrip a.
Proof.
  intros Hb. unfold rstrip in *. rewrite rev_app_distr.
  rewrite lstrip_app_gone; [reflexivity|].
  apply (f_equal (@rev ascii)) in Hb. rewrite rev_involutive in Hb. exact Hb.
Qed.

Lemma lstrip_length (s : pystr) : (List.length (lstrip s) <= List.length s)%nat.
Proof.
  induction s as [|d s IH]; cbn [lstrip]; [apply Nat.le_refl|].
  destruct (is_space d); cbn [List.length]; lia.
Qed.

(** A text that [lstrip] leaves alone is empty or starts with a character
    that is not a space. *)
Lemma lstrip_fixed_head (c : ascii) (r : pystr) :
  lstrip (c :: r) = c :: r -> is_space c = false.
Proof.
  cbn [lstrip]. destruct (is_space c); [|reflexivity]. intros H.
  assert (Hlen := lstrip_length r). rewrite H in Hlen.
  cbn [List.length] in Hlen. lia.
Qed.

Lemma rstrip_cons_nonspace (c : ascii) (r : pystr) :
  is_space c = false -> rstrip (c :: r) = c :: rstrip r.
Proof. intros Hc. exact (rstrip_app_nonspace [] r c Hc). Qed.

(** What [strip] gives is left alone by [lstrip] and by [rstrip]. *)
Lemma lstrip_strip (s : pystr) : lstrip (strip s) = strip s.
Proof.
  unfold strip. assert (Hfix := lstrip_idem s).
  destruct (lstrip s) as [|c r]; [reflexivity|].
  assert (Hc := lstrip_fixed_head c r Hfix).
  rewrite (rstrip_cons_nonspace c r Hc). cbn [lstrip]. rewrite Hc. reflexivity.
Qed.

Lemma rstrip_strip (s : pystr) : rstrip (strip s) = strip s.
Proof. unfold strip. apply rstrip_idem. Qed.

Lemma strip_idem (s : pystr) : strip (strip s) = strip s.
Proof. unfold strip at 1. rewrite lstrip_strip. apply rstrip_strip. Qed.

Lemma equals_not_space : is_space EQUALS = false.
Proof. reflexivity. Qed.

Lemma strip_around_equals (a b : pystr) :
  strip (a ++ EQUALS :: b) = (lstrip a ++ EQUALS :: rstrip b)%list.
Proof.
  unfold strip. rewrite (lstrip_app_nonspace _ _ _ equals_not_space).
  apply (rstrip_app_nonspace _ _ _ equals_not_space).
Qed.

(** ** Splitting *)

Lemma py_split_length (sep : ascii) (s : pystr) :
  List.length (py_split sep s) = S (count_occ ascii_dec s sep).
Proof.
  induction s as [|c s IH]; [reflexivity|]. cbn [py_split count_occ].
  destruct (Ascii.eqb c sep) eqn:E.
  - apply Ascii.eqb_eq in E. subst c.
    destruct (ascii_dec sep sep); [|contradiction]. cbn [List.length].
    rewrite IH. reflexivity.
  - apply Ascii.eqb_neq in E. destruct (ascii_dec c sep); [contradiction|].
    destruct (py_split sep s) as [|p ps]; [discriminate IH | exact IH].
Qed.

Lemma py_split_none (sep : ascii) (s : pystr) :
  ~ In sep s -> py_split sep s = [s].
Proof.
  induction s as [|c s IH]; intros Hin; [reflexivity|]. cbn [py_split].
  destruct (Ascii.eqb c sep) eqn:E.
  - apply Ascii.eqb_eq in E. subst c. exfalso. apply Hin. left. reflexivity.
  - rewrite IH; [reflexivity|]. intros H. apply Hin. right. exact H.
Qed.

Lemma py_split_one (sep : ascii) (a b : pystr) :
  ~ In sep a -> ~ In sep b -> py_split sep (a ++ sep :: b) = [a; b].
Proof.
  intros Ha Hb. induction a as [|c a IH]; cbn [app py_split].
  - rewrite Ascii.eqb_refl, (py_split_none sep b Hb). reflexivity.
  - destruct (Ascii.eqb c sep) eqn:E.
    + apply Ascii.eqb_eq in E. subst c. exfalso. apply Ha. left. reflexivity.
    + rewrite IH; [reflexivity|]. intros H. apply Ha. right. exact H.
Qed.

Lemma py_split_pieces (sep : ascii) (s : pystr) :
  Forall (fun piece => ~ In sep piece) (py_split sep s).
Proof.
  induction s as [|c s IH]; cbn [py_split].
  - constructor; [tauto | constructor].
  - destruct (Ascii.eqb c sep) eqn:E.
    + constructor; [tauto | exact IH].
    + apply Ascii.eqb_neq in E.
      destruct (py_split sep s) as [|p ps]; [constructor; [|constructor]|].
      * intros [H|H]; [congruence | contradiction].
      * inversion IH; subst. constructor; [|assumption].
        intros [H|H]; [congruence | contradiction].
Qed.

(** ** Lines *)

Lemma count_equals_lstrip (s : pystr) : count_equals (lstrip s) = count_equals s.
Proof.
  unfold count_equals. induction s as [|d s IH]; [reflexivity|]. cbn [lstrip].
  destruct (is_space d) eqn:E; [|reflexivity].
  rewrite IH. cbn [count_occ]. destruct (ascii_dec d EQUALS) as [->|]; [|reflexivity].
  discriminate E.
Qed.

Lemma count_equals_rev (s : pystr) : count_equals (rev s) = count_equals s.
Proof.
  unfold count_equals. induction s as [|d s IH]; [reflexivity|].
  cbn [rev]. rewrite count_occ_app, IH. cbn [count_occ].
  destruct (ascii_dec d EQUALS); lia.
Qed.

Lemma count_equals_strip (s : pystr) : count_equals (strip s) = count_equals s.
Proof.
  unfold strip, rstrip.
  rewrite count_equals_rev, count_equals_lstrip, count_equals_rev.
  apply count_equals_lstrip.
Qed.

Lemma parse_config_well_formed (lines : list pystr) (vars : dict) :
  parse_config lines vars <> None <-> well_formed lines.
Proof.
  unfold well_formed. revert vars.
  induction lines as [|line rest IH]; intros vars; cbn [parse_config].
  - split; [constructor | discriminate].
  - destruct (classify line) eqn:E.
    + rewrite IH. split.
      * intros H. constructor; [congruence | exact H].
      * intros H. inversion H; assumption.
    + rewrite IH. split.
      * intros H. constructor; [congruence | exact H].
      * intros H. inversion H; assumption.
    + split; [congruence|]. intros H. inversion H; subst. congruence.
Qed.

(** X17.  A line of the configuration file is skipped exactly when it
    starts with ["#"] or holds nothing but white space.  Any other line is
    accepted exactly when it holds one ["="], no more and no less; otherwise
    the unpacking raises [ValueError].  The file as a whole is read without
    error exactly when none of its lines is refused, wherever the line
    stands. *)
Theorem one_equals_per_line (line : pystr) (lines : list pystr) (vars : dict) :
  (classify line = Skipped <->
   startswith HASH line = true \/ strip line = []) /\
  (classify line = Malformed <->
   startswith HASH line = false /\ strip line <> [] /\
   count_equals line <> 1%nat) /\
  (parse_config lines vars = None <->
   exists bad, In bad lines /\ classify bad = Malformed).
Proof.
  assert (Hpieces : forall s,
             match py_split EQUALS s with
             | [_; _] => count_equals s = 1%nat
             | _ => count_equals s <> 1%nat
             end).
  { intros s. assert (H := py_split_length EQUALS s).
    fold (count_equals s) in H.
    destruct (py_split EQUALS s) as [|a [|b [|c l]]]; cbn [List.length] in H; lia. }
  split; [|split].
  - unfold classify. destruct (startswith HASH line).
    + cbn [orb]. split; [intros _; left; reflexivity | reflexivity].
    + cbn [orb]. destruct (strip line) as [|c r] eqn:E.
      * split; [intros _; right; reflexivity | reflexivity].
      * split.
        -- destruct (py_split EQUALS (c :: r)) as [|a [|b [|d l]]]; discriminate.
        -- intros [H|H]; discriminate H.
  - unfold classify. rewrite <- (count_equals_strip line).
    destruct (startswith HASH line).
    + cbn [orb]. split; [discriminate | intros (H & _); discriminate H].
    + cbn [orb]. destruct (strip line) as [|c r] eqn:E.
      * split; [discriminate | intros (_ & H & _); congruence].
      * specialize (Hpieces (c :: r)).
        destruct (py_split EQUALS (c :: r)) as [|a [|b [|d l]]].
        -- split; [intros _; repeat split; [discriminate | exact Hpieces] | reflexivity].
        -- split; [intros _; repeat split; [discriminate | exact Hpieces] | reflexivity].
        -- split; [discriminate | intros (_ & _ & H); contradiction].
        -- split; [intros _; repeat split; [discriminate | exact Hpieces] | reflexivity].
  - split.
    + intros Hnone.
      destruct (Exists_dec (fun l => classify l = Malformed) lines) as [Hex|Hno].
      { intros l. destruct (classify l); [right | right | left];
          congruence. }
      * apply Exists_exists in Hex. exact Hex.
      * exfalso. apply (proj2 (parse_config_well_formed lines vars)); [|exact Hnone].
        unfold well_formed. apply Forall_forall. intros l Hin Hbad.
        apply Hno. apply Exists_exists. exists l. split; assumption.
    + intros (bad & Hin & Hbad).
      destruct (parse_config lines vars) eqn:E; [|reflexivity]. exfalso.
      assert (Hwf : well_formed lines).
      { apply (parse_config_well_formed lines vars). congruence. }
      unfold well_formed in Hwf. rewrite Forall_forall in Hwf.
      exact (Hwf bad Hin Hbad).
Qed.

Lemma one_equals_per_line_witness :
  classify (txt "SHUTDOWN_DELAY = 60 = 61") = Malformed /\
  classify (txt "SHUTDOWN_DELAY 60") = Malformed /\
  parse_config [txt "# comment"; txt "WATCHDOG_RPI = 5"; txt "SHUTDOWN_DELAY 60"] []
  = None.
Proof.
  destruct (one_equals_per_line (txt "SHUTDOWN_DELAY = 60 = 61") [] [])
    as (_ & Htwo & _).
  destruct (one_equals_per_line (txt "SHUTDOWN_DELAY 60")
              [txt "# comment"; txt "WATCHDOG_RPI = 5"; txt "SHUTDOWN_DELAY 60"] [])
    as (_ & Hnone & Hfile).
  assert (H2 : classify (txt "SHUTDOWN_DELAY = 60 = 61") = Malformed).
  { apply Htwo. repeat split; [discriminate | vm_compute; discriminate]. }
  assert (H0 : classify (txt "SHUTDOWN_DELAY 60") = Malformed).
  { apply Hnone. repeat split; [discriminate | vm_compute; discriminate]. }
  split; [exact H2|]. split; [exact H0|].
  apply Hfile. exists (txt "SHUTDOWN_DELAY 60").
  split; [right; right; left; reflexivity | exact H0].
Defined.

(** ** Reading and writing back *)

Lemma parse_config_assignments (lines : list pystr) (vars : dict) :
  well_formed lines ->
  parse_config lines vars = Some (rev (assignments lines) ++ vars).
Proof.
  unfold well_formed. revert vars.
  induction lines as [|line rest IH]; intros vars Hwf; [reflexivity|].
  inversion Hwf as [|? ? Hline Hrest]; subst. cbn [parse_config assignments].
  destruct (classify line) as [|k v|]; [apply IH, Hrest | | congruence].
  rewrite (IH _ Hrest). cbn [rev]. rewrite <- app_assoc. reflexivity.
Qed.

Lemma rewrite_config_rewritten (vars : dict) (lines : list pystr) :
  well_formed lines -> rewrite_config vars lines = Some (rewritten vars lines).
Proof.
  unfold well_formed, rewritten.
  induction lines as [|line rest IH]; intros Hwf; [reflexivity|].
  inversion Hwf as [|? ? Hline Hrest]; subst. cbn [rewrite_config map].
  rewrite (IH Hrest). unfold rewrite_line, written.
  destruct (classify line); [reflexivity | reflexivity | congruence].
Qed.

Lemma classify_assign_clean (line key value : pystr) :
  classify line = Assign key value -> clean key /\ clean value.
Proof.
  unfold classify.
  destruct (startswith HASH line || match strip line with [] => true | _ => false end);
    [discriminate|].
  assert (Hp := py_split_pieces EQUALS (strip line)).
  destruct (py_split EQUALS (strip line)) as [|a [|b [|c l]]]; try discriminate.
  intros H. inversion H; subst. inversion Hp as [|? ? Ha Hp']; subst.
  inversion Hp' as [|? ? Hb _]; subst.
  split; (split; [apply lstrip_strip | split; [apply rstrip_strip|]]).
  - intros Hin. apply Ha. apply strip_incl, Hin.
  - intros Hin. apply Hb. apply strip_incl, Hin.
Qed.

Lemma strip_key_space (k : pystr) :
  clean k -> strip (lstrip (k ++ txt " ")) = k.
Proof.
  intros (Hl & Hr & _). unfold strip. rewrite lstrip_idem.
  destruct k as [|c r]; [reflexivity|].
  assert (Hc := lstrip_fixed_head c r Hl).
  rewrite lstrip_app_keep; [|rewrite Hl; discriminate]. rewrite Hl.
  rewrite rstrip_app_gone; [exact Hr | reflexivity].
Qed.

Lemma strip_value_newline (v : pystr) :
  clean v -> strip (rstrip (txt " " ++ v ++ txt NL)) = v.
Proof.
  intros (Hl & Hr & _). destruct v as [|c r]; [reflexivity|].
  rewrite app_assoc. rewrite rstrip_app_gone; [|reflexivity].
  rewrite rstrip_app_keep; [|rewrite Hr; discriminate]. rewrite Hr.
  unfold strip. cbn [txt list_ascii_of_string app].
  change (lstrip (" "%char :: c :: r)) with (lstrip (c :: r)).
  rewrite Hl. exact Hr.
Qed.

Lemma classify_written (k v : pystr) :
  clean k -> clean v -> startswith HASH k = false ->
  classify (written k v) = Assign k v.
Proof.
  intros Hk Hv Hhash. unfold classify, written.
  assert (Hline : k ++ txt " = " ++ v ++ txt NL
                  = (k ++ txt " ") ++ EQUALS :: (txt " " ++ v ++ txt NL)).
  { rewrite <- app_assoc. reflexivity. }
  assert (Hstart : startswith HASH (k ++ txt " = " ++ v ++ txt NL) = false).
  { destruct k as [|c r]; [reflexivity|]. cbn [app] in *. cbn [HASH txt list_ascii_of_string startswith] in *.
    rewrite andb_true_r in *. exact Hhash. }
  rewrite Hstart, Hline, strip_around_equals. cbn [orb].
  destruct Hk as (Hkl & Hkr & Hke). destruct Hv as (Hvl & Hvr & Hve).
  assert (Hne : lstrip (k ++ txt " ") ++ EQUALS :: rstrip (txt " " ++ v ++ txt NL) <> []).
  { intros H. apply app_eq_nil in H. destruct H as [_ H]. discriminate H. }
  destruct (lstrip (k ++ txt " ") ++ EQUALS :: rstrip (txt " " ++ v ++ txt NL))
    as [|x xs] eqn:E; [congruence|]. rewrite <- E. clear E Hne.
  rewrite py_split_one.
  - rewrite strip_key_space, strip_value_newline; repeat split; assumption.
  - intros Hin. apply lstrip_incl in Hin. apply in_app_or in Hin.
    destruct Hin as [Hin|Hin]; [exact (Hke Hin)|].
    cbn in Hin. destruct Hin as [Hin|Hin]; [discriminate Hin | exact Hin].
  - intros Hin. apply rstrip_incl in Hin. apply in_app_or in Hin.
    destruct Hin as [Hin|Hin].
    { cbn in Hin. destruct Hin as [Hin|Hin]; [discriminate Hin | exact Hin]. }
    apply in_app_or in Hin. destruct Hin as [Hin|Hin]; [exact (Hve Hin)|].
    cbn in Hin. destruct Hin as [Hin|Hin]; [discriminate Hin | exact Hin].
Qed.

Lemma dict_get_In (k v : pystr) (d : dict) :
  In (k, v) d -> dict_get k d <> None.
Proof.
  induction d as [|[k' v'] d IH]; cbn [In dict_get]; [tauto|].
  intros [H|H].
  - inversion H; subst. rewrite pystr_eqb_refl. discriminate.
  - destruct (pystr_eqb k k'); [discriminate | apply IH, H].
Qed.

Lemma dict_get_Some_In (k v : pystr) (d : dict) :
  dict_get k d = Some v -> In (k, v) d.
Proof.
  induction d as [|[k' v'] d IH]; cbn [In dict_get]; [discriminate|].
  destruct (pystr_eqb k k') eqn:E.
  - apply pystr_eqb_eq in E. subst k'. intros H. inversion H; subst. left. reflexivity.
  - intros H. right. apply IH, H.
Qed.

(** Replacing every value of a part [l] of the dictionary [d] by the value
    that [d] holds for its key changes no lookup. *)
Lemma dict_get_refreshed (k : pystr) (d l : dict) :
  (forall k' v', In (k', v') l -> dict_get k' d <> None) ->
  dict_get k (map (fun kv => (fst kv, dict_get_default (fst kv) (snd kv) d)) l) =
    match dict_get k l with
    | Some _ => dict_get k d
    | None => None
    end.
Proof.
  induction l as [|[k' v'] l IH]; intros Hkeys; [reflexivity|].
  cbn [map dict_get fst snd]. destruct (pystr_eqb k k') eqn:E.
  - apply pystr_eqb_eq in E. subst k'. unfold dict_get_default.
    assert (H := Hkeys k v' (or_introl eq_refl)).
    destruct (dict_get k d); [reflexivity | congruence].
  - apply IH. intros k1 v1 Hin. apply (Hkeys k1 v1). right. exact Hin.
Qed.

Lemma assignments_clean (lines : list pystr) (k v : pystr) :
  In (k, v) (assignments lines) -> clean k /\ clean v.
Proof.
  induction lines as [|line rest IH]; cbn [assignments]; [intros []|].
  destruct (classify line) as [|k' v'|] eqn:E; try exact IH.
  intros [H|H]; [|exact (IH H)]. inversion H; subst.
  exact (classify_assign_clean line k v E).
Qed.

Lemma assignments_rewritten (vars : dict) (lines : list pystr) :
  well_formed lines ->
  (forall k v, In (k, v) (assignments lines) -> startswith HASH k = false) ->
  (forall k v, In (k, v) vars -> clean v) ->
  well_formed (rewritten vars lines) /\
  assignments (rewritten vars lines) =
    map (fun kv => (fst kv, dict_get_default (fst kv) (snd kv) vars))
      (assignments lines).
Proof.
  intros Hwf Hhash Hvars. unfold well_formed, rewritten in *.
  induction lines as [|line rest IH]; [split; [constructor | reflexivity]|].
  inversion Hwf as [|? ? Hline Hrest]; subst.
  cbn [map assignments].
  destruct (classify line) as [|k v|] eqn:E; [| |congruence].
  - destruct (IH Hrest) as [IH1 IH2].
    { intros k v Hin. apply (Hhash k v). cbn [assignments]. rewrite E. exact Hin. }
    split; [constructor; [congruence | exact IH1]|].
    cbn [assignments]. rewrite E. exact IH2.
  - destruct (IH Hrest) as [IH1 IH2].
    { intros k' v' Hin. apply (Hhash k' v'). cbn [assignments]. rewrite E.
      right. exact Hin. }
    destruct (classify_assign_clean line k v E) as [Hk Hv].
    assert (Hval : clean (dict_get_default k v vars)).
    { unfold dict_get_default. destruct (dict_get k vars) as [u|] eqn:Eu; [|exact Hv].
      apply (Hvars k u). apply dict_get_Some_In, Eu. }
    assert (Hw : classify (written k (dict_get_default k v vars))
                 = Assign k (dict_get_default k v vars)).
    { apply classify_written; [exact Hk | exact Hval|].
      apply (Hhash k v). cbn [assignments]. rewrite E. left. reflexivity. }
    split; [constructor; [congruence | exact IH1]|].
    cbn [assignments map fst snd]. rewrite Hw, IH2. reflexivity.
Qed.

(** X18.  When the file is read without error and no key begins with
    ["#"], the file written back has the same number of lines, keeps every
    comment and blank line as it is, and reads back to the same
    dictionary; writing it back once more changes nothing.  The values
    written are the texts that were read (for a key assigned twice, the
    last one), not the clamped settings. *)
Theorem rewrite_round_trip (lines : list pystr) (vars : dict) :
  parse_config lines [] = Some vars ->
  (forall k v, In (k, v) (assignments lines) -> startswith HASH k = false) ->
  exists lines' vars',
    rewrite_config vars lines = Some lines' /\
    List.length lines' = List.length lines /\
    (forall i line, nth_error lines i = Some line -> classify line = Skipped ->
                    nth_error lines' i = Some line) /\
    (forall i line k v, nth_error lines i = Some line -> classify line = Assign k v ->
                        nth_error lines' i
                        = Some (written k (dict_get_default k v vars))) /\
    parse_config lines' [] = Some vars' /\
    (forall k, dict_get k vars' = dict_get k vars) /\
    rewrite_config vars' lines' = Some lines'.
Proof.
  intros Hparse Hhash.
  assert (Hwf : well_formed lines).
  { apply (parse_config_well_formed lines []). congruence. }
  assert (Hvars : rev (assignments lines) = vars).
  { rewrite (parse_config_assignments lines [] Hwf), app_nil_r in Hparse.
    congruence. }
  clear Hparse.
  assert (Hclean : forall k v, In (k, v) vars -> clean v).
  { intros k v Hin. rewrite <- Hvars in Hin. apply in_rev in Hin.
    exact (proj2 (assignments_clean lines k v Hin)). }
  destruct (assignments_rewritten vars lines Hwf Hhash Hclean) as [Hwf' Hass'].
  assert (Hget : forall k,
             dict_get k (rev (assignments (rewritten vars lines))) = dict_get k vars).
  { intros k. rewrite Hass', <- map_rev, Hvars.
    rewrite dict_get_refreshed.
    - destruct (dict_get k vars); reflexivity.
    - intros k' v' Hin. exact (dict_get_In k' v' vars Hin). }
  exists (rewritten vars lines), (rev (assignments (rewritten vars lines))).
  split; [apply rewrite_config_rewritten, Hwf|].
  split; [unfold rewritten; apply length_map|].
  split.
  { intros i line Hi Hs. unfold rewritten.
    rewrite nth_error_map, Hi. cbn [option_map]. rewrite Hs. reflexivity. }
  split.
  { intros i line k v Hi Ha. unfold rewritten.
    rewrite nth_error_map, Hi. cbn [option_map]. rewrite Ha. reflexivity. }
  split.
  { rewrite (parse_config_assignments _ [] Hwf'), app_nil_r. reflexivity. }
  split; [exact Hget|].
  rewrite (rewrite_config_rewritten _ _ Hwf'). f_equal.
  unfold rewritten at 1 3. rewrite map_map. apply map_ext_in.
  intros line Hin. destruct (classify line) as [|k v|] eqn:E.
  - rewrite E. reflexivity.
  - destruct (classify_assign_clean line k v E) as [Hk Hv].
    assert (Hkey : In (k, v) (assignments lines)).
    { clear - Hin E. induction lines as [|l rest IH]; [contradiction|].
      cbn [assignments]. destruct Hin as [->|Hin].
      - rewrite E. left. reflexivity.
      - destruct (classify l); [apply IH, Hin | right; apply IH, Hin | apply IH, Hin]. }
    assert (Hpresent : dict_get k vars <> None).
    { apply (dict_get_In k v). rewrite <- Hvars. apply in_rev.
      rewrite rev_involutive. exact Hkey. }
    assert (Hval : clean (dict_get_default k v vars)).
    { unfold dict_get_default. destruct (dict_get k vars) as [u|] eqn:Eu; [|exact Hv].
      apply (Hclean k u). apply dict_get_Some_In, Eu. }
    rewrite (classify_written k _ Hk Hval (Hhash k v Hkey)).
    f_equal. unfold dict_get_default. rewrite Hget.
    destruct (dict_get k vars); [reflexivity | congruence].
  - rewrite E. reflexivity.
Qed.

Lemma rewrite_round_trip_witness :
  let lines := [txt ("# delay" ++ NL)%string;
                txt ("  SHUTDOWN_DELAY=500 " ++ NL)%string;
                txt NL;
                txt ("SHUTDOWN_DELAY = 60" ++ NL)%string] in
  let vars := [(txt "SHUTDOWN_DELAY", txt "60"); (txt "SHUTDOWN_DELAY", txt "500")] in
  parse_config lines [] = Some vars /\
  exists lines',
    rewrite_config vars lines = Some lines' /\
    nth_error lines' 0 = Some (txt ("# delay" ++ NL)%string) /\
    nth_error lines' 1 = Some (txt ("SHUTDOWN_DELAY = 60" ++ NL)%string).
Proof.
  intros lines vars.
  assert (Hparse : parse_config lines [] = Some vars) by reflexivity.
  assert (Hhash : forall k v, In (k, v) (assignments lines) ->
                              startswith HASH k = false).
  { intros k v Hin. vm_compute in Hin.
    destruct Hin as [H|[H|[]]]; inversion H; reflexivity. }
  destruct (rewrite_round_trip lines vars Hparse Hhash)
    as (lines' & vars' & Hrw & _ & Hskip & Hassign & _).
  split; [exact Hparse|]. exists lines'. split; [exact Hrw|]. split.
  - apply (Hskip 0%nat); reflexivity.
  - apply (Hassign 1%nat (txt ("  SHUTDOWN_DELAY=500 " ++ NL)%string)
             (txt "SHUTDOWN_DELAY") (txt "500")); reflexivity.
Defined.

(** ** Which assignment counts *)

Lemma assignments_app (a b : list pystr) :
  assignments (a ++ b) = assignments a ++ assignments b.
Proof.
  induction a as [|line a IH]; [reflexivity|]. cbn [app assignments].
  destruct (classify line); rewrite IH; reflexivity.
Qed.

Lemma dict_get_app_other (k : pystr) (l d : dict) :
  (forall k' v', In (k', v') l -> k' <> k) ->
  dict_get k (l ++ d) = dict_get k d.
Proof.
  induction l as [|[k' v'] l IH]; intros Hl; [reflexivity|].
  cbn [app dict_get]. destruct (pystr_eqb k k') eqn:E.
  - apply pystr_eqb_eq in E. subst k'. exfalso.
    apply (Hl k v'); [left|]; reflexivity.
  - apply IH. intros k1 v1 Hin. apply (Hl k1 v1). right. exact Hin.
Qed.

(** X19.  The value that [load_config] reads for a key is the one of the
    last line of the file that assigns it, whatever earlier lines say; the
    key and the value are stored without the white space around them. *)
Theorem last_assignment_wins
    (before after : list pystr) (line key value : pystr) (vars : dict) :
  parse_config (before ++ line :: after) [] = Some vars ->
  classify line = Assign key value ->
  (forall k v, In (k, v) (assignments after) -> k <> key) ->
  dict_get key vars = Some value /\
  strip key = key /\ strip value = value.
Proof.
  intros Hparse Hline Hafter.
  assert (Hwf : well_formed (before ++ line :: after)).
  { apply (parse_config_well_formed _ []). congruence. }
  rewrite (parse_config_assignments _ [] Hwf), app_nil_r in Hparse.
  assert (Hvars : vars = rev (assignments after)
                         ++ (key, value) :: rev (assignments before)).
  { inversion Hparse as [H]. rewrite assignments_app. cbn [assignments].
    rewrite Hline, rev_app_distr. cbn [rev]. rewrite <- app_assoc. reflexivity. }
  split.
  - rewrite Hvars, dict_get_app_other.
    + cbn [dict_get]. rewrite pystr_eqb_refl. reflexivity.
    + intros k v Hin. apply (Hafter k v). apply in_rev. exact Hin.
  - destruct (classify_assign_clean line key value Hline)
      as ((Hkl & Hkr & _) & (Hvl & Hvr & _)).
    unfold strip. rewrite Hkl, Hkr, Hvl, Hvr. split; reflexivity.
Qed.

Lemma last_assignment_wins_witness :
  let vars := [(txt "FREC_HISTORY", txt "120"); (txt "WATCHDOG_RPI", txt "5");
               (txt "FREC_HISTORY", txt "20")] in
  parse_config [txt ("FREC_HISTORY = 20" ++ NL)%string;
                txt ("WATCHDOG_RPI = 5" ++ NL)%string;
                txt ("  FREC_HISTORY =120  " ++ NL)%string;
                txt ("# FREC_HISTORY = 3600" ++ NL)%string] [] = Some vars /\
  dict_get (txt "FREC_HISTORY") vars = Some (txt "120").
Proof.
  intros vars.
  assert (Hparse : parse_config
                     ([txt ("FREC_HISTORY = 20" ++ NL)%string;
                       txt ("WATCHDOG_RPI = 5" ++ NL)%string]
                      ++ txt ("  FREC_HISTORY =120  " ++ NL)%string
                      :: [txt ("# FREC_HISTORY = 3600" ++ NL)%string]) []
                   = Some vars) by reflexivity.
  destruct (last_assignment_wins _ _ _ (txt "FREC_HISTORY") (txt "120") vars
              Hparse eq_refl)
    as [Hget _].
  - intros k v Hin. vm_compute in Hin. contradiction.
  - split; [exact Hparse | exact Hget].
Defined.

(** ** The readings *)

Lemma lower_true_iff (v : pystr) :
  pystr_eqb (lower v) (txt "true") = true <-> lower v = txt "true".
Proof. apply pystr_eqb_eq. Qed.

(** X20.  Each of the five numeric keys must be in the file: when one is
    missing, or when its text is refused by [int] or [float], the readings
    end with an error and nothing is clamped; the error reported is the one
    of the first such key in the order SHUTDOWN_DELAY, WATCHDOG_RPI,
    LOOP_RUN_UPS, POST_SHUTDOWN, FREC_HISTORY.  Only I2C_SEND_ENABLED has a
    default: without the key the serial push is enabled; with it, the push
    is enabled exactly when the value, in lower case, is ["true"]. *)
Theorem numeric_keys_are_required
    (py_int : pystr -> option Z) (py_float : pystr -> option pyfloat)
    (vars : dict) :
  (forall key, In key numeric_keys -> dict_get key vars = None ->
     exists e, read_values py_int py_float vars = inl e) /\
  (forall rc, read_values py_int py_float vars = inr rc ->
     (exists a b c d e,
        dict_get (txt "SHUTDOWN_DELAY") vars = Some a /\
        py_int a = Some (raw_SHUTDOWN_DELAY rc) /\
        dict_get (txt "WATCHDOG_RPI") vars = Some b /\
        py_int b = Some (raw_WATCHDOG_RPI rc) /\
        dict_get (txt "LOOP_RUN_UPS") vars = Some c /\
        py_int c = Some (raw_LOOP_RUN_UPS rc) /\
        dict_get (txt "POST_SHUTDOWN") vars = Some d /\
        py_int d = Some (raw_POST_SHUTDOWN rc) /\
        dict_get (txt "FREC_HISTORY") vars = Some e /\
        py_float e = Some (raw_FREC_HISTORY rc)) /\
     raw_I2C_SEND_ENABLED rc = load_I2C_SEND_ENABLED vars) /\
  (dict_get (txt "SHUTDOWN_DELAY") vars = None ->
   read_values py_int py_float vars = inl (MissingKey (txt "SHUTDOWN_DELAY"))) /\
  (dict_get (txt "I2C_SEND_ENABLED") vars = None ->
   load_I2C_SEND_ENABLED vars = true) /\
  (forall v, dict_get (txt "I2C_SEND_ENABLED") vars = Some v ->
     (load_I2C_SEND_ENABLED vars = true <-> lower v = txt "true")).
Proof.
  split; [|split; [|split; [|split]]].
  - intros key Hin Hnone. unfold read_values, read_int, read_float.
    cbn [numeric_keys In] in Hin.
    destruct (dict_get (txt "SHUTDOWN_DELAY") vars) as [a|] eqn:Ea;
      [|eexists; reflexivity].
    destruct (py_int a); [|eexists; reflexivity].
    destruct (dict_get (txt "WATCHDOG_RPI") vars) as [b|] eqn:Eb;
      [|eexists; reflexivity].
    destruct (py_int b); [|eexists; reflexivity].
    destruct (dict_get (txt "LOOP_RUN_UPS") vars) as [c|] eqn:Ec;
      [|eexists; reflexivity].
    destruct (py_int c); [|eexists; reflexivity].
    destruct (dict_get (txt "POST_SHUTDOWN") vars) as [d|] eqn:Ed;
      [|eexists; reflexivity].
    destruct (py_int d); [|eexists; reflexivity].
    destruct (dict_get (txt "FREC_HISTORY") vars) as [e|] eqn:Ee;
      [|eexists; reflexivity].
    exfalso.
    destruct Hin as [H|[H|[H|[H|[H|[]]]]]]; subst key; congruence.
  - intros rc. unfold read_values, read_int, read_float.
    destruct (dict_get (txt "SHUTDOWN_DELAY") vars) as [a|]; [|discriminate].
    destruct (py_int a) as [za|] eqn:Ea; [|discriminate].
    destruct (dict_get (txt "WATCHDOG_RPI") vars) as [b|]; [|discriminate].
    destruct (py_int b) as [zb|] eqn:Eb; [|discriminate].
    destruct (dict_get (txt "LOOP_RUN_UPS") vars) as [c|]; [|discriminate].
    destruct (py_int c) as [zc|] eqn:Ec; [|discriminate].
    destruct (dict_get (txt "POST_SHUTDOWN") vars) as [d|]; [|discriminate].
    destruct (py_int d) as [zd|] eqn:Ed; [|discriminate].
    destruct (dict_get (txt "FREC_HISTORY") vars) as [e|]; [|discriminate].
    destruct (py_float e) as [fe|] eqn:Ee; [|discriminate].
    intros H. inversion H; subst rc. cbn.
    split; [|reflexivity]. exists a, b, c, d, e. repeat split; assumption.
  - intros Hnone. unfold read_values, read_int. rewrite Hnone. reflexivity.
  - intros Hnone. unfold load_I2C_SEND_ENABLED, dict_get_default.
    rewrite Hnone. reflexivity.
  - intros v Hv. unfold load_I2C_SEND_ENABLED, dict_get_default. rewrite Hv.
    apply lower_true_iff.
Qed.

Lemma numeric_keys_are_required_witness :
  let vars := [(txt "I2C_SEND_ENABLED", txt "TRUE"); (txt "WATCHDOG_RPI", txt "5")] in
  (exists e, read_values (fun _ => Some 5) (fun _ => Some (Fin 60)) vars = inl e) /\
  load_I2C_SEND_ENABLED vars = true /\
  load_I2C_SEND_ENABLED [(txt "WATCHDOG_RPI", txt "5")] = true.
Proof.
  intros vars.
  destruct (numeric_keys_are_required (fun _ => Some 5) (fun _ => Some (Fin 60)) vars)
    as (Hreq & _ & _ & _ & Hflag).
  destruct (numeric_keys_are_required (fun _ => Some 5) (fun _ => Some (Fin 60))
              [(txt "WATCHDOG_RPI", txt "5")])
    as (_ & _ & _ & Hdefault & _).
  split; [|split].
  - apply (Hreq (txt "FREC_HISTORY")); [|reflexivity].
    do 4 right. left. reflexivity.
  - apply (Hflag (txt "TRUE")); reflexivity.
  - apply Hdefault. reflexivity.
Defined.

(** ** The default file *)

(** X21.  The file that [load_config] creates when none exists is read
    without error and gives the readings 60, 5, 5, 30, 60 and True (on the
    assumption that [int] and [float] read the numerals 60, 5 and 30 as
    these numbers); all lie within their bounds, so that nothing is clamped,
    and writing the file back leaves it as it is. *)
Theorem default_config_loads
    (py_int : pystr -> option Z) (py_float : pystr -> option pyfloat) (t0 : Q) :
  py_int (txt "60") = Some 60 ->
  py_int (txt "5") = Some 5 ->
  py_int (txt "30") = Some 30 ->
  py_float (txt "60") = Some (Fin 60) ->
  exists vars,
    parse_config default_config_lines [] = Some vars /\
    read_values py_int py_float vars = inr (mkRaw 60 5 5 30 (Fin 60) true) /\
    load_config t0 (mkRaw 60 5 5 30 (Fin 60) true) =
      mkPiGuard 60 5 5 30 (PyFloat (Fin 60)) true (t0 - 60)%Q true /\
    rewrite_config vars default_config_lines = Some default_config_lines.
Proof.
  intros H60 H5 H30 Hf.
  set (vars := match parse_config default_config_lines [] with
               | Some v => v
               | None => []
               end).
  assert (Ha : dict_get (txt "SHUTDOWN_DELAY") vars = Some (txt "60"))
    by (vm_compute; reflexivity).
  assert (Hb : dict_get (txt "WATCHDOG_RPI") vars = Some (txt "5"))
    by (vm_compute; reflexivity).
  assert (Hc : dict_get (txt "LOOP_RUN_UPS") vars = Some (txt "5"))
    by (vm_compute; reflexivity).
  assert (Hd : dict_get (txt "POST_SHUTDOWN") vars = Some (txt "30"))
    by (vm_compute; reflexivity).
  assert (He : dict_get (txt "FREC_HISTORY") vars = Some (txt "60"))
    by (vm_compute; reflexivity).
  assert (Hflag : load_I2C_SEND_ENABLED vars = true)
    by (vm_compute; reflexivity).
  exists vars. split; [vm_compute; reflexivity|].
  split; [|split].
  - unfold read_values, read_int, read_float.
    rewrite Ha, H60, Hb, H5, Hc, H5, Hd, H30, He, Hf, Hflag. reflexivity.
  - reflexivity.
  - vm_compute. reflexivity.
Qed.

Lemma default_config_loads_witness :
  let py_int := fun s : pystr =>
    if pystr_eqb s (txt "60") then Some 60
    else if pystr_eqb s (txt "5") then Some 5
    else if pystr_eqb s (txt "30") then Some 30
    else None in
  let py_float := fun s : pystr =>
    if pystr_eqb s (txt "60") then Some (Fin 60) else None in
  exists vars,
    parse_config default_config_lines [] = Some vars /\
    read_values py_int py_float vars = inr (mkRaw 60 5 5 30 (Fin 60) true) /\
    load_config 0 (mkRaw 60 5 5 30 (Fin 60) true) =
      mkPiGuard 60 5 5 30 (PyFloat (Fin 60)) true (0 - 60)%Q true /\
    rewrite_config vars default_config_lines = Some default_config_lines.
Proof.
  intros py_int py_float.
  apply (default_config_loads py_int py_float 0); reflexivity.
Defined.

(** ** The path of the configuration file *)

Lemma py_split_cons (sep : ascii) (a s : pystr) :
  ~ In sep a -> py_split sep (a ++ sep :: s) = a :: py_split sep s.
Proof.
  intros Ha. induction a as [|c a IH]; cbn [app py_split].
  - rewrite Ascii.eqb_refl. reflexivity.
  - destruct (Ascii.eqb c sep) eqn:E.
    + apply Ascii.eqb_eq in E. subst c. exfalso. apply Ha. left. reflexivity.
    + rewrite IH; [reflexivity|]. intros H. apply Ha. right. exact H.
Qed.

Lemma find_config_file_skips (before rest : list pystr) :
  Forall (fun l => startswith DEFAULT_CONFIG_FILE l = false) before ->
  find_config_file (before ++ rest) = find_config_file rest.
Proof.
  induction 1 as [|l before Hl _ IH]; [reflexivity|].
  cbn [app find_config_file]. rewrite Hl. exact IH.
Qed.

(** X22.  The path of the configuration file is taken from the first line
    of [path_config.txt] that begins with DEFAULT_CONFIG_FILE, and the lines
    after it are not looked at.  The path is the text between the first and
    the second ["="] of that line, without the white space around it, so
    that a path holding an ["="] is cut there; a line without ["="] raises
    IndexError; and when no line begins with the key no path is set, so that
    the next statement raises AttributeError. *)
Theorem config_path_from_first_line (before after : list pystr) (line : pystr) :
  Forall (fun l => startswith DEFAULT_CONFIG_FILE l = false) before ->
  startswith DEFAULT_CONFIG_FILE line = true ->
  find_config_file before = inl NoPathLine /\
  (~ In EQUALS line ->
   find_config_file (before ++ line :: after) = inl NoSecondPiece) /\
  (forall name path cut : pystr,
     ~ In EQUALS name -> ~ In EQUALS path ->
     (line = name ++ EQUALS :: path \/
      line = name ++ EQUALS :: path ++ EQUALS :: cut) ->
     find_config_file (before ++ line :: after) = inr (strip path)).
Proof.
  intros Hbefore Hline. split; [|split].
  - rewrite <- (app_nil_r before).
    rewrite (find_config_file_skips before [] Hbefore). reflexivity.
  - intros Hno. rewrite (find_config_file_skips before _ Hbefore).
    cbn [find_config_file]. rewrite Hline, (py_split_none EQUALS line Hno).
    reflexivity.
  - intros name path cut Hname Hpath Hshape.
    rewrite (find_config_file_skips before _ Hbefore).
    cbn [find_config_file]. rewrite Hline.
    destruct Hshape as [-> | ->].
    + rewrite (py_split_one EQUALS name path Hname Hpath). reflexivity.
    + rewrite (py_split_cons EQUALS name _ Hname).
      rewrite (py_split_cons EQUALS path _ Hpath). reflexivity.
Qed.

Lemma config_path_from_first_line_witness :
  let before := [txt ("# where the settings are" ++ NL); txt (" DEFAULT_CONFIG_FILE=/tmp/x" ++ NL)] in
  let line := txt ("DEFAULT_CONFIG_FILE = /home/pi/a=b/piguard_config.txt" ++ NL) in
  let after := [txt ("DEFAULT_CONFIG_FILE=/etc/other.txt" ++ NL)] in
  find_config_file (before ++ line :: after) = inr (txt "/home/pi/a") /\
  find_config_file before = inl NoPathLine.
Proof.
  intros before line after.
  assert (Hbefore : Forall (fun l => startswith DEFAULT_CONFIG_FILE l = false) before)
    by (repeat constructor).
  assert (Hline : startswith DEFAULT_CONFIG_FILE line = true) by reflexivity.
  destruct (config_path_from_first_line before after line Hbefore Hline)
    as (Hnone & _ & Hpath).
  split; [|exact Hnone].
  apply (Hpath (txt "DEFAULT_CONFIG_FILE ") (txt " /home/pi/a")
               (txt ("b/piguard_config.txt" ++ NL))).
  - vm_compute. intuition discriminate.
  - vm_compute. intuition discriminate.
  - right. reflexivity.
Defined.
